(** * Screening and valuation engines of the quant repository

    A shallow embedding of [quant.py] (indicator engine, regime filter,
    screening engine) and [wb.py] (valuation engine).

    Numbers.  The programs compute on IEEE-754 doubles held in pandas and
    numpy containers.  A double is modelled by [fnum]: a finite value is an
    exact rational, and the three special values of IEEE arithmetic
    (+inf, -inf, NaN) are kept with their propagation rules, because the
    programs rely on them (a division by a zero average, [dropna], a
    comparison against NaN, [np.isnan]).  Rounding, overflow and signed
    zeros are outside the model.  The numerical routines that the code
    calls, [**] with a fractional exponent, the square root inside [std()]
    and the least-squares solver behind [np.polyfit], belong to the
    platform and not to the repository: they are the fields of the class
    [FloatLib], and the model leaves their results open.  The general
    theorems hold for every instance of the class; runs on concrete data
    use the executable instance of the module [Reference].

    Where a property turns on the last bit of a result, the line is
    modelled on binary64 values themselves, operation by operation
    (module [F64]). *)

From Stdlib Require Import QArith Qabs Qround Lia Lqa.
From Stdlib Require Floats.
From stdpp Require Import base option list sorting gmap strings.

Local Open Scope Q_scope.

(** ** Doubles with exact finite part *)

Module Float.

Inductive fnum : Type :=
| Fin (q : Q)
| PInf
| NInf
| NaN.

Definition isnan (x : fnum) : bool :=
  match x with NaN => true | _ => false end.

Definition notna (x : fnum) : bool := negb (isnan x).

(** Sign of a rational as a comparison with zero. *)
Definition Qsgn (q : Q) : comparison := 0 ?= q.

Definition fneg (x : fnum) : fnum :=
  match x with
  | Fin q => Fin (- q)
  | PInf => NInf
  | NInf => PInf
  | NaN => NaN
  end.

Definition fadd (x y : fnum) : fnum :=
  match x, y with
  | NaN, _ | _, NaN => NaN
  | Fin a, Fin b => Fin (a + b)
  | PInf, NInf | NInf, PInf => NaN
  | PInf, _ | _, PInf => PInf
  | NInf, _ | _, NInf => NInf
  end.

Definition fsub (x y : fnum) : fnum := fadd x (fneg y).

(** An infinity of the sign of [q]; zero times infinity is NaN. *)
Definition inf_times (pos : bool) (q : Q) : fnum :=
  match Qsgn q with
  | Lt => if pos then PInf else NInf
  | Gt => if pos then NInf else PInf
  | Eq => NaN
  end.

Definition fmul (x y : fnum) : fnum :=
  match x, y with
  | NaN, _ | _, NaN => NaN
  | Fin a, Fin b => Fin (a * b)
  | PInf, Fin b => inf_times true b
  | NInf, Fin b => inf_times false b
  | Fin a, PInf => inf_times true a
  | Fin a, NInf => inf_times false a
  | PInf, PInf | NInf, NInf => PInf
  | PInf, NInf | NInf, PInf => NInf
  end.

(** numpy division: [x/0] is an infinity of the sign of [x], [0/0] and
    [inf/inf] are NaN, a finite value over an infinity is 0. *)
Definition fdiv (x y : fnum) : fnum :=
  match x, y with
  | NaN, _ | _, NaN => NaN
  | Fin a, Fin b =>
      if Qeq_bool b 0 then inf_times true a else Fin (a / b)
  | Fin _, PInf | Fin _, NInf => Fin 0
  | PInf, Fin b => if Qle_bool 0 b then PInf else NInf
  | NInf, Fin b => if Qle_bool 0 b then NInf else PInf
  | PInf, PInf | PInf, NInf | NInf, PInf | NInf, NInf => NaN
  end.

(** Comparisons: every comparison with NaN is false. *)
Definition flt (x y : fnum) : bool :=
  match x, y with
  | NaN, _ | _, NaN => false
  | Fin a, Fin b => negb (Qle_bool b a)
  | NInf, NInf | PInf, _ | _, NInf => false
  | NInf, _ | _, PInf => true
  end.

Definition fgt (x y : fnum) : bool := flt y x.

Definition fle (x y : fnum) : bool :=
  match x, y with
  | NaN, _ | _, NaN => false
  | Fin a, Fin b => Qle_bool a b
  | NInf, _ | _, PInf => true
  | PInf, _ | _, NInf => false
  end.

Definition fabs (x : fnum) : fnum :=
  match x with
  | Fin q => Fin (Qabs q)
  | PInf | NInf => PInf
  | NaN => NaN
  end.

(** Python's builtin [min(a, b)]: [b] when [b < a], else [a]. *)
Definition py_min (a b : fnum) : fnum := if flt b a then b else a.

(** Python's builtin [max(a, b)]: [b] when [b > a], else [a]. *)
Definition py_max (a b : fnum) : fnum := if fgt b a then b else a.

(** [x ** k] for a non-negative integer [k], by repeated multiplication. *)
Fixpoint fpow_nat (x : fnum) (k : nat) : fnum :=
  match k with
  | O => Fin 1
  | S k' => fmul x (fpow_nat x k')
  end.

(** Equality of doubles: rationals up to [Qeq], special values by name.
    NaN is related to itself here: [feq] compares results of the model,
    it is not the [==] of the language. *)
Definition feq (x y : fnum) : Prop :=
  match x, y with
  | Fin a, Fin b => a == b
  | PInf, PInf | NInf, NInf | NaN, NaN => True
  | _, _ => False
  end.

Definition feqb (x y : fnum) : bool :=
  match x, y with
  | Fin a, Fin b => Qeq_bool a b
  | PInf, PInf | NInf, NInf | NaN, NaN => true
  | _, _ => false
  end.

(** A value that is not negative: a rational at or above zero, or +inf. *)
Definition nonneg (x : fnum) : Prop :=
  match x with
  | Fin q => 0 <= q
  | PInf => True
  | NInf | NaN => False
  end.

(** A value in the closed interval from 0 to 100. *)
Definition in_0_100 (x : fnum) : Prop :=
  match x with
  | Fin q => 0 <= q <= 100
  | _ => False
  end.

(** The platform's numerical routines on finite arguments: the square
    root, the power, and [np.polyfit(np.arange(n), y, 1)], which returns
    the slope and the intercept of the line that its solver fits to the
    points [(i, y_i)]. *)
Class FloatLib := {
  fl_sqrt : Q -> Q;
  fl_pow : Q -> Q -> Q;
  fl_polyfit : list Q -> Q * Q
}.

(** [sqrt]: NaN below zero, identity on +inf. *)
Definition fsqrt `{FloatLib} (x : fnum) : fnum :=
  match x with
  | Fin q => if Qle_bool 0 q then Fin (fl_sqrt q) else NaN
  | PInf => PInf
  | NInf | NaN => NaN
  end.

(** [x ** y] for a finite exponent [y > 0], as the code calls it. *)
Definition fpow `{FloatLib} (x : fnum) (y : Q) : fnum :=
  match x with
  | Fin q =>
      match Qsgn q with
      | Lt => Fin (fl_pow q y)
      | Eq => Fin 0
      | Gt => NaN
      end
  | PInf => PInf
  | NInf => PInf
  | NaN => NaN
  end.

End Float.

(** ** Exceptions *)

Module Py.

(** The exception classes that the modelled code can raise. *)
Inductive exn : Type :=
| KeyError
| IndexError
| UnboundLocalError.

Inductive result (A : Type) : Type :=
| Ok (a : A)
| Raise (e : exn).
Arguments Ok {A} a.
Arguments Raise {A} e.

Definition bind {A B : Type} (m : result A) (k : A -> result B) : result B :=
  match m with
  | Ok a => k a
  | Raise e => Raise e
  end.

(** [try: body / except: handler], with a bare [except] that catches all. *)
Definition try_except {A : Type} (body : result A) (handler : exn -> A) : A :=
  match body with
  | Ok a => a
  | Raise e => handler e
  end.

(** A local variable of a function: unbound until its first assignment. *)
Definition load_local {A : Type} (slot : option A) : result A :=
  match slot with
  | Some v => Ok v
  | None => Raise UnboundLocalError
  end.

#[export] Instance result_ret : MRet result := @Ok.
#[export] Instance result_bind : MBind result := fun A B k m => bind m k.

End Py.

(** ** Series and data frames *)

Module Pandas.
Import Float Py.

(** A column: the values in index order. *)
Abbreviation Series := (list fnum).

(** A count as a double. *)
Definition of_nat (n : nat) : fnum := Fin (inject_Z (Z.of_nat n)).

(** The sum of a list of values, from the left. *)
Definition fsum (xs : Series) : fnum := foldl fadd (Fin 0) xs.

(** [s.shift()]: every value moves one position down, NaN enters. *)
Definition shift (s : Series) : Series :=
  match s with
  | [] => []
  | _ :: _ => NaN :: removelast s
  end.

(** [s.diff()]: [s - s.shift()]. *)
Definition diff (s : Series) : Series := zip_with fsub s (shift s).

(** [s.where(cond, other)]: keeps the value where [cond] holds. *)
Definition where_ (cond : fnum -> bool) (other : fnum) (s : Series) : Series :=
  map (fun v => if cond v then v else other) s.

(** [s.shift(k)]. *)
Definition shift_n (k : nat) (s : Series) : Series :=
  take (length s) (replicate k NaN ++ s).

(** [s.pct_change(k)]: [s / s.shift(k) - 1], without filling of gaps. *)
Definition pct_change (k : nat) (s : Series) : Series :=
  zip_with (fun a b => fsub (fdiv a b) (Fin 1)) s (shift_n k s).

(** The window of [s.rolling(w)] that ends at position [i], for [w <= i+1]. *)
Definition window (w i : nat) (s : Series) : Series :=
  take w (drop (i + 1 - w) s).

(** [s.rolling(w).agg()] with the default [min_periods = w]: NaN until the
    window is full, then the aggregate of the window. *)
Definition rolling (w : nat) (agg : nat -> Series -> fnum) (s : Series) : Series :=
  map (fun i => if (i + 1 <? w)%nat then NaN else agg w (window w i s))
      (seq 0 (length s)).

(** The mean of a window: over its non-NaN observations, and NaN when
    there are fewer than [minp] of them. *)
Definition roll_mean (minp : nat) (win : Series) : fnum :=
  let obs := List.filter notna win in
  if (minp <=? length obs)%nat
  then fdiv (fsum obs) (of_nat (length obs))
  else NaN.

(** The sample standard deviation of a window ([ddof = 1]). *)
Definition roll_std `{FloatLib} (minp : nat) (win : Series) : fnum :=
  let obs := List.filter notna win in
  if (minp <=? length obs)%nat
  then
    let m := fdiv (fsum obs) (of_nat (length obs)) in
    let ss := fsum (map (fun v => fmul (fsub v m) (fsub v m)) obs) in
    fsqrt (fdiv ss (of_nat (length obs - 1)))
  else NaN.

(** [max(axis=1)] of one row: the largest non-NaN entry, NaN if none. *)
Definition row_max (row : list fnum) : fnum :=
  match List.filter notna row with
  | [] => NaN
  | v :: vs => foldl py_max v vs
  end.

(** [s.iloc[-1]]. *)
Definition iloc_last (s : Series) : result fnum :=
  match last s with
  | Some v => Ok v
  | None => Raise IndexError
  end.

(** A data frame: the index (dates as day numbers) and the named columns,
    each as long as the index. *)
Record DataFrame : Type := {
  index : list Z;
  columns : gmap string Series
}.

(** [pd.DataFrame()]. *)
Definition empty_frame : DataFrame := {| index := []; columns := ∅ |}.

(** [len(df)]. *)
Definition len (df : DataFrame) : nat := length (index df).

(** [df.empty]: an axis of length zero. *)
Definition is_empty (df : DataFrame) : bool :=
  (len df =? 0)%nat || (size (columns df) =? 0)%nat.

(** [df[c]]. *)
Definition getitem (df : DataFrame) (c : string) : result Series :=
  match columns df !! c with
  | Some s => Ok s
  | None => Raise KeyError
  end.

(** [df[c] = s]: the column is added to, or replaced in, the frame. *)
Definition setitem (df : DataFrame) (c : string) (s : Series) : DataFrame :=
  {| index := index df; columns := <[c := s]> (columns df) |}.

(** Row [i] has a value in every column. *)
Definition row_complete (cols : gmap string Series) (i : nat) : bool :=
  forallb (fun kv => notna (nth i (snd kv) NaN)) (map_to_list cols).

(** The entries of [l] at the positions that [keep] accepts, [l] starting
    at position [i]. *)
Fixpoint select_from {A : Type} (keep : nat -> bool) (i : nat) (l : list A) : list A :=
  match l with
  | [] => []
  | x :: l' =>
      if keep i then x :: select_from keep (S i) l' else select_from keep (S i) l'
  end.

Definition select {A : Type} (keep : nat -> bool) (l : list A) : list A :=
  select_from keep 0 l.

(** [df.dropna()]: a new frame with the rows that have no NaN. *)
Definition dropna (df : DataFrame) : DataFrame :=
  let keep := row_complete (columns df) in
  {| index := select keep (index df);
     columns := select keep <$> columns df |}.

End Pandas.

(** ** quant.py *)

Module Quant.
Import Float Py Pandas.

(** *** The caller's frame as a mutable object

    [add_indicators] receives a reference to the caller's frame and assigns
    columns to it.  A computation on that object takes the frame's current
    content and gives back its content afterwards together with a value or
    an exception; an exception keeps the assignments made before it. *)

Definition OnFrame (A : Type) : Type := DataFrame -> DataFrame * result A.

#[export] Instance onframe_ret : MRet OnFrame := fun A a df => (df, Ok a).

#[export] Instance onframe_bind : MBind OnFrame := fun A B k m df =>
  match m df with
  | (df', Ok a) => k a df'
  | (df', Raise e) => (df', Raise e)
  end.

(** [df[c]] on the object. *)
Definition col (c : string) : OnFrame Series := fun df => (df, getitem df c).

(** [df[c] = s] on the object. *)
Definition assign (c : string) (s : Series) : OnFrame unit :=
  fun df => (setitem df c s, Ok tt).

(** [df.dropna()]: reads the object, builds a new frame. *)
Definition dropna_copy : OnFrame DataFrame := fun df => (df, Ok (dropna df)).

(** [100 - (100 / (1 + (gain/loss)))] at one position. *)
Definition rsi_formula (gain loss : fnum) : fnum :=
  fsub (Fin 100) (fdiv (Fin 100) (fadd (Fin 1) (fdiv gain loss))).

(** The true range at one position: [max] over the three candidates. *)
Definition true_range (hl hc lc : Series) : Series :=
  zip_with (fun a bc => row_max [a; fst bc; snd bc]) hl (zip hc lc).

(** Lines 18 to 20: the rolling averages of the gains and of the losses. *)
Definition avg_gain (close : Series) : Series :=
  let delta := diff close in
  rolling 14 roll_mean (where_ (fun d => fgt d (Fin 0)) (Fin 0) delta).

Definition avg_loss (close : Series) : Series :=
  let delta := diff close in
  rolling 14 roll_mean (map fneg (where_ (fun d => flt d (Fin 0)) (Fin 0) delta)).

(** Line 21, the column [RSI]. *)
Definition rsi_series (close : Series) : Series :=
  zip_with rsi_formula (avg_gain close) (avg_loss close).

(** The columns that [add_indicators] assigns. *)
Definition indicators : list string :=
  ["RSI"; "SMA20"; "Std"; "Lower"; "Upper"; "ATR"].

(** The effect of a computation on the caller's frame stays within the
    columns [cs]: the index and every other column are as before. *)
Definition touches_only {A : Type} (cs : list string) (m : OnFrame A) : Prop :=
  forall df,
    index (fst (m df)) = index df /\
    forall c, c ∉ cs -> columns (fst (m df)) !! c = columns df !! c.

Section Indicators.
Context `{FloatLib}.

(** Lines 18 to 30 of [add_indicators], for a frame that passed line 17. *)
Definition add_indicators_body : OnFrame DataFrame :=
  close ← col "Close";
  assign "RSI" (rsi_series close);;
  close ← col "Close";
  assign "SMA20" (rolling 20 roll_mean close);;
  close ← col "Close";
  assign "Std" (rolling 20 roll_std close);;
  sma ← col "SMA20";
  std ← col "Std";
  assign "Lower" (zip_with fsub sma (map (fmul (Fin 2)) std));;
  sma ← col "SMA20";
  std ← col "Std";
  assign "Upper" (zip_with fadd sma (map (fmul (Fin (3 # 2))) std));;
  high ← col "High";
  low ← col "Low";
  high' ← col "High";
  close ← col "Close";
  low' ← col "Low";
  close' ← col "Close";
  assign "ATR"
    (rolling 14 roll_mean
       (true_range (zip_with fsub high low)
                   (map fabs (zip_with fsub high' (shift close)))
                   (map fabs (zip_with fsub low' (shift close')))));;
  dropna_copy.

(** The caller's frame once the six assignments of lines 21 to 29 are
    made, for the columns [close], [high], [low] that it came with. *)
Definition with_indicators (df : DataFrame) (close high low : Series) : DataFrame :=
  let sma := rolling 20 roll_mean close in
  let std := rolling 20 roll_std close in
  let df1 := setitem df "RSI" (rsi_series close) in
  let df2 := setitem df1 "SMA20" sma in
  let df3 := setitem df2 "Std" std in
  let df4 := setitem df3 "Lower" (zip_with fsub sma (map (fmul (Fin 2)) std)) in
  let df5 := setitem df4 "Upper" (zip_with fadd sma (map (fmul (Fin (3 # 2))) std)) in
  setitem df5 "ATR"
    (rolling 14 roll_mean
       (true_range (zip_with fsub high low)
                   (map fabs (zip_with fsub high (shift close)))
                   (map fabs (zip_with fsub low (shift close))))).

(** [add_indicators(df)]: the content of the caller's frame after the
    call, and the returned frame or the exception. *)
Definition add_indicators : OnFrame DataFrame := fun df =>
  if is_empty df || (len df <? 20)%nat
  then (df, Ok empty_frame)
  else add_indicators_body df.

End Indicators.

(** *** Symbol normalisation *)

(** The characters that [str.strip()] removes, a character being the
    code point of its number: the ASCII blanks and controls, the next-line
    control U+0085 and the no-break space U+00A0.  Code points from 256 on
    are outside the model's strings. *)
Definition is_space (c : Ascii.ascii) : bool :=
  let n := Ascii.nat_of_ascii c in
  ((9 <=? n) && (n <=? 13) || (28 <=? n) && (n <=? 32)
   || (n =? 133) || (n =? 160))%nat.

(** [s.lstrip()]. *)
Fixpoint lstrip (s : string) : string :=
  match s with
  | String c s' => if is_space c then lstrip s' else s
  | EmptyString => EmptyString
  end.

(** [s.strip()]. *)
Definition strip (s : string) : string :=
  String.rev (lstrip (String.rev (lstrip s))).

(** [s[n:]]. *)
Fixpoint drop_chars (n : nat) (s : string) : string :=
  match n, s with
  | S n', String _ s' => drop_chars n' s'
  | _, _ => s
  end.

(** [s.replace(old, new)] for a non-empty [old]: occurrences are replaced
    from the left and do not overlap. *)
Fixpoint replace_upto (fuel : nat) (old new s : string) : string :=
  match fuel, s with
  | S fuel', String c s' =>
      if String.prefix old s
      then new +:+ replace_upto fuel' old new (drop_chars (String.length old) s)
      else String c (replace_upto fuel' old new s')
  | _, _ => s
  end.

Definition replace (old new s : string) : string :=
  replace_upto (String.length s) old new s.

(** Line 33. *)
Definition get_clean_symbol (symbol : string) : string :=
  replace "M_M" "M%26M" (replace "M&M" "M%26M" (strip symbol)) +:+ ".NS".

(** *** Regime filter *)

(** [df['Close'].iloc[-1] > df['Close'].rolling(50).mean().iloc[-1]],
    the expression of lines 47 and 57. *)
Definition is_bullish (df : DataFrame) : result bool :=
  close ← getitem df "Close";
  latest ← iloc_last close;
  close ← getitem df "Close";
  sma ← iloc_last (rolling 50 roll_mean close);
  mret (fgt latest sma).

(** [df['Close'].pct_change(3).iloc[-1]]. *)
Definition ret_3d (df : DataFrame) : result fnum :=
  close ← getitem df "Close";
  iloc_last (pct_change 3 close).

(** *** One run of the scan *)

(** A row of [scanner_results]. *)
Record ScanRow : Type := {
  Symbol : string;
  RSI : fnum;
  Dist : fnum;
  Price : fnum;
  S_Bull : bool;
  RS_Trend : fnum
}.

(** A printed line of the heat map: the row and its trend tag.  The exit
    target that the line also shows is computed from the row on doubles,
    see [F64.target_price]. *)
Record HeatLine : Type := {
  row : ScanRow;
  leader : bool
}.

(** [sort_values(by="RSI")] orders by value and puts NaN last. *)
Definition rsi_le (a b : ScanRow) : Prop :=
  Is_true (fle (RSI a) (RSI b) || isnan (RSI b)).

#[export] Instance rsi_le_dec (a b : ScanRow) : Decision (rsi_le a b) := _.

(** [pd.DataFrame(rows).sort_values(by="RSI")]: a frame built from an
    empty list has no column [RSI].  Among rows of equal RSI the order is
    that of the merge sort; pandas leaves it open. *)
Definition sort_values_by_RSI (rows : list ScanRow) : result (list ScanRow) :=
  match rows with
  | [] => Raise KeyError
  | _ :: _ => Ok (merge_sort rsi_le rows)
  end.

(** Line 90. *)
Definition shortlist (scanner_results : list ScanRow) : result (list ScanRow) :=
  sorted ← sort_values_by_RSI scanner_results;
  mret (take 10 sorted).

(** Line 103: the trend tag of one row. *)
Definition heat_line (s : ScanRow) : HeatLine :=
  {| row := s;
     leader := fgt (RS_Trend s) (Fin 0) |}.

Section Run.
Context `{FloatLib}.

(** The market data source: [yf.download(ticker, period, ...)], which
    answers an unknown ticker with a frame without rows. *)
Variable download : string -> string -> DataFrame.

(** Lines 52 to 57 for one entry of [unique_sectors]; an entry that is not
    a string is [None]. *)
Definition prefetch_sector (m : gmap string bool) (sector_ticker : option string)
  : result (gmap string bool) :=
  match sector_ticker with
  | None => mret m
  | Some t =>
      if String.eqb t "nan" then mret m
      else
        let sdf := download t "100d" in
        if is_empty sdf then mret m
        else b ← is_bullish sdf; mret (<[t := b]> m)
  end.

Fixpoint prefetch_sectors (m : gmap string bool) (unique_sectors : list (option string))
  : result (gmap string bool) :=
  match unique_sectors with
  | [] => mret m
  | t :: rest => m' ← prefetch_sector m t; prefetch_sectors m' rest
  end.

(** [sector_bullish_map.get(sector_idx, False)]. *)
Definition sector_get (m : gmap string bool) (sector_idx : option string) : bool :=
  default false (sector_idx ≫= fun t => m !! t).

(** The body of the [try] of lines 70 to 86; [None] is [continue]. *)
Definition scan_try (m : gmap string bool) (nifty_3d_ret : fnum)
    (symbol : string) (sector_idx : option string) : result (option ScanRow) :=
  df ← snd (add_indicators (download (get_clean_symbol symbol) "60d"));
  if is_empty df then mret None
  else
    close ← getitem df "Close";
    latest_close ← iloc_last close;
    lower ← getitem df "Lower";
    latest_lower ← iloc_last lower;
    let dist := fmul (fsub (fdiv latest_close latest_lower) (Fin 1)) (Fin 100) in
    stock_3d_ret ← ret_3d df;
    let rs_trend := fmul (fsub stock_3d_ret nifty_3d_ret) (Fin 100) in
    rsi ← getitem df "RSI";
    latest_rsi ← iloc_last rsi;
    mret (Some {| Symbol := symbol; RSI := latest_rsi; Dist := dist;
                  Price := latest_close; S_Bull := sector_get m sector_idx;
                  RS_Trend := rs_trend |}).

(** Lines 67 to 87: [except: continue] drops the symbol. *)
Definition scan_symbol (m : gmap string bool) (nifty_3d_ret : fnum)
    (entry : string * option string) : option ScanRow :=
  try_except (scan_try m nifty_3d_ret (fst entry) (snd entry)) (fun _ => None).

(** [run_pro_simulation] from line 45 on, for the table [symbols_data] of
    (symbol, sector index) pairs: the market tag and the heat map.  The
    distinct sectors fill a dictionary, so the order in which they are
    visited does not show in the result. *)
Definition run_pro_simulation (symbols_data : list (string * option string))
  : result (bool * list HeatLine) :=
  let unique_sectors := remove_dups (map snd symbols_data) in
  let nifty := download "^NSEI" "100d" in
  market_bullish ← is_bullish nifty;
  nifty_3d_ret ← ret_3d nifty;
  sector_bullish_map ← prefetch_sectors ∅ unique_sectors;
  let scanner_results := omap (scan_symbol sector_bullish_map nifty_3d_ret) symbols_data in
  s_df ← shortlist scanner_results;
  mret (market_bullish, map heat_line s_df).

End Run.

End Quant.

(** ** quant.py on doubles *)

Module F64.
Import Floats.
Local Open Scope float_scope.
Local Set Warnings "-inexact-float".


End F64.

(** ** wb.py *)

Module WB.
Import Float Py Pandas.

(** A dated value: an entry of a statement row, of the price history or
    of the dividend history.  Dates are day numbers. *)
Abbreviation Dated := (Z * fnum)%type.

(** What the data source returns for one ticker. *)
Record Stock : Type := {
  income_stmt : gmap string (list Dated);  (* row label to values by period *)
  trailingPE : option fnum;                (* [info.get('trailingPE')] *)
  dividendRate : option fnum;              (* [info.get('dividendRate')] *)
  history : list Dated;                    (* ten years of closes, oldest first *)
  dividends : list Dated;
  now : Z                                  (* the day of the run *)
}.

(** The three reported conditions that end a run without a valuation. *)
Inductive reported : Type :=
| NoFinancialData
| NoEpsRow
| NotEnoughPoints.

Inductive verdict : Type :=
| UNDERVALUED
| FAIRLY_VALUED
| OVERVALUED.

(** The values that the run prints. *)
Record Valuation : Type := {
  slope : fnum;
  reg_start : fnum;
  reg_end : fnum;
  cagr : fnum;
  current_pe : fnum;
  n_pe_ratios : nat;
  avg_pe : fnum;
  projected_pe : fnum;
  base_eps : fnum;
  future_eps : fnum;
  projected_price : fnum;
  total_dividends : fnum;
  future_value : fnum;
  intrinsic_value : fnum;
  current_price : fnum;
  outcome : verdict
}.

(** How a run ends. *)
Inductive run : Type :=
| Reported (r : reported)
| Uncaught (e : exn)
| Valued (v : Valuation).

(** *** Data collection (lines 16 to 40) *)

(** [financials.empty]: no row, or no period in the rows. *)
Definition frame_empty (fin : gmap string (list Dated)) : bool :=
  forallb (fun kv => (length (snd kv) =? 0)%nat) (map_to_list fin).

(** The first of ['Diluted EPS'], ['Basic EPS'] that labels a row. *)
Definition find_eps_row (fin : gmap string (list Dated)) : option (list Dated) :=
  match fin !! "Diluted EPS" with
  | Some r => Some r
  | None => fin !! "Basic EPS"
  end.

(** The order of [sort_index]. *)
Definition date_le (a b : Dated) : Prop := (fst a <= fst b)%Z.

#[export] Instance date_le_dec (a b : Dated) : Decision (date_le a b) :=
  Z_le_dec (fst a) (fst b).

(** [eps_row.sort_index(ascending=True).dropna()]. *)
Definition clean_eps (eps_row : list Dated) : list Dated :=
  List.filter (fun e => notna (snd e)) (merge_sort date_le eps_row).

(** *** Growth rate (lines 46 to 72) *)

(** The rational behind a finite double. *)
Definition qfinite (x : fnum) : option Q :=
  match x with Fin q => Some q | _ => None end.

Definition qsum (l : list Q) : Q := foldr Qplus 0 l.

Definition qnat (n : nat) : Q := inject_Z (Z.of_nat n).

(** Line 72: [if np.isnan(cagr): cagr = 0.05]. *)
Definition nan_to_default (cagr : fnum) : fnum :=
  if isnan cagr then Fin (5 # 100) else cagr.

(** The EPS points of a stock after cleaning, none without an EPS row. *)
Definition eps_points (s : Stock) : list Dated :=
  match find_eps_row (income_stmt s) with
  | Some eps_row => clean_eps eps_row
  | None => []
  end.

Section Engine.
Context `{FloatLib}.

(** Line 54, [np.polyfit(x, y, 1)], as (slope, intercept): the result of
    the platform's solver on finite values; an infinite value makes both
    coefficients NaN.  The call does not raise. *)
Definition polyfit1 (y : list fnum) : fnum * fnum :=
  match mapM qfinite y with
  | Some ys => (Fin (fst (fl_polyfit ys)), Fin (snd (fl_polyfit ys)))
  | None => (NaN, NaN)
  end.

(** Lines 57 to 72 once the line is fitted. *)
Definition growth_rate (n_points : nat) (slope intercept : fnum) : fnum :=
  let reg_start := intercept in
  let reg_end := fadd (fmul slope (of_nat (n_points - 1))) intercept in
  let cagr :=
    if fgt reg_start (Fin 0) && fgt reg_end (Fin 0)
    then fsub (fpow (fdiv reg_end reg_start) (1 / qnat (n_points - 1))) (Fin 1)
    else if fgt slope (Fin 0)
    then Fin (5 # 100)
    else Fin 0 in
  nan_to_default cagr.

(** *** Multiples (lines 76 to 119) *)

(** The locals of [analyze_stock] that the P/E step reads: a local is
    bound from its first assignment on. *)
Record Locals : Type := {
  end_eps : option fnum
}.

(** [hist['Close'].iloc[-1]]. *)
Definition last_close (hist : list Dated) : result fnum :=
  iloc_last (map snd hist).

(** Lines 88 to 93. *)
Definition resolve_current_pe (trailing : option fnum) (hist : list Dated)
    (locals : Locals) : fnum :=
  match trailing with
  | Some pe => pe
  | None =>
      try_except
        (curr_price ← last_close hist;
         e ← load_local (end_eps locals);
         if fgt e (Fin 0)
         then (e' ← load_local (end_eps locals); mret (fdiv curr_price e'))
         else mret (Fin 15))
        (fun _ => Fin 15)
  end.

Definition Zdist (a b : Z) : Z := Z.abs (a - b).

(** [hist.index.get_indexer([date], method='nearest')[0]] on an increasing
    index: the position of the closest date, the later one on a tie, and
    no position ([-1]) on an empty index. *)
Fixpoint nearest_from (date : Z) (best : nat) (best_date : Z) (pos : nat)
    (idx : list Z) : nat :=
  match idx with
  | [] => best
  | d :: rest =>
      if (Zdist d date <=? Zdist best_date date)%Z
      then nearest_from date pos d (S pos) rest
      else nearest_from date best best_date (S pos) rest
  end.

Definition get_indexer_nearest (idx : list Z) (date : Z) : option nat :=
  match idx with
  | [] => None
  | d :: rest => Some (nearest_from date 0%nat d 1%nat rest)
  end.

(** One turn of the loop of lines 97 to 111: the multiple to append. *)
Definition pe_at (hist : list Dated) (e : Dated) : option fnum :=
  let eps_val := snd e in
  if fle eps_val (Fin 0) then None
  else
    match get_indexer_nearest (map fst hist) (fst e) with
    | None => None
    | Some i =>
        try_except
          (price_at_date ← (match map snd hist !! i with
                            | Some p => Ok p
                            | None => Raise IndexError
                            end);
           let pe := fdiv price_at_date eps_val in
           mret (if flt (Fin 0) pe && flt pe (Fin 150) then Some pe else None))
          (fun _ => None)
    end.

(** [pe_ratios] after the loop. *)
Definition pe_ratios (hist : list Dated) (eps_data : list Dated) : list fnum :=
  omap (pe_at hist) eps_data.

(** Lines 113 to 116. *)
Definition average_pe (ratios : list fnum) (current : fnum) : fnum :=
  match ratios with
  | [] => current
  | _ :: _ => fdiv (fsum ratios) (of_nat (length ratios))
  end.

(** Lines 118 and 119. *)
Definition project_pe (current avg : fnum) : fnum :=
  let projected := py_min current avg in
  if flt projected (Fin 5) then Fin 5 else projected.

(** *** Dividends (lines 129 to 148) *)

(** [divs[divs.index > cutoff].sum()]: the sum skips NaN. *)
Definition trailing_dividends (divs : list Dated) (today : Z) : fnum :=
  let cutoff := (today - 365)%Z in
  fsum (List.filter notna (map snd (List.filter (fun d => (cutoff <? fst d)%Z) divs))).

(** Lines 129 to 140: the configured rate, else the payments of the last
    365 days, else nothing. *)
Definition annual_dividend (s : Stock) : fnum :=
  match dividendRate s with
  | Some d => d
  | None =>
      match dividends s with
      | [] => Fin 0
      | _ :: _ => trailing_dividends (dividends s) (now s)
      end
  end.

(** Lines 143 to 146: the dividend of each of the next ten years. *)
Definition projected_dividends (d growth : fnum) : list fnum :=
  map (fun i => fmul d (fpow_nat (fadd (Fin 1) growth) i)) (seq 1 10).

(** *** Verdict (lines 184 to 189) *)

Definition judge (price intrinsic : fnum) : verdict :=
  if fle price intrinsic then UNDERVALUED
  else if fle price (fmul intrinsic (Fin (11 # 10))) then FAIRLY_VALUED
  else OVERVALUED.

(** *** The whole run *)

Definition analyze_stock (s : Stock) : run :=
  let financials := income_stmt s in
  if frame_empty financials then Reported NoFinancialData
  else
    match find_eps_row financials with
    | None => Reported NoEpsRow
    | Some eps_row =>
        let eps_data := clean_eps eps_row in
        let years_available := length eps_data in
        if (years_available <? 2)%nat then Reported NotEnoughPoints
        else
          let n_points := length eps_data in
          let fit := polyfit1 (map snd eps_data) in
          let m := fst fit in
          let c := snd fit in
          let g := growth_rate n_points m c in
          let hist := history s in
          (* line 88: [end_eps] is assigned on line 124 only *)
          let pe_now := resolve_current_pe (trailingPE s) hist {| end_eps := None |} in
          let ratios := pe_ratios hist eps_data in
          let pe_avg := average_pe ratios pe_now in
          let pe_proj := project_pe pe_now pe_avg in
          match iloc_last (map snd eps_data) with
          | Raise e => Uncaught e
          | Ok last_eps =>
              let base := last_eps in
              let fut := fmul base (fpow_nat (fadd (Fin 1) g) 10) in
              let price10 := fmul fut pe_proj in
              let divs := foldl fadd (Fin 0) (projected_dividends (annual_dividend s) g) in
              let fv := fadd price10 divs in
              let iv := fdiv fv (fpow_nat (fadd (Fin 1) (Fin (15 # 100))) 10) in
              match last_close hist with
              | Raise e => Uncaught e
              | Ok price =>
                  Valued {| slope := m; reg_start := c;
                            reg_end := fadd (fmul m (of_nat (n_points - 1))) c;
                            cagr := g; current_pe := pe_now;
                            n_pe_ratios := length ratios; avg_pe := pe_avg;
                            projected_pe := pe_proj; base_eps := base;
                            future_eps := fut; projected_price := price10;
                            total_dividends := divs; future_value := fv;
                            intrinsic_value := iv; current_price := price;
                            outcome := judge price iv |}
              end
          end
    end.

End Engine.

End WB.

(** ** A reference platform and sample data

    An executable [FloatLib], to run the model: square roots rounded down
    to a multiple of 2^-40, integral powers exact, fractional powers
    through an integer root rounded down likewise. *)

Module Reference.
Import Float Py Pandas.

Definition scale : Z := (2 ^ 40)%Z.

Definition ref_sqrt (q : Q) : Q :=
  Z.sqrt (Qnum q * scale * scale / Z.pos (Qden q)) # (Z.to_pos scale).

(** The largest [r] below [2^bits] above [r0] with [r ^ k <= n], bit by bit. *)
Fixpoint iroot_bits (k n : Z) (bits : nat) (r : Z) : Z :=
  match bits with
  | O => r
  | S b =>
      let c := (r + 2 ^ Z.of_nat b)%Z in
      if (c ^ k <=? n)%Z then iroot_bits k n b c else iroot_bits k n b r
  end.

Definition iroot (k n : Z) : Z := iroot_bits k n (S (Z.to_nat (Z.log2 n))) 0.

Definition ref_pow (x y : Q) : Q :=
  let y' := Qred y in
  match Qden y' with
  | 1%positive => Qpower x (Qnum y')
  | b =>
      let k := Z.pos b in
      let r := iroot k (Qnum x * scale ^ k / Z.pos (Qden x)) # (Z.to_pos scale) in
      Qpower r (Qnum y')
  end.

(** The least-squares line through the points [(i, y_i)] in exact
    arithmetic, as (slope, intercept): the solver of the reference
    platform. *)
Definition ols (ys : list Q) : Q * Q :=
  let n := WB.qnat (length ys) in
  let xs := map WB.qnat (seq 0 (length ys)) in
  let sx := WB.qsum xs in
  let sy := WB.qsum ys in
  let sxx := WB.qsum (map (fun x => x * x) xs) in
  let sxy := WB.qsum (zip_with Qmult xs ys) in
  let m := (n * sxy - sx * sy) / (n * sxx - sx * sx) in
  let c := (sy - m * sx) / n in
  (m, c).

#[export] Instance ref_floatlib : FloatLib :=
  {| fl_sqrt := ref_sqrt; fl_pow := ref_pow; fl_polyfit := ols |}.

Definition fz (z : Z) : fnum := Fin (inject_Z z).

(** A frame as the data source delivers it, from daily closes, with
    [High = Close + 1] and [Low = Close - 1]. *)
Definition bars (closes : list Z) : DataFrame :=
  {| index := map Z.of_nat (seq 0 (length closes));
     columns :=
       <["Open" := map fz closes]>
       (<["High" := map (fun c => fz (c + 1)) closes]>
       (<["Low" := map (fun c => fz (c - 1)) closes]>
       (<["Close" := map fz closes]>
       (<["Volume" := map (fun _ => fz 1000) closes]> ∅)))) |}.

(** The answer of the data source for a ticker it has no rows for. *)
Definition no_bars : DataFrame := bars [].

Definition flat25 : list Z := replicate 25 50%Z.

Definition rising25 : list Z := map Z.of_nat (seq 1 25).

Definition zigzag22 : list Z :=
  [10;11;12;11;13;14;13;15;16;15;17;18;17;19;20;19;21;22;21;23;24;25]%Z.

(** An earnings row from yearly values, one period per 365 days. *)
Definition yearly (vals : list Z) : list (Z * fnum) :=
  zip (map (fun i => (365 * Z.of_nat i)%Z) (seq 0 (length vals))) (map fz vals).

Definition stock_of (eps : list Z) (pe : option fnum) (closes : list (Z * fnum))
  : WB.Stock :=
  {| WB.income_stmt := {[ "Diluted EPS" := yearly eps ]};
     WB.trailingPE := pe;
     WB.dividendRate := None;
     WB.history := closes;
     WB.dividends := [];
     WB.now := 2000 |}.

Definition two_closes : list (Z * fnum) := [(0%Z, fz 50); (365%Z, fz 100)].


(** Earnings -3, 1, 2: the fitted line ends at 2.5, the last report is 2. *)
Definition recovering_eps : WB.Stock := stock_of [-3; 1; 2]%Z None two_closes.

(** Earnings 2 then 4, no trailing P/E, last close 100. *)
Definition doubling_eps : WB.Stock := stock_of [2; 4]%Z None two_closes.

(** Earnings 10 to 18 in steps of 2, trailing P/E 3. *)
Definition linear_eps : WB.Stock :=
  stock_of [10; 12; 14; 16; 18]%Z (Some (fz 3)) two_closes.

(** Earnings 1 then 2 against closes of 500 and 1000: every historical
    multiple is 500, outside (0, 150). *)
Definition dear_stock : WB.Stock :=
  stock_of [1; 2]%Z (Some (fz 3)) [(0%Z, fz 500); (365%Z, fz 1000)].

(** A scan row with the given symbol and RSI, 10% below its band at 100. *)
Definition scan_row (sym : string) (rsi : Z) : Quant.ScanRow :=
  {| Quant.Symbol := sym; Quant.RSI := fz rsi; Quant.Dist := fz (-10);
     Quant.Price := fz 100; Quant.S_Bull := false; Quant.RS_Trend := fz 0 |}.

(** Twelve rows with the RSI values 60, 55, ..., 5. *)
Definition twelve_rows : list Quant.ScanRow :=
  map (fun i => scan_row "S" (60 - 5 * Z.of_nat i)) (seq 0 12).

End Reference.

(** ** Shapes of values and frames *)

Module Shapes.
Import Float Py Pandas.

(** A double that is a rational: neither an infinity nor NaN. *)
Definition finite (x : fnum) : Prop :=
  match x with Fin _ => True | _ => False end.

(** A frame whose columns are as long as its index. *)
Definition aligned (df : DataFrame) : Prop :=
  map_Forall (fun _ s => length s = len df) (columns df).

(** A frame in which every cell is a rational. *)
Definition clean (df : DataFrame) : Prop :=
  map_Forall (fun _ s => Forall finite s) (columns df).

End Shapes.

(** ** Plain symbols *)

Module Symbols.
Import Stdlib.Strings.Ascii.
Import Quant.

(** Every character of a string passes a test. *)
Fixpoint all_chars (p : Ascii.ascii -> bool) (s : string) : bool :=
  match s with
  | EmptyString => true
  | String c s' => p c && all_chars p s'
  end.

(** A character of a plain ticker: an ASCII character that is no blank,
    no ampersand and no underscore. *)
Definition plain_char (c : Ascii.ascii) : bool :=
  (Ascii.nat_of_ascii c <? 128)%nat
  && negb (is_space c) && negb (Ascii.eqb c "&"%char) && negb (Ascii.eqb c "_"%char).

End Symbols.

(** ** Sample market data *)

Module Samples.
Import Float Py Pandas Reference.

Definition rising60 : list Z := map Z.of_nat (seq 1 60).

Definition falling60 : list Z := map (fun i => (100 - Z.of_nat i)%Z) (seq 0 60).

(** A data source that knows the market index, two sector indices and one
    stock, and answers every other ticker with a frame without rows. *)
Definition feed (ticker period : string) : DataFrame :=
  if String.eqb ticker "^NSEI" then bars rising60
  else if String.eqb ticker "^CNXIT" then bars rising60
  else if String.eqb ticker "^CNXAUTO" then bars falling60
  else if String.eqb ticker "TCS.NS" then bars zigzag22
  else no_bars.

End Samples.

(** * Properties *)

(** ** Valuation engine *)

Module WBFacts.
Import Float Py Pandas WB Reference.

Section Engine.
Context `{FloatLib}.

(** What a completed run printed, field by field. *)
Lemma analyze_stock_Valued (s : Stock) (v : Valuation) :
  analyze_stock s = Valued v ->
  let eps_data := eps_points s in
  let n := length eps_data in
  let ratios := pe_ratios (history s) eps_data in
  (2 <= n)%nat /\
  slope v = fst (polyfit1 (map snd eps_data)) /\
  reg_start v = snd (polyfit1 (map snd eps_data)) /\
  reg_end v = fadd (fmul (slope v) (of_nat (n - 1))) (reg_start v) /\
  cagr v = growth_rate n (slope v) (reg_start v) /\
  current_pe v = resolve_current_pe (trailingPE s) (history s) {| end_eps := None |} /\
  n_pe_ratios v = length ratios /\
  avg_pe v = average_pe ratios (current_pe v) /\
  projected_pe v = project_pe (current_pe v) (avg_pe v) /\
  last (map snd eps_data) = Some (base_eps v) /\
  future_eps v = fmul (base_eps v) (fpow_nat (fadd (Fin 1) (cagr v)) 10) /\
  projected_price v = fmul (future_eps v) (projected_pe v) /\
  last_close (history s) = Ok (current_price v).
Proof.
  unfold analyze_stock, eps_points.
  destruct (frame_empty (income_stmt s)); [discriminate|].
  destruct (find_eps_row (income_stmt s)) as [eps_row|]; [|discriminate].
  destruct (length (clean_eps eps_row) <? 2)%nat eqn:Hn; [discriminate|].
  apply Nat.ltb_ge in Hn.
  unfold iloc_last at 1.
  destruct (last (map snd (clean_eps eps_row))) as [base|] eqn:Hbase;
    [|discriminate].
  destruct (last_close (history s)) as [price|e] eqn:Hprice; [|discriminate].
  intros [= <-]. cbn. repeat split; auto.
Qed.

(** The fitted line has two finite coefficients, or two that are NaN. *)
Lemma polyfit1_cases (y : list fnum) :
  (exists m c, polyfit1 y = (Fin m, Fin c)) \/ polyfit1 y = (NaN, NaN).
Proof.
  unfold polyfit1. destruct (mapM qfinite y); [left; eauto|right; reflexivity].
Qed.


(** The fallback of lines 88 to 93 as it runs: [end_eps] is unbound, the
    bare [except] turns the error into the constant. *)
Lemma resolve_current_pe_unbound (hist : list Dated) :
  resolve_current_pe None hist {| end_eps := None |} = Fin 15.
Proof.
  unfold resolve_current_pe. destruct (last_close hist); reflexivity.
Qed.

(** The same lines with [end_eps] bound would divide the latest price by
    the latest earnings. *)
Lemma resolve_current_pe_bound (hist : list Dated) (price e : fnum) :
  last_close hist = Ok price ->
  resolve_current_pe None hist {| end_eps := Some e |}
  = if fgt e (Fin 0) then fdiv price e else Fin 15.
Proof.
  intros Hp. unfold resolve_current_pe. rewrite Hp. cbn -[fgt].
  destruct (fgt e (Fin 0)); reflexivity.
Qed.

Lemma analyze_stock_fallback_pe (s : Stock) (v : Valuation) :
  analyze_stock s = Valued v -> trailingPE s = None -> current_pe v = Fin 15.
Proof.
  intros Hv Hpe. apply analyze_stock_Valued in Hv.
  destruct Hv as (_ & _ & _ & _ & _ & Hc & _).
  rewrite Hc, Hpe. apply resolve_current_pe_unbound.
Qed.

(** A multiple enters the list only for positive earnings and only from
    the open interval (0, 150). *)
Lemma pe_at_Some (hist : list Dated) (e : Dated) (pe : fnum) :
  pe_at hist e = Some pe ->
  fle (snd e) (Fin 0) = false /\
  flt (Fin 0) pe = true /\ flt pe (Fin 150) = true /\
  exists price, price ∈ map snd hist /\ pe = fdiv price (snd e).
Proof.
  unfold pe_at. destruct (fle (snd e) (Fin 0)); [discriminate|].
  destruct (get_indexer_nearest _ _) as [i|]; [|discriminate].
  destruct (map snd hist !! i) as [p|] eqn:Hi; cbn -[flt fdiv]; [|discriminate].
  destruct (flt (Fin 0) (fdiv p (snd e))) eqn:H0; cbn -[flt fdiv]; [|discriminate].
  destruct (flt (fdiv p (snd e)) (Fin 150)) eqn:H1; [|discriminate].
  intros [= <-]. repeat split; auto.
  exists p. split; [|reflexivity]. eapply list_elem_of_lookup_2, Hi.
Qed.

Lemma pe_ratios_nil (hist eps_data : list Dated) :
  pe_ratios hist eps_data = [] <-> Forall (fun e => pe_at hist e = None) eps_data.
Proof.
  unfold pe_ratios. induction eps_data as [|e l IH]; cbn.
  - split; auto.
  - destruct (pe_at hist e) eqn:He.
    + split; [discriminate|]. intros Hf. inversion Hf; congruence.
    + rewrite IH. split; [intros; constructor; auto|].
      intros Hf. inversion Hf; auto.
Qed.

Lemma project_pe_same (c : fnum) : project_pe c c = py_max c (Fin 5).
Proof.
  unfold project_pe, py_min, py_max, fgt.
  destruct (flt c c); reflexivity.
Qed.


(** C3 (as amended).  The trendline serves the growth rate only: the
    growth rate is a function of the number of points, the slope and the
    intercept of the fitted line, while the base of the ten-year
    projection is the latest reported earnings value, on which the growth
    rate is compounded. *)
Theorem projection_base_is_latest_eps (s : Stock) (v : Valuation) :
  analyze_stock s = Valued v ->
  cagr v = growth_rate (length (eps_points s)) (slope v) (reg_start v) /\
  last (map snd (eps_points s)) = Some (base_eps v) /\
  future_eps v = fmul (base_eps v) (fpow_nat (fadd (Fin 1) (cagr v)) 10).
Proof.
  intros Hv. apply analyze_stock_Valued in Hv.
  destruct Hv as (_ & _ & _ & _ & Hg & _ & _ & _ & _ & Hb & Hf & _).
  auto.
Qed.

(** C10.  When no historical multiple is retained, the average multiple
    is the current one and the projected multiple is the larger of the
    current multiple and 5. *)
Theorem no_multiple_defaults_to_current (s : Stock) (v : Valuation) :
  analyze_stock s = Valued v ->
  Forall (fun e => pe_at (history s) e = None) (eps_points s) ->
  n_pe_ratios v = 0%nat /\
  avg_pe v = current_pe v /\
  projected_pe v = py_max (current_pe v) (Fin 5).
Proof.
  intros Hv Hnone. apply pe_ratios_nil in Hnone.
  apply analyze_stock_Valued in Hv.
  destruct Hv as (_ & _ & _ & _ & _ & _ & Hn & Ha & Hp & _).
  rewrite Hnone in Hn, Ha. cbn in Ha.
  split; [exact Hn|]. split; [exact Ha|].
  rewrite Hp, Ha. apply project_pe_same.
Qed.

End Engine.

(** *** Runs on the reference platform *)

Example ols_linear :
  fst (ols [10; 12; 14; 16; 18]) == 2 /\ snd (ols [10; 12; 14; 16; 18]) == 10.
Proof. split; vm_compute; reflexivity. Qed.

(** A NaN from the quotient of the endpoints is replaced by 5%. *)
Example growth_rate_nan_guard : growth_rate 3 PInf PInf = Fin (5 # 100).
Proof. reflexivity. Qed.



(** C2, the code at a failing input.  With no trailing P/E, latest
    earnings of 4 and a last close of 100, the current P/E comes out as
    the constant 15 although the earnings are positive; price over
    earnings would be 25. *)
Theorem fallback_pe_ignores_earnings :
  exists v, analyze_stock doubling_eps = Valued v /\
            trailingPE doubling_eps = None /\
            base_eps v = fz 4 /\
            current_price v = fz 100 /\
            fgt (base_eps v) (Fin 0) = true /\
            current_pe v = Fin 15 /\
            feq (fdiv (current_price v) (base_eps v)) (Fin 25) /\
            ~ feq (current_pe v) (fdiv (current_price v) (base_eps v)).
Proof.
  eexists. split; [vm_compute; reflexivity|].
  repeat (split; [vm_compute; reflexivity|]).
  vm_compute. discriminate.
Qed.

(** C3, counterexample.  For the earnings -3, 1, 2 the fitted line ends
    at 2.5 and the growth rate is the 5% default; the projection is
    2 * 1.05^10, built on the last report, and differs from
    2.5 * 1.05^10, built on the end of the line. *)
Lemma projection_not_on_trendline_end :
  exists v, analyze_stock recovering_eps = Valued v /\
            feq (reg_end v) (Fin (5 # 2)) /\
            feq (cagr v) (Fin (5 # 100)) /\
            feq (future_eps v) (fmul (fz 2) (fpow_nat (Fin (105 # 100)) 10)) /\
            ~ feq (future_eps v)
                  (fmul (reg_end v) (fpow_nat (fadd (Fin 1) (cagr v)) 10)).
Proof.
  eexists. split; [vm_compute; reflexivity|].
  repeat (split; [vm_compute; reflexivity|]).
  vm_compute. discriminate.
Qed.

Lemma projection_base_is_latest_eps_witness :
  exists v, analyze_stock recovering_eps = Valued v /\
            last (map snd (eps_points recovering_eps)) = Some (base_eps v) /\
            base_eps v = fz 2.
Proof.
  eexists. split; [vm_compute; reflexivity|].
  split; [|reflexivity].
  refine (proj1 (proj2 (projection_base_is_latest_eps recovering_eps _ _))).
  vm_compute; reflexivity.
Defined.

Lemma no_multiple_defaults_to_current_witness :
  exists v, analyze_stock dear_stock = Valued v /\
            Forall (fun e => pe_at (history dear_stock) e = None)
                   (eps_points dear_stock) /\
            current_pe v = fz 3 /\
            projected_pe v = py_max (current_pe v) (Fin 5) /\
            projected_pe v = Fin 5.
Proof.
  assert (Hnone : Forall (fun e => pe_at (history dear_stock) e = None)
                         (eps_points dear_stock)).
  { vm_compute. repeat constructor. }
  eexists. split; [vm_compute; reflexivity|].
  split; [exact Hnone|]. split; [reflexivity|].
  split; [|reflexivity].
  refine (proj2 (proj2 (no_multiple_defaults_to_current dear_stock _ _ Hnone))).
  vm_compute; reflexivity.
Defined.

End WBFacts.

(** ** Arithmetic of doubles *)

Module FloatFacts.
Import Float.

Lemma Qeq_bool_false (a b : Q) : Qeq_bool a b = false -> ~ a == b.
Proof. intros Hf He. apply Qeq_bool_iff in He. congruence. Qed.

Lemma Qle_bool_false (a b : Q) : Qle_bool a b = false -> b < a.
Proof.
  intros Hf. apply Qnot_le_lt. intros Hle.
  apply Qle_bool_iff in Hle. congruence.
Qed.

Lemma Qsgn_Lt (q : Q) : Qsgn q = Lt <-> 0 < q.
Proof. unfold Qsgn. rewrite Qlt_alt. reflexivity. Qed.

Lemma Qsgn_Eq (q : Q) : Qsgn q = Eq <-> q == 0.
Proof.
  unfold Qsgn. rewrite <- Qeq_alt. split; intros E; rewrite E; reflexivity.
Qed.

Lemma Qsgn_Gt (q : Q) : Qsgn q = Gt <-> q < 0.
Proof. unfold Qsgn. rewrite Qgt_alt. reflexivity. Qed.

Lemma nonneg_fadd (x y : fnum) : nonneg x -> nonneg y -> nonneg (fadd x y).
Proof.
  destruct x as [a| | |], y as [b| | |]; cbn; try tauto.
  intros Ha Hb. lra.
Qed.

Lemma nonneg_notna (x : fnum) : nonneg x -> notna x = true.
Proof. destruct x; cbn; tauto. Qed.

(** A non-negative value over a positive count is non-negative. *)
Lemma nonneg_fdiv_pos (x : fnum) (n : Q) : 0 < n -> nonneg x -> nonneg (fdiv x (Fin n)).
Proof.
  intros Hn. destruct x as [a| | |]; cbn; try tauto.
  - intros Ha. destruct (Qeq_bool n 0) eqn:E.
    + apply Qeq_bool_iff in E. lra.
    + cbn. apply Qle_shift_div_l; lra.
  - intros _. destruct (Qle_bool 0 n) eqn:E; [exact I|].
    apply Qle_bool_false in E. lra.
Qed.

(** The quotient of two non-negative values is non-negative or NaN, and
    it is NaN only for 0/0 and inf/inf. *)
Lemma fdiv_nonneg (g l : fnum) :
  nonneg g -> nonneg l -> fdiv g l = NaN \/ nonneg (fdiv g l).
Proof.
  destruct g as [a| | |], l as [b| | |]; cbn; try tauto.
  - intros Ha Hb. destruct (Qeq_bool b 0) eqn:E.
    + unfold inf_times. destruct (Qsgn a) eqn:S; cbn; auto.
    + right. cbn. apply Qeq_bool_false in E.
      apply Qle_shift_div_l; lra.
  - intros _ _. right. cbn. lra.
  - intros _ Hb. right. destruct (Qle_bool 0 b) eqn:E; [exact I|].
    apply Qle_bool_false in E. lra.
Qed.

Lemma fdiv_zero_loss (g l : fnum) (b : Q) :
  nonneg g -> l = Fin b -> b == 0 ->
  (fgt g (Fin 0) = true -> fdiv g l = PInf) /\
  (fgt g (Fin 0) = false -> fdiv g l = NaN).
Proof.
  intros Hg -> Hb. apply Qeq_bool_iff in Hb as Hb'.
  destruct g as [a| | |]; cbn in *; try tauto.
  - rewrite Hb'. unfold inf_times. split; intros Ha.
    + apply negb_true_iff, Qle_bool_false in Ha.
      apply Qsgn_Lt in Ha. rewrite Ha. reflexivity.
    + apply negb_false_iff, Qle_bool_iff in Ha.
      assert (E : a == 0) by lra. apply Qsgn_Eq in E. rewrite E. reflexivity.
  - split; [|discriminate]. intros _.
    assert (E : Qle_bool 0 b = true) by (apply Qle_bool_iff; lra).
    rewrite E. reflexivity.
Qed.

End FloatFacts.

(** ** Series and frames *)

Module PandasFacts.
Import Float Py Pandas FloatFacts.

Lemma map_fmap {A B : Type} (f : A -> B) (l : list A) : map f l = f <$> l.
Proof. induction l; cbn; congruence. Qed.

Lemma select_from_lookup {A : Type} (keep : nat -> bool) (l : list A) (a : nat) (x : A) :
  x ∈ select_from keep a l ->
  exists i, keep (a + i)%nat = true /\ l !! i = Some x.
Proof.
  revert a. induction l as [|y l IH]; intros a; cbn.
  - intros Hx. inversion Hx.
  - destruct (keep a) eqn:Ka.
    + intros Hx. apply elem_of_cons in Hx as [-> | Hx].
      * exists 0%nat. rewrite Nat.add_0_r. auto.
      * apply IH in Hx as (i & Hk & Hi). exists (S i).
        rewrite <- Nat.add_succ_comm. auto.
    + intros Hx. apply IH in Hx as (i & Hk & Hi). exists (S i).
      rewrite <- Nat.add_succ_comm. auto.
Qed.

(** An entry that [select] keeps sits at an accepted position. *)
Lemma select_lookup {A : Type} (keep : nat -> bool) (l : list A) (x : A) :
  x ∈ select keep l -> exists i, keep i = true /\ l !! i = Some x.
Proof. apply select_from_lookup. Qed.

Lemma select_from_kept {A : Type} (keep : nat -> bool) (l : list A) (a i : nat) (x : A) :
  keep (a + i)%nat = true -> l !! i = Some x -> x ∈ select_from keep a l.
Proof.
  revert a i. induction l as [|y l IH]; intros a i Hk Hi; [discriminate|].
  destruct i as [|i]; cbn in *.
  - injection Hi as ->. rewrite Nat.add_0_r in Hk. rewrite Hk. left.
  - rewrite <- Nat.add_succ_comm in Hk.
    destruct (keep a); [right|]; eapply IH; eauto.
Qed.

Lemma select_from_none {A : Type} (keep : nat -> bool) (l : list A) (a : nat) :
  (forall i, (i < length l)%nat -> keep (a + i)%nat = false) ->
  select_from keep a l = [].
Proof.
  revert a. induction l as [|y l IH]; intros a Hk; [reflexivity|]. cbn.
  rewrite <- (Nat.add_0_r a) at 1. rewrite (Hk 0%nat) by (cbn; lia).
  apply IH. intros i Hi. rewrite Nat.add_succ_comm. apply Hk. cbn. lia.
Qed.

(** A complete row has a value in each column. *)
Lemma row_complete_lookup (cols : gmap string Series) (i : nat) (c : string) (s : Series) :
  row_complete cols i = true -> cols !! c = Some s -> notna (nth i s NaN) = true.
Proof.
  unfold row_complete. intros Hall Hc.
  rewrite forallb_forall in Hall.
  apply (Hall (c, s)). apply list_elem_of_In, elem_of_map_to_list, Hc.
Qed.

Lemma row_incomplete (cols : gmap string Series) (i : nat) (c : string) (s : Series) :
  cols !! c = Some s -> nth i s NaN = NaN -> row_complete cols i = false.
Proof.
  intros Hc Hn. destruct (row_complete cols i) eqn:E; [|reflexivity].
  pose proof (row_complete_lookup _ _ _ _ E Hc) as Hv.
  rewrite Hn in Hv. discriminate.
Qed.

Lemma lookup_nth (s : Series) (i : nat) (x : fnum) : s !! i = Some x -> nth i s NaN = x.
Proof.
  revert i. induction s as [|y s IH]; intros [|i]; cbn; try discriminate.
  - congruence.
  - apply IH.
Qed.

Lemma dropna_lookup (df : DataFrame) (c : string) :
  columns (dropna df) !! c = select (row_complete (columns df)) <$> columns df !! c.
Proof. unfold dropna. cbn. apply lookup_fmap. Qed.

(** No column of [df.dropna()] holds a NaN. *)
Lemma dropna_notna (df : DataFrame) (c : string) (s : Series) :
  columns (dropna df) !! c = Some s -> Forall (fun x => notna x = true) s.
Proof.
  rewrite dropna_lookup. destruct (columns df !! c) as [s0|] eqn:Hc; [|discriminate].
  intros [= <-]. apply Forall_forall. intros x Hx.
  apply select_lookup in Hx as (i & Hk & Hi).
  rewrite <- (lookup_nth _ _ _ Hi). eapply row_complete_lookup; eauto.
Qed.

(** *** Rolling windows *)

Lemma rolling_length (w : nat) (agg : nat -> Series -> fnum) (s : Series) :
  length (rolling w agg s) = length s.
Proof. unfold rolling. rewrite length_map, length_seq. reflexivity. Qed.

Lemma rolling_lookup (w : nat) (agg : nat -> Series -> fnum) (s : Series) (i : nat) :
  (i < length s)%nat ->
  rolling w agg s !! i
  = Some (if (i + 1 <? w)%nat then NaN else agg w (window w i s)).
Proof.
  intros Hi. unfold rolling. rewrite map_fmap, list_lookup_fmap.
  rewrite lookup_seq_lt by exact Hi. reflexivity.
Qed.

Lemma rolling_lookup_Some (w : nat) (agg : nat -> Series -> fnum) (s : Series)
    (i : nat) (x : fnum) :
  rolling w agg s !! i = Some x ->
  x = if (i + 1 <? w)%nat then NaN else agg w (window w i s).
Proof.
  intros Hx. assert (Hi : (i < length s)%nat).
  { rewrite <- (rolling_length w agg s). eapply lookup_lt_Some, Hx. }
  rewrite rolling_lookup in Hx by exact Hi. congruence.
Qed.

Lemma window_Forall (P : fnum -> Prop) (w i : nat) (s : Series) :
  Forall P s -> Forall P (window w i s).
Proof. intros Hs. unfold window. apply Forall_take, Forall_drop, Hs. Qed.

Lemma fsum_nonneg (xs : Series) : Forall nonneg xs -> nonneg (fsum xs).
Proof.
  unfold fsum. assert (H0 : nonneg (Fin 0)) by (cbn; lra).
  revert H0. generalize (Fin 0). induction xs as [|x xs IH]; intros acc Ha Hxs.
  - exact Ha.
  - inversion Hxs; subst. cbn. apply IH; [|assumption].
    apply nonneg_fadd; assumption.
Qed.

(** The mean of a window of non-negative values is non-negative, or NaN
    when the window is short of observations. *)
Lemma roll_mean_nonneg (minp : nat) (win : Series) :
  (0 < minp)%nat -> Forall nonneg win ->
  roll_mean minp win = NaN \/ nonneg (roll_mean minp win).
Proof.
  intros Hm Hw. unfold roll_mean.
  destruct (minp <=? length (List.filter notna win))%nat eqn:E; [|left; reflexivity].
  apply Nat.leb_le in E. right. apply nonneg_fdiv_pos.
  - unfold Qlt. cbn. lia.
  - apply fsum_nonneg. apply Forall_forall. intros x Hx.
    apply list_elem_of_In, filter_In in Hx as [Hx _].
    rewrite Forall_forall in Hw. apply Hw, list_elem_of_In, Hx.
Qed.

End PandasFacts.

(** ** Indicator engine *)

Module QuantFacts.
Import Float Py Pandas Quant FloatFacts PandasFacts Reference.

(** *** The RSI formula *)

Lemma rsi_formula_range (g l : fnum) :
  nonneg g -> nonneg l ->
  rsi_formula g l = NaN \/ in_0_100 (rsi_formula g l).
Proof.
  intros Hg Hl. unfold rsi_formula.
  destruct (fdiv_nonneg g l Hg Hl) as [-> | Hr]; [left; reflexivity|].
  destruct (fdiv g l) as [q| | |]; cbn in Hr; try tauto.
  - right. cbn. destruct (Qeq_bool (1 + q) 0) eqn:E.
    + apply Qeq_bool_iff in E. lra.
    + cbn. assert (H1 : 0 < 1 + q) by lra.
      assert (H2 : 100 / (1 + q) <= 100).
      { apply Qle_shift_div_r; [exact H1|]. nra. }
      assert (H3 : 0 <= 100 / (1 + q)).
      { apply Qle_shift_div_l; [exact H1|]. lra. }
      lra.
  - right. cbn. lra.
Qed.

(** With a zero average loss the formula gives 100 for a positive average
    gain, and NaN for a zero one. *)
Lemma rsi_formula_zero_loss (g l : fnum) (b : Q) :
  nonneg g -> l = Fin b -> b == 0 ->
  (fgt g (Fin 0) = true -> feq (rsi_formula g l) (Fin 100)) /\
  (fgt g (Fin 0) = false -> rsi_formula g l = NaN).
Proof.
  intros Hg Hl Hb.
  destruct (fdiv_zero_loss g l b Hg Hl Hb) as [Hpos Hzero].
  unfold rsi_formula. split; intros Hs.
  - rewrite (Hpos Hs). cbn. lra.
  - rewrite (Hzero Hs). reflexivity.
Qed.

(** *** Average gain and average loss *)

Lemma Forall_map_all {A B : Type} (P : B -> Prop) (f : A -> B) (l : list A) :
  (forall x, P (f x)) -> Forall P (map f l).
Proof. intros Hf. induction l; cbn; constructor; auto. Qed.

Lemma gain_nonneg (d : fnum) : nonneg (if fgt d (Fin 0) then d else Fin 0).
Proof.
  destruct (fgt d (Fin 0)) eqn:E; [|cbn; lra].
  destruct d as [a| | |]; cbn in *; try discriminate; auto.
  apply negb_true_iff, Qle_bool_false in E. lra.
Qed.

Lemma loss_nonneg (d : fnum) : nonneg (fneg (if flt d (Fin 0) then d else Fin 0)).
Proof.
  destruct (flt d (Fin 0)) eqn:E; [|cbn; lra].
  destruct d as [a| | |]; cbn in *; try discriminate; auto.
  apply negb_true_iff, Qle_bool_false in E. lra.
Qed.

Lemma avg_gain_nonneg (close : Series) (i : nat) (g : fnum) :
  avg_gain close !! i = Some g -> g = NaN \/ nonneg g.
Proof.
  unfold avg_gain. intros Hg. apply rolling_lookup_Some in Hg as ->.
  destruct (i + 1 <? 14)%nat; [left; reflexivity|].
  apply roll_mean_nonneg; [lia|]. apply window_Forall.
  unfold where_. apply Forall_map_all, gain_nonneg.
Qed.

Lemma avg_loss_nonneg (close : Series) (i : nat) (l : fnum) :
  avg_loss close !! i = Some l -> l = NaN \/ nonneg l.
Proof.
  unfold avg_loss. intros Hl. apply rolling_lookup_Some in Hl as ->.
  destruct (i + 1 <? 14)%nat; [left; reflexivity|].
  apply roll_mean_nonneg; [lia|]. apply window_Forall.
  unfold where_. rewrite map_map. apply Forall_map_all, loss_nonneg.
Qed.

Lemma rsi_formula_nan_l (l : fnum) : rsi_formula NaN l = NaN.
Proof. reflexivity. Qed.

Lemma rsi_formula_nan_r (g : fnum) : rsi_formula g NaN = NaN.
Proof. destruct g; reflexivity. Qed.

Lemma rsi_series_lookup (close : Series) (i : nat) (r : fnum) :
  rsi_series close !! i = Some r ->
  exists g l, avg_gain close !! i = Some g /\ avg_loss close !! i = Some l /\
              r = rsi_formula g l.
Proof.
  unfold rsi_series. intros Hr.
  apply lookup_zip_with_Some in Hr as (g & l & -> & Hg & Hl). eauto.
Qed.

(** Every entry of the RSI column is NaN or lies between 0 and 100. *)
Lemma rsi_series_range (close : Series) (i : nat) (r : fnum) :
  rsi_series close !! i = Some r -> r = NaN \/ in_0_100 r.
Proof.
  intros Hr. apply rsi_series_lookup in Hr as (g & l & Hg & Hl & ->).
  destruct (avg_gain_nonneg _ _ _ Hg) as [-> | Hgn]; [left; reflexivity|].
  destruct (avg_loss_nonneg _ _ _ Hl) as [-> | Hln];
    [left; apply rsi_formula_nan_r|].
  apply rsi_formula_range; assumption.
Qed.

(** *** The assignments of [add_indicators] *)

Section Indicators.
Context `{FloatLib}.

(** With the three price columns present the body runs to its end: the
    caller's frame holds the six new columns and the result is its
    [dropna]. *)
Lemma add_indicators_body_ok (df : DataFrame) (close high low : Series) :
  columns df !! "Close" = Some close ->
  columns df !! "High" = Some high ->
  columns df !! "Low" = Some low ->
  add_indicators_body df
  = (with_indicators df close high low,
     Ok (dropna (with_indicators df close high low))).
Proof.
  intros Hc Hh Hl.
  unfold add_indicators_body, with_indicators, mbind, onframe_bind, col, assign,
    dropna_copy, getitem, setitem.
  cbn [columns index].
  repeat (rewrite ?lookup_insert_eq;
          rewrite ?lookup_insert_ne by discriminate;
          rewrite ?Hc, ?Hh, ?Hl; cbn [columns index]).
  reflexivity.
Qed.

Ltac run_body :=
  unfold add_indicators_body, with_indicators, mbind, onframe_bind, col, assign,
    dropna_copy, getitem, setitem;
  cbn [columns index fst snd];
  repeat (first [ rewrite lookup_insert_eq
                | rewrite lookup_insert_ne by discriminate
                | match goal with
                  | E : columns _ !! _ = _ |- _ => rewrite E
                  end ];
          cbn [columns index fst snd]).

(** The body ends normally only when the three price columns exist. *)
Lemma add_indicators_body_Ok (df out : DataFrame) :
  snd (add_indicators_body df) = Ok out ->
  exists close high low,
    columns df !! "Close" = Some close /\
    columns df !! "High" = Some high /\
    columns df !! "Low" = Some low /\
    out = dropna (with_indicators df close high low).
Proof.
  destruct (columns df !! "Close") as [close|] eqn:Hc.
  2: { run_body. intros ?; discriminate. }
  destruct (columns df !! "High") as [high|] eqn:Hh.
  2: { run_body. intros ?; discriminate. }
  destruct (columns df !! "Low") as [low|] eqn:Hl.
  2: { run_body. intros ?; discriminate. }
  rewrite (add_indicators_body_ok df close high low Hc Hh Hl).
  intros [= <-]. exists close, high, low. auto.
Qed.

(** *** Frame effect *)

Lemma touches_only_ret {A : Type} (cs : list string) (a : A) :
  touches_only cs (mret a : OnFrame A).
Proof. intros df. split; reflexivity. Qed.

Lemma touches_only_col (cs : list string) (c : string) : touches_only cs (col c).
Proof. intros df. split; reflexivity. Qed.

Lemma touches_only_dropna (cs : list string) : touches_only cs dropna_copy.
Proof. intros df. split; reflexivity. Qed.

Lemma touches_only_assign (cs : list string) (c : string) (s : Series) :
  c ∈ cs -> touches_only cs (assign c s).
Proof.
  intros Hc df. split; [reflexivity|]. intros c' Hc'. cbn.
  apply lookup_insert_ne. intros ->. contradiction.
Qed.

Lemma touches_only_bind {A B : Type} (cs : list string) (m : OnFrame A)
    (k : A -> OnFrame B) :
  touches_only cs m -> (forall a, touches_only cs (k a)) ->
  touches_only cs (m ≫= k).
Proof.
  intros Hm Hk df. unfold mbind, onframe_bind.
  destruct (Hm df) as [Hi Hc]. destruct (m df) as [df1 [a|e]]; cbn in *.
  - destruct (Hk a df1) as [Hi' Hc']. split; [congruence|].
    intros c Hn. rewrite Hc', Hc; auto.
  - auto.
Qed.

Lemma add_indicators_body_touches : touches_only indicators add_indicators_body.
Proof.
  unfold add_indicators_body.
  repeat first
    [ apply touches_only_dropna
    | apply touches_only_col
    | apply touches_only_assign; unfold indicators; set_solver
    | apply touches_only_bind; [|intros ?] ].
Qed.

(** *** The result of [add_indicators] *)

Lemma add_indicators_short (df : DataFrame) :
  is_empty df || (len df <? 20)%nat = true ->
  add_indicators df = (df, Ok empty_frame).
Proof. intros Hg. unfold add_indicators. rewrite Hg. reflexivity. Qed.

Lemma add_indicators_Ok (df out : DataFrame) :
  snd (add_indicators df) = Ok out ->
  (is_empty df || (len df <? 20)%nat = true /\ out = empty_frame) \/
  (is_empty df || (len df <? 20)%nat = false /\
   exists close high low,
     columns df !! "Close" = Some close /\
     columns df !! "High" = Some high /\
     columns df !! "Low" = Some low /\
     fst (add_indicators df) = with_indicators df close high low /\
     out = dropna (with_indicators df close high low)).
Proof.
  unfold add_indicators.
  destruct (is_empty df || (len df <? 20)%nat) eqn:Hg.
  - intros [= <-]. left. auto.
  - intros Hok. right. split; [reflexivity|].
    destruct (add_indicators_body_Ok _ _ Hok) as (close & high & low & Hc & Hh & Hl & ->).
    exists close, high, low. repeat split; auto.
    rewrite (add_indicators_body_ok df close high low Hc Hh Hl). reflexivity.
Qed.

(** A frame of 20 bars or more with the three price columns. *)
Lemma add_indicators_long (df : DataFrame) (close high low : Series) :
  is_empty df || (len df <? 20)%nat = false ->
  columns df !! "Close" = Some close ->
  columns df !! "High" = Some high ->
  columns df !! "Low" = Some low ->
  add_indicators df
  = (with_indicators df close high low,
     Ok (dropna (with_indicators df close high low))).
Proof.
  intros Hg Hc Hh Hl. unfold add_indicators. rewrite Hg.
  apply add_indicators_body_ok; assumption.
Qed.

Lemma with_indicators_RSI (df : DataFrame) (close high low : Series) :
  columns (with_indicators df close high low) !! "RSI" = Some (rsi_series close).
Proof.
  unfold with_indicators, setitem. cbn [columns].
  rewrite !lookup_insert_ne by discriminate. apply lookup_insert_eq.
Qed.

Lemma with_indicators_SMA20 (df : DataFrame) (close high low : Series) :
  columns (with_indicators df close high low) !! "SMA20"
  = Some (rolling 20 roll_mean close).
Proof.
  unfold with_indicators, setitem. cbn [columns].
  rewrite !lookup_insert_ne by discriminate. apply lookup_insert_eq.
Qed.

Lemma with_indicators_has (df : DataFrame) (close high low : Series) (c : string) :
  c ∈ indicators -> is_Some (columns (with_indicators df close high low) !! c).
Proof.
  unfold indicators. intros Hc.
  unfold with_indicators, setitem. cbn [columns].
  repeat (apply elem_of_cons in Hc as [-> | Hc];
          [rewrite ?lookup_insert_ne by discriminate;
           rewrite lookup_insert_eq; eauto|]).
  inversion Hc.
Qed.

(** The first [w - 1] positions of a rolling aggregate are NaN. *)
Lemma rolling_warmup (w : nat) (agg : nat -> Series -> fnum) (s : Series) (i : nat) :
  (i + 1 < w)%nat -> nth i (rolling w agg s) NaN = NaN.
Proof.
  intros Hi. destruct (Nat.lt_ge_cases i (length s)) as [Hlt | Hge].
  - apply lookup_nth. rewrite rolling_lookup by exact Hlt.
    apply Nat.ltb_lt in Hi. rewrite Hi. reflexivity.
  - apply nth_overflow. rewrite rolling_length. exact Hge.
Qed.

(** A row that [dropna] keeps lies past the warm-up of the 20-day window. *)
Lemma kept_row_past_warmup (df : DataFrame) (close high low : Series) (i : nat) :
  row_complete (columns (with_indicators df close high low)) i = true ->
  (19 <= i)%nat.
Proof.
  intros Hk. destruct (Nat.lt_ge_cases i 19) as [Hlt | Hge]; [|exact Hge].
  rewrite (row_incomplete _ i "SMA20" _ (with_indicators_SMA20 df close high low))
    in Hk; [discriminate|].
  apply rolling_warmup. lia.
Qed.

(** No column of a result holds a NaN. *)
Lemma add_indicators_notna (df out : DataFrame) (c : string) (s : Series) :
  snd (add_indicators df) = Ok out -> columns out !! c = Some s ->
  Forall (fun x => isnan x = false) s.
Proof.
  intros Hok Hs.
  destruct (add_indicators_Ok _ _ Hok)
    as [[Hg ->] | [Hg (close & high & low & Hc & Hh & Hl & _ & ->)]].
  - unfold empty_frame in Hs. cbn [columns] in Hs.
    rewrite lookup_empty in Hs. discriminate.
  - apply dropna_notna in Hs.
    eapply Forall_impl; [exact Hs|]. intros x Hx.
    unfold notna in Hx. apply negb_true_iff, Hx.
Qed.

(** C7.  A frame of fewer than 20 bars gives the empty frame and is left
    as it was.  A frame that carries the three price columns always gives
    a result.  In every result no column holds a NaN; for 20 bars or more
    the six indicator columns are among them, so each output row has every
    indicator defined; and each output row is a row of the input at
    position 19 or later, the warm-up rows being dropped. *)
Theorem short_history_empty_rows_defined (df : DataFrame) :
  ((len df < 20)%nat -> add_indicators df = (df, Ok empty_frame)) /\
  (forall close high low,
     columns df !! "Close" = Some close ->
     columns df !! "High" = Some high ->
     columns df !! "Low" = Some low ->
     exists out, snd (add_indicators df) = Ok out) /\
  (forall out, snd (add_indicators df) = Ok out ->
     (forall c s, columns out !! c = Some s -> Forall (fun x => isnan x = false) s) /\
     ((20 <= len df)%nat -> is_empty df = false ->
      forall c, c ∈ indicators -> is_Some (columns out !! c)) /\
     (forall d, d ∈ index out ->
      exists i, (19 <= i)%nat /\ index df !! i = Some d)).
Proof.
  split; [|split].
  - intros Hlen. apply add_indicators_short.
    apply orb_true_iff. right. apply Nat.ltb_lt, Hlen.
  - intros close high low Hc Hh Hl. unfold add_indicators.
    destruct (is_empty df || (len df <? 20)%nat); [eexists; reflexivity|].
    rewrite (add_indicators_body_ok df close high low Hc Hh Hl).
    eexists; reflexivity.
  - intros out Hok. split; [intros c s; apply (add_indicators_notna df out c s Hok)|].
    destruct (add_indicators_Ok _ _ Hok)
      as [[Hg ->] | [Hg (close & high & low & Hc & Hh & Hl & _ & ->)]].
    + split.
      * intros Hlen He. rewrite He in Hg. rewrite orb_false_l in Hg.
        apply Nat.ltb_lt in Hg. lia.
      * intros d Hd. inversion Hd.
    + split.
      * intros _ _ c Hin. rewrite dropna_lookup.
        destruct (with_indicators_has df close high low c Hin) as [s ->].
        eexists; reflexivity.
      * intros d Hd. cbn in Hd. apply select_lookup in Hd as (i & Hk & Hi).
        exists i. split; [|exact Hi].
        eapply kept_row_past_warmup, Hk.
Qed.

(** C4 (as amended).  Every RSI value of the output lies between 0 and
    100.  At a position whose average loss is exactly 0 the RSI is 100
    when the average gain is positive and NaN when it is not; a row that
    the output keeps has no NaN, so on output rows a zero average loss
    means an RSI of 100. *)
Theorem rsi_bounded_and_saturating (df out : DataFrame) :
  snd (add_indicators df) = Ok out ->
  (forall rsi, columns out !! "RSI" = Some rsi -> Forall in_0_100 rsi) /\
  (forall close i l g r,
     columns df !! "Close" = Some close ->
     avg_loss close !! i = Some l -> feq l (Fin 0) ->
     avg_gain close !! i = Some g ->
     rsi_series close !! i = Some r ->
     (fgt g (Fin 0) = true -> feq r (Fin 100)) /\
     (fgt g (Fin 0) = false -> r = NaN) /\
     (is_empty df || (len df <? 20)%nat = false ->
      row_complete (columns (fst (add_indicators df))) i = true ->
      feq r (Fin 100))).
Proof.
  intros Hok. split.
  - intros rsi Hrsi.
    destruct (add_indicators_Ok _ _ Hok)
      as [[Hg ->] | [Hg (close & high & low & Hc & Hh & Hl & _ & ->)]].
    + unfold empty_frame in Hrsi. cbn [columns] in Hrsi.
      rewrite lookup_empty in Hrsi. discriminate.
    + pose proof (dropna_notna _ _ _ Hrsi) as Hn.
      rewrite dropna_lookup, with_indicators_RSI in Hrsi.
      injection Hrsi as <-. apply Forall_forall. intros x Hx.
      rewrite Forall_forall in Hn. specialize (Hn x Hx).
      apply select_lookup in Hx as (i & _ & Hi).
      destruct (rsi_series_range _ _ _ Hi) as [-> | Hr]; [discriminate|exact Hr].
  - intros close i l g r Hc Hl Hz Hg Hr.
    destruct l as [b| | |]; cbn in Hz; try contradiction.
    apply rsi_series_lookup in Hr as (g' & l' & Hg' & Hl' & ->).
    rewrite Hg in Hg'. rewrite Hl in Hl'.
    injection Hg' as <-. injection Hl' as <-.
    assert (Hpos : fgt g (Fin 0) = true -> feq (rsi_formula g (Fin b)) (Fin 100)).
    { intros Hp. destruct (avg_gain_nonneg _ _ _ Hg) as [-> | Hn]; [discriminate|].
      apply (rsi_formula_zero_loss g (Fin b) b Hn eq_refl Hz), Hp. }
    assert (Hnan : fgt g (Fin 0) = false -> rsi_formula g (Fin b) = NaN).
    { intros Hp. destruct (avg_gain_nonneg _ _ _ Hg) as [-> | Hn]; [reflexivity|].
      apply (rsi_formula_zero_loss g (Fin b) b Hn eq_refl Hz), Hp. }
    split; [exact Hpos|]. split; [exact Hnan|].
    intros Hguard Hk.
    destruct (add_indicators_Ok _ _ Hok)
      as [[Hg0 _] | [_ (close' & high & low & Hc' & _ & _ & Hfst & _)]];
      [congruence|].
    rewrite Hc in Hc'. injection Hc' as <-. rewrite Hfst in Hk.
    pose proof (row_complete_lookup _ _ _ _ Hk (with_indicators_RSI df close high low))
      as Hv.
    assert (Hi : rsi_series close !! i = Some (rsi_formula g (Fin b))).
    { unfold rsi_series. apply lookup_zip_with_Some. eauto. }
    rewrite (lookup_nth _ _ _ Hi) in Hv.
    destruct (fgt g (Fin 0)) eqn:Hs; [auto|].
    rewrite (Hnan eq_refl) in Hv. discriminate.
Qed.

(** C5 (as amended).  A call leaves the index of the caller's frame and
    every column other than the six indicator columns as they were, and a
    frame that is empty or shorter than 20 bars is not changed at all.
    For a longer frame that carries the price columns, the caller's frame
    holds the six indicator columns after the call. *)
Theorem add_indicators_frame_effect (df : DataFrame) :
  index (fst (add_indicators df)) = index df /\
  (forall c, c ∉ indicators ->
     columns (fst (add_indicators df)) !! c = columns df !! c) /\
  (is_empty df || (len df <? 20)%nat = true -> fst (add_indicators df) = df) /\
  (forall out, is_empty df || (len df <? 20)%nat = false ->
     snd (add_indicators df) = Ok out ->
     forall c, c ∈ indicators -> is_Some (columns (fst (add_indicators df)) !! c)).
Proof.
  repeat split.
  - unfold add_indicators. destruct (is_empty df || (len df <? 20)%nat);
      [reflexivity|]. apply add_indicators_body_touches.
  - unfold add_indicators. destruct (is_empty df || (len df <? 20)%nat);
      [reflexivity|]. apply add_indicators_body_touches.
  - intros Hg. rewrite add_indicators_short by exact Hg. reflexivity.
  - intros out Hg Hok c Hc.
    destruct (add_indicators_Ok _ _ Hok)
      as [[Hg0 _] | [_ (close & high & low & _ & _ & _ & -> & _)]];
      [congruence|].
    apply with_indicators_has, Hc.
Qed.

End Indicators.

(** *** Runs on the reference platform *)

(** The call on a concrete frame of 20 bars or more, by the lemma above. *)
Ltac run_indicators :=
  eapply add_indicators_long; vm_compute; reflexivity.

Example add_indicators_zigzag :
  exists df' out, add_indicators (bars zigzag22) = (df', Ok out) /\
                  index out = [19; 20; 21]%Z /\
                  columns out !! "Close" = Some [fz 23; fz 24; fz 25].
Proof.
  eexists _, _. split; [run_indicators|].
  split; vm_compute; reflexivity.
Qed.

(** C4, counterexample.  On 25 bars of one constant close the average
    loss at position 19 is exactly 0 and so is the average gain: the RSI
    there is NaN, not 100, and the output has no row at all. *)
Lemma flat_prices_rsi_is_nan :
  exists l rsi df' out,
    add_indicators (bars flat25) = (df', Ok out) /\
    avg_loss (map fz flat25) !! 19%nat = Some l /\ feq l (Fin 0) /\
    columns df' !! "RSI" = Some rsi /\
    rsi !! 19%nat = Some NaN /\
    ~ feq NaN (Fin 100) /\
    index out = [].
Proof.
  eexists _, _, _, _.
  split; [run_indicators|].
  split; [vm_compute; reflexivity|].
  split; [vm_compute; reflexivity|].
  split; [vm_compute; reflexivity|].
  split; [vm_compute; reflexivity|].
  split; [intros []|].
  vm_compute; reflexivity.
Qed.

Lemma rsi_bounded_and_saturating_witness :
  exists df' out rsi l g r,
    add_indicators (bars rising25) = (df', Ok out) /\
    columns out !! "RSI" = Some rsi /\
    length rsi = 6%nat /\
    Forall in_0_100 rsi /\
    avg_loss (map fz rising25) !! 19%nat = Some l /\ feq l (Fin 0) /\
    avg_gain (map fz rising25) !! 19%nat = Some g /\ fgt g (Fin 0) = true /\
    rsi_series (map fz rising25) !! 19%nat = Some r /\
    feq r (Fin 100).
Proof.
  assert (Hrun : exists df' out rsi,
             add_indicators (bars rising25) = (df', Ok out) /\
             columns out !! "RSI" = Some rsi /\ length rsi = 6%nat).
  { eexists _, _, _. split; [run_indicators|].
    split; vm_compute; reflexivity. }
  assert (Hrow : exists l g r,
             avg_loss (map fz rising25) !! 19%nat = Some l /\ feq l (Fin 0) /\
             avg_gain (map fz rising25) !! 19%nat = Some g /\
             fgt g (Fin 0) = true /\
             rsi_series (map fz rising25) !! 19%nat = Some r).
  { eexists _, _, _. repeat split; vm_compute; reflexivity. }
  assert (Hclose : columns (bars rising25) !! "Close" = Some (map fz rising25))
    by (vm_compute; reflexivity).
  destruct Hrun as (df' & out & rsi & Hrun & Hrsi & Hlen).
  destruct Hrow as (l & g & r & Hl & Hz & Hg & Hpos & Hr).
  assert (Hok : snd (add_indicators (bars rising25)) = Ok out)
    by (rewrite Hrun; reflexivity).
  exists df', out, rsi, l, g, r. repeat split; auto.
  - exact (proj1 (rsi_bounded_and_saturating (bars rising25) out Hok) rsi Hrsi).
  - exact (proj1 (proj2 (rsi_bounded_and_saturating (bars rising25) out Hok)
                    (map fz rising25) 19%nat l g r Hclose Hl Hz Hg Hr) Hpos).
Defined.

(** C5, counterexample.  The frame of 22 bars has no column [RSI] before
    the call and has one after it: the caller's frame is changed. *)
Lemma add_indicators_changes_input :
  columns (bars zigzag22) !! "RSI" = None /\
  is_Some (columns (fst (add_indicators (bars zigzag22))) !! "RSI") /\
  fst (add_indicators (bars zigzag22)) <> bars zigzag22.
Proof.
  assert (Hbefore : columns (bars zigzag22) !! "RSI" = None)
    by (vm_compute; reflexivity).
  assert (Hafter : is_Some (columns (fst (add_indicators (bars zigzag22))) !! "RSI")).
  { erewrite add_indicators_long by (vm_compute; reflexivity).
    cbn [fst]. rewrite with_indicators_RSI. eexists; reflexivity. }
  split; [exact Hbefore|]. split; [exact Hafter|].
  intros Heq. apply (f_equal (fun d => columns d !! "RSI")) in Heq.
  destruct Hafter as [x Hx]. rewrite Hx, Hbefore in Heq. discriminate.
Qed.

Lemma add_indicators_frame_effect_witness :
  ("Close" ∉ indicators) /\
  columns (fst (add_indicators (bars zigzag22))) !! "Close"
  = columns (bars zigzag22) !! "Close".
Proof.
  assert (Hnot : "Close" ∉ indicators).
  { unfold indicators. intros Hin.
    repeat (apply elem_of_cons in Hin as [Hin | Hin]; [discriminate|]).
    inversion Hin. }
  split; [exact Hnot|].
  exact (proj1 (proj2 (add_indicators_frame_effect (bars zigzag22))) "Close" Hnot).
Defined.

Lemma short_history_empty_rows_defined_witness :
  (len (bars [1; 2; 3]%Z) < 20)%nat /\
  add_indicators (bars [1; 2; 3]%Z) = (bars [1; 2; 3]%Z, Ok empty_frame).
Proof.
  assert (Hlen : (len (bars [1; 2; 3]%Z) < 20)%nat) by (vm_compute; lia).
  split; [exact Hlen|].
  exact (proj1 (short_history_empty_rows_defined (bars [1; 2; 3]%Z)) Hlen).
Defined.

End QuantFacts.

(** ** Regime filter and screening engine *)

Module ScreeningFacts.
Import Float Py Pandas Quant FloatFacts PandasFacts QuantFacts Reference.

(** *** Regime filter *)

Lemma last_rolling (w : nat) (agg : nat -> Series -> fnum) (s : Series) (x : fnum) :
  last s = Some x ->
  last (rolling w agg s)
  = Some (if (length s <? w)%nat then NaN
          else agg w (window w (length s - 1) s)).
Proof.
  intros Hx. assert (Hlen : (0 < length s)%nat).
  { destruct s; [discriminate|cbn; lia]. }
  rewrite last_lookup, rolling_length.
  replace (Nat.pred (length s)) with (length s - 1)%nat by lia.
  rewrite rolling_lookup by lia.
  replace (length s - 1 + 1)%nat with (length s) by lia. reflexivity.
Qed.

Lemma is_bullish_rows (df : DataFrame) (close : Series) (latest : fnum) :
  columns df !! "Close" = Some close -> last close = Some latest ->
  is_bullish df
  = Ok (fgt latest (if (length close <? 50)%nat then NaN
                    else roll_mean 50 (window 50 (length close - 1) close))).
Proof.
  intros Hc Hl. unfold is_bullish, getitem, iloc_last. rewrite Hc. cbn.
  rewrite Hl. cbn. rewrite (last_rolling _ _ _ _ Hl). reflexivity.
Qed.

(** Between 1 and 49 bars the average is NaN and the comparison is false. *)
Lemma is_bullish_short (df : DataFrame) (close : Series) :
  columns df !! "Close" = Some close ->
  (1 <= length close < 50)%nat -> is_bullish df = Ok false.
Proof.
  intros Hc [H1 H50].
  destruct (last close) as [latest|] eqn:Hl.
  - rewrite (is_bullish_rows df close latest Hc Hl).
    apply Nat.ltb_lt in H50. rewrite H50.
    destruct latest; reflexivity.
  - apply last_None in Hl. subst close. cbn in H1. lia.
Qed.

(** From 50 bars on the tag is the comparison of the latest close with
    the mean of the last 50 closes. *)
Lemma is_bullish_long (df : DataFrame) (close : Series) (latest : fnum) :
  columns df !! "Close" = Some close -> last close = Some latest ->
  (50 <= length close)%nat ->
  is_bullish df
  = Ok (fgt latest (roll_mean 50 (window 50 (length close - 1) close))).
Proof.
  intros Hc Hl H50. rewrite (is_bullish_rows df close latest Hc Hl).
  apply Nat.ltb_ge in H50. rewrite H50. reflexivity.
Qed.

(** Without a row the expression raises. *)
Lemma is_bullish_no_rows (df : DataFrame) :
  columns df !! "Close" = Some [] -> is_bullish df = Raise IndexError.
Proof. intros Hc. unfold is_bullish, getitem. rewrite Hc. reflexivity. Qed.

Section Run.
Context `{FloatLib}.
Variable download : string -> string -> DataFrame.

(** The sector loop guards the empty frame: the sector gets no entry and
    its constituents read the default [False]. *)
Lemma prefetch_sector_empty (m : gmap string bool) (t : string) :
  is_empty (download t "100d") = true ->
  prefetch_sector download m (Some t) = Ok m.
Proof.
  intros He. unfold prefetch_sector. destruct (String.eqb t "nan"); [reflexivity|].
  rewrite He. reflexivity.
Qed.

Lemma sector_get_missing (m : gmap string bool) (t : string) :
  m !! t = None -> sector_get m (Some t) = false.
Proof. intros Hm. unfold sector_get. cbn. rewrite Hm. reflexivity. Qed.

(** The market check has no such guard: the run ends with the exception
    of the regime expression. *)
Lemma run_raises_with_market (symbols_data : list (string * option string)) (e : exn) :
  is_bullish (download "^NSEI" "100d") = Raise e ->
  run_pro_simulation download symbols_data = Raise e.
Proof. intros Hb. unfold run_pro_simulation. rewrite Hb. reflexivity. Qed.

End Run.

(** C6, the code at a failing input.  When the data source has no rows
    for the market index, the run raises IndexError at the regime
    expression of line 47 instead of treating the market as bearish; the
    same empty answer for a sector is skipped by the guard of line 55. *)
Theorem market_filter_raises_on_empty_index `{FloatLib}
    (symbols_data : list (string * option string)) :
  len no_bars = 0%nat /\
  run_pro_simulation (fun _ _ => no_bars) symbols_data = Raise IndexError /\
  prefetch_sector (fun _ _ => no_bars) ∅ (Some "^CNXIT") = Ok ∅.
Proof.
  split; [reflexivity|]. split.
  - apply run_raises_with_market. apply is_bullish_no_rows.
    vm_compute. reflexivity.
  - apply prefetch_sector_empty. vm_compute. reflexivity.
Qed.

(** *** Ranking *)

Lemma fle_total (x y : fnum) :
  isnan x = false -> isnan y = false -> fle x y = true \/ fle y x = true.
Proof.
  destruct x as [a| | |], y as [b| | |]; cbn; try discriminate; auto.
  intros _ _. destruct (Qlt_le_dec b a) as [Hlt | Hle].
  - right. apply Qle_bool_iff. lra.
  - left. apply Qle_bool_iff. exact Hle.
Qed.

Lemma fle_trans (x y z : fnum) :
  fle x y = true -> fle y z = true -> fle x z = true.
Proof.
  destruct x as [a| | |], y as [b| | |], z as [c| | |]; cbn;
    try discriminate; auto.
  rewrite !Qle_bool_iff. intros; lra.
Qed.

Lemma fle_notna_l (x y : fnum) : fle x y = true -> isnan x = false.
Proof. destruct x, y; cbn; try discriminate; auto. Qed.

#[export] Instance rsi_le_total : Total rsi_le.
Proof.
  intros a b. unfold rsi_le.
  destruct (isnan (RSI b)) eqn:Hb; [left; rewrite orb_true_r; exact I|].
  destruct (isnan (RSI a)) eqn:Ha; [right; rewrite orb_true_r; exact I|].
  destruct (fle_total _ _ Ha Hb) as [E | E]; [left | right]; rewrite E; exact I.
Qed.

#[export] Instance rsi_le_trans : Transitive rsi_le.
Proof.
  intros a b c. unfold rsi_le. intros Hab Hbc.
  apply Is_true_true in Hab, Hbc. apply Is_true_true.
  destruct (isnan (RSI c)) eqn:Hc; [apply orb_true_r|].
  rewrite orb_false_r in Hbc |- *.
  rewrite (fle_notna_l _ _ Hbc), orb_false_r in Hab.
  eapply fle_trans; eassumption.
Qed.

Lemma StronglySorted_take {A : Type} (R : relation A) (n : nat) (l : list A) :
  StronglySorted R l -> StronglySorted R (take n l).
Proof.
  intros Hs. revert n. induction Hs as [|x l Hs IH Hx]; intros [|n]; cbn;
    try constructor; auto.
  apply Forall_take, Hx.
Qed.

Lemma StronglySorted_among {A : Type} (R R' : relation A) (P : A -> Prop) (l : list A) :
  (forall a b, P a -> P b -> R a b -> R' a b) ->
  Forall P l -> StronglySorted R l -> StronglySorted R' l.
Proof.
  intros Himp Hp Hs. induction Hs as [|x l Hs IH Hx]; constructor.
  - apply IH. inversion Hp; assumption.
  - inversion Hp as [|? ? Px Pl]; subst.
    rewrite Forall_forall in Hx, Pl |- *. intros y Hy. auto.
Qed.

Lemma shortlist_Ok (rows out : list ScanRow) :
  shortlist rows = Ok out <->
  rows <> [] /\ out = take 10 (merge_sort rsi_le rows).
Proof.
  unfold shortlist, sort_values_by_RSI. destruct rows as [|r rows]; cbn.
  - split; [discriminate|]. intros [Hne _]. contradiction.
  - split.
    + intros [= <-]. split; [discriminate|reflexivity].
    + intros [_ ->]. reflexivity.
Qed.

Lemma top10_sorted (rows : list ScanRow) :
  StronglySorted rsi_le (take 10 (merge_sort rsi_le rows)).
Proof. apply StronglySorted_take, StronglySorted_merge_sort; apply _. Qed.

Lemma top10_numeric (rows : list ScanRow) :
  Forall (fun r => isnan (RSI r) = false) rows ->
  StronglySorted (fun a b => fle (RSI a) (RSI b) = true)
                 (take 10 (merge_sort rsi_le rows)).
Proof.
  intros Hn.
  apply (StronglySorted_among rsi_le _ (fun r => isnan (RSI r) = false));
    [| |apply top10_sorted].
  - intros a b _ Hb Hab. unfold rsi_le in Hab. rewrite Hb, orb_false_r in Hab.
    apply Is_true_true, Hab.
  - apply Forall_take. rewrite merge_sort_Permutation. exact Hn.
Qed.

(** C8.  For every collection of scan rows, whenever line 90 yields a
    shortlist it is sorted ascending by RSI (each row at or below every
    later row, a NaN last), has at most 10 rows and is the head of a
    rearrangement of the collection; when no RSI is NaN the order is the
    numeric one.  Line 90 yields a shortlist for every collection that is
    not empty. *)
Theorem shortlist_sorted_top10 (rows : list ScanRow) :
  (rows <> [] -> exists out, shortlist rows = Ok out) /\
  (forall out, shortlist rows = Ok out ->
     StronglySorted rsi_le out /\
     (length out <= 10)%nat /\
     (exists l, l ≡ₚ rows /\ out = take 10 l) /\
     (Forall (fun r => isnan (RSI r) = false) rows ->
      StronglySorted (fun a b => fle (RSI a) (RSI b) = true) out)).
Proof.
  split.
  - intros Hne. eexists. apply shortlist_Ok. eauto.
  - intros out Hout. apply shortlist_Ok in Hout as [_ ->].
    split; [|split; [|split]].
    + apply top10_sorted.
    + rewrite length_take. lia.
    + exists (merge_sort rsi_le rows). split; [|reflexivity].
      apply merge_sort_Permutation.
    + apply top10_numeric.
Qed.

(** *** The run *)

Section RunResult.
Context `{FloatLib}.
Variable download : string -> string -> DataFrame.

(** A scanned symbol has an RSI that is not NaN: it is read from the last
    row of a frame without NaN. *)
Lemma scan_symbol_rsi (m : gmap string bool) (ref_ret : fnum)
    (entry : string * option string) (r : ScanRow) :
  scan_symbol download m ref_ret entry = Some r -> isnan (RSI r) = false.
Proof.
  unfold scan_symbol, scan_try, try_except.
  destruct (snd (add_indicators (download (get_clean_symbol (fst entry)) "60d")))
    as [df|e] eqn:Hok; cbn -[is_empty ret_3d]; [|discriminate].
  destruct (is_empty df); [discriminate|].
  unfold getitem, iloc_last.
  destruct (columns df !! "Close") as [close|]; cbn -[ret_3d]; [|discriminate].
  destruct (last close) as [lc|]; cbn -[ret_3d]; [|discriminate].
  destruct (columns df !! "Lower") as [lower|]; cbn -[ret_3d]; [|discriminate].
  destruct (last lower) as [ll|]; cbn -[ret_3d]; [|discriminate].
  destruct (ret_3d df) as [r3|]; cbn; [|discriminate].
  destruct (columns df !! "RSI") as [rsi|] eqn:Hrsi; cbn; [|discriminate].
  destruct (last rsi) as [lr|] eqn:Hlr; cbn; [|discriminate].
  intros [= <-]. cbn.
  pose proof (add_indicators_notna _ _ _ _ Hok Hrsi) as Hnan.
  rewrite Forall_forall in Hnan.
  apply Hnan. apply last_Some_elem_of, Hlr.
Qed.

(** A run that completes prints the shortlist of its scan rows: sorted
    by RSI in the numeric order, at most 10 lines. *)
Lemma run_pro_simulation_Ok (symbols_data : list (string * option string))
    (market_bullish : bool) (lines : list HeatLine) :
  run_pro_simulation download symbols_data = Ok (market_bullish, lines) ->
  StronglySorted (fun a b => fle (RSI a) (RSI b) = true) (map row lines) /\
  (length lines <= 10)%nat.
Proof.
  unfold run_pro_simulation.
  destruct (is_bullish _) as [mb|]; cbn -[ret_3d shortlist]; [|discriminate].
  destruct (ret_3d _) as [r3|]; cbn -[shortlist]; [|discriminate].
  destruct (prefetch_sectors _ _ _) as [m|]; cbn -[shortlist]; [|discriminate].
  set (rows := omap (scan_symbol download m r3) symbols_data).
  destruct (shortlist rows) as [out|] eqn:Hout; cbn; [|discriminate].
  intros [= <- <-].
  apply shortlist_Ok in Hout as [_ ->].
  assert (Hrows : forall l, map row (map heat_line l) = l).
  { intros l. rewrite map_map. cbn. apply map_id. }
  rewrite Hrows, length_map. split; [|rewrite length_take; lia].
  apply top10_numeric. apply Forall_forall. intros r Hr.
  apply list_elem_of_omap in Hr as (entry & _ & Hr).
  eapply scan_symbol_rsi, Hr.
Qed.

End RunResult.

(** *** Runs on the reference platform *)

Example shortlist_twelve :
  (fun out => map RSI out) <$> (match shortlist twelve_rows with
                                | Ok out => Some out
                                | Raise _ => None
                                end)
  = Some (map fz [5; 10; 15; 20; 25; 30; 35; 40; 45; 50]%Z).
Proof. vm_compute. reflexivity. Qed.

Example shortlist_none : shortlist [] = Raise KeyError.
Proof. reflexivity. Qed.

Lemma shortlist_sorted_top10_witness :
  twelve_rows <> [] /\
  exists out, shortlist twelve_rows = Ok out /\
              StronglySorted rsi_le out /\ (length out <= 10)%nat.
Proof.
  assert (Hne : twelve_rows <> []) by discriminate.
  split; [exact Hne|].
  destruct (proj1 (shortlist_sorted_top10 twelve_rows) Hne) as (out & Hout).
  destruct (proj2 (shortlist_sorted_top10 twelve_rows) out Hout) as (H1 & H2 & _).
  exists out. auto.
Defined.

End ScreeningFacts.

(** ** Exit target *)

Module F64Facts.
Import Floats.
Local Open Scope float_scope.
Local Set Warnings "-inexact-float".





End F64Facts.

(** ** Valuation engine: outcomes and bounds *)

Module WBMore.
Import Float Py Pandas WB Shapes FloatFacts PandasFacts Reference WBFacts.

Lemma last_is_Some_length {A : Type} (l : list A) :
  (1 <= length l)%nat -> is_Some (last l).
Proof.
  intros Hl. apply last_is_Some. destruct l; [cbn in Hl; lia|discriminate].
Qed.

Lemma last_close_Ok (hist : list Dated) :
  (exists p, last_close hist = Ok p) <-> hist <> [].
Proof.
  unfold last_close, iloc_last. destruct hist as [|h hist].
  - split; [intros [p Hp]; discriminate|contradiction].
  - split; [discriminate|]. intros _.
    destruct (last_is_Some_length (map snd (h :: hist))) as [p ->];
      [cbn; lia|]. eauto.
Qed.


Section Completion.
Context `{FloatLib}.

(** X1.  A run completes with a valuation exactly when the income
    statement is not empty, carries an EPS row, that row has at least two
    values that are not NaN, and the price history has a row. *)
Theorem analyze_stock_completes_iff (s : Stock) :
  (exists v, analyze_stock s = Valued v) <->
  frame_empty (income_stmt s) = false /\
  is_Some (find_eps_row (income_stmt s)) /\
  (2 <= length (eps_points s))%nat /\
  history s <> [].
Proof.
  unfold analyze_stock, eps_points.
  destruct (frame_empty (income_stmt s)).
  { split; [intros [v Hv]; discriminate|intros [Hf _]; discriminate]. }
  destruct (find_eps_row (income_stmt s)) as [eps_row|].
  2: { split; [intros [v Hv]; discriminate|].
       intros (_ & [x Hx] & _). discriminate. }
  destruct (length (clean_eps eps_row) <? 2)%nat eqn:Hn.
  { apply Nat.ltb_lt in Hn.
    split; [intros [v Hv]; discriminate|]. intros (_ & _ & Hlen & _). lia. }
  apply Nat.ltb_ge in Hn.
  unfold iloc_last at 1.
  destruct (last_is_Some_length (map snd (clean_eps eps_row))) as [base ->].
  { rewrite length_map. lia. }
  destruct (last_close (history s)) as [price|e] eqn:Hp.
  - split; [|eauto]. intros _. repeat split; eauto.
    apply last_close_Ok. eauto.
  - split; [intros [v Hv]; discriminate|]. intros (_ & _ & _ & Hh).
    apply last_close_Ok in Hh as [p Hp']. congruence.
Qed.


End Completion.

(** *** Cleaning of the EPS row *)

#[export] Instance date_le_total : Total date_le.
Proof. intros a b. unfold date_le. lia. Qed.

#[export] Instance date_le_trans : Transitive date_le.
Proof. intros a b c. unfold date_le. lia. Qed.

Lemma StronglySorted_filter {A : Type} (R : relation A) (f : A -> bool) (l : list A) :
  StronglySorted R l -> StronglySorted R (List.filter f l).
Proof.
  intros Hs. induction Hs as [|x l Hs IH Hx]; cbn; [constructor|].
  destruct (f x); [|exact IH]. constructor; [exact IH|].
  rewrite Forall_forall in Hx |- *. intros y Hy.
  apply Hx. apply list_elem_of_In. apply list_elem_of_In, filter_In in Hy as [Hy _].
  exact Hy.
Qed.

(** X3.  The cleaned EPS row is ordered by date, oldest first, holds no
    NaN, holds exactly the entries of the row that are not NaN, and is
    never longer than the row. *)
Theorem clean_eps_sorted_notna (eps_row : list Dated) :
  StronglySorted date_le (clean_eps eps_row) /\
  Forall (fun e => isnan (snd e) = false) (clean_eps eps_row) /\
  (forall e, e ∈ clean_eps eps_row <-> e ∈ eps_row /\ isnan (snd e) = false) /\
  (length (clean_eps eps_row) <= length eps_row)%nat.
Proof.
  unfold clean_eps. split; [|split; [|split]].
  - apply StronglySorted_filter, StronglySorted_merge_sort; apply _.
  - apply Forall_forall. intros e He.
    apply list_elem_of_In, filter_In in He as [_ He].
    unfold notna in He. apply negb_true_iff, He.
  - intros e. rewrite list_elem_of_In, filter_In, <- list_elem_of_In.
    rewrite merge_sort_Permutation. unfold notna. rewrite negb_true_iff.
    reflexivity.
  - etransitivity; [apply filter_length_le|].
    rewrite merge_sort_Permutation. reflexivity.
Qed.

(** *** Multiples *)

Lemma qnat_S (n : nat) : qnat (S n) == qnat n + 1.
Proof.
  unfold qnat. rewrite Nat2Z.inj_succ, <- Z.add_1_r, inject_Z_plus. reflexivity.
Qed.

Lemma qnat_nonneg (n : nat) : 0 <= qnat n.
Proof. unfold qnat, Qle. cbn. lia. Qed.

(** A retained multiple is a rational strictly between 0 and 150. *)
Lemma retained_multiple (r : fnum) :
  flt (Fin 0) r = true -> flt r (Fin 150) = true ->
  exists q, r = Fin q /\ 0 < q < 150.
Proof.
  destruct r as [q| | |]; cbn; try discriminate.
  intros H0 H1. apply negb_true_iff, Qle_bool_false in H0, H1. eauto.
Qed.

Lemma pe_ratios_retained (hist eps_data : list Dated) :
  Forall (fun r => exists q, r = Fin q /\ 0 < q < 150) (pe_ratios hist eps_data).
Proof.
  apply Forall_forall. intros r Hr. unfold pe_ratios in Hr.
  apply list_elem_of_omap in Hr as (e & _ & He).
  apply pe_at_Some in He as (_ & H0 & H1 & _).
  apply retained_multiple; assumption.
Qed.

Lemma foldl_fadd_bounds (rs : list fnum) (a : Q) :
  Forall (fun r => exists q, r = Fin q /\ 0 < q < 150) rs ->
  exists t, foldl fadd (Fin a) rs = Fin t /\
            a <= t /\ t <= a + 150 * qnat (length rs) /\
            (rs <> [] -> a < t /\ t < a + 150 * qnat (length rs)).
Proof.
  intros Hrs. revert a. induction Hrs as [|r rs (q & -> & Hq) Hrs IH]; intros a.
  - exists a. cbn [foldl length].
    assert (E : qnat 0 == 0) by reflexivity.
    split; [reflexivity|]. split; [lra|]. split; [rewrite E; lra|].
    intros Hne. contradiction.
  - destruct (IH (a + q)) as (t & Ht & Hlo & Hhi & _).
    exists t. cbn [foldl fadd length]. rewrite qnat_S.
    split; [exact Ht|]. repeat split; lra.
Qed.

(** The mean of retained multiples lies strictly between 0 and 150. *)
Lemma average_pe_bounds (rs : list fnum) (current : fnum) :
  Forall (fun r => exists q, r = Fin q /\ 0 < q < 150) rs -> rs <> [] ->
  exists a, average_pe rs current = Fin a /\ 0 < a < 150.
Proof.
  intros Hrs Hne. destruct rs as [|r rs']; [contradiction|].
  set (rs := r :: rs') in *. unfold average_pe. fold rs.
  destruct (foldl_fadd_bounds rs 0 Hrs) as (t & Ht & _ & _ & Hstrict).
  destruct (Hstrict Hne) as [Hlo Hhi].
  assert (Hn : 0 < qnat (length rs)).
  { unfold rs. cbn [length]. rewrite qnat_S. pose proof (qnat_nonneg (length rs')). lra. }
  exists (t / qnat (length rs)). unfold fsum. rewrite Ht. unfold of_nat. fold (qnat (length rs)).
  split.
  - cbn. destruct (Qeq_bool (qnat (length rs)) 0) eqn:E; [|reflexivity].
    apply Qeq_bool_iff in E. lra.
  - split.
    + apply Qlt_shift_div_l; lra.
    + apply Qlt_shift_div_r; lra.
Qed.

Lemma project_pe_finite (c a : Q) :
  exists p, project_pe (Fin c) (Fin a) = Fin p /\ 5 <= p /\
            (p == 5 \/ p <= c) /\ (p == 5 \/ p <= a).
Proof.
  unfold project_pe, py_min. cbn.
  destruct (Qle_bool c a) eqn:Eca; cbn.
  - apply Qle_bool_iff in Eca. destruct (Qle_bool 5 c) eqn:E5; cbn.
    + apply Qle_bool_iff in E5. exists c.
      split; [reflexivity|]. split; [lra|]. split; right; lra.
    + exists 5. split; [reflexivity|]. split; [lra|]. split; left; reflexivity.
  - apply Qle_bool_false in Eca. destruct (Qle_bool 5 a) eqn:E5; cbn.
    + apply Qle_bool_iff in E5. exists a.
      split; [reflexivity|]. split; [lra|]. split; right; lra.
    + exists 5. split; [reflexivity|]. split; [lra|]. split; left; reflexivity.
Qed.

Section Multiples.
Context `{FloatLib}.

(** X4.  In a completed run the projected multiple is never below 5.
    An average over retained historical multiples lies strictly between
    0 and 150.  For a finite current multiple the projected multiple is
    finite, at least 5, equal to 5 or at most the current multiple, and
    below 150 when a historical multiple was retained. *)
Theorem projected_pe_bounds (s : Stock) (v : Valuation) :
  analyze_stock s = Valued v ->
  flt (projected_pe v) (Fin 5) = false /\
  (n_pe_ratios v <> 0%nat -> exists a, avg_pe v = Fin a /\ 0 < a < 150) /\
  (forall c, current_pe v = Fin c ->
     exists p, projected_pe v = Fin p /\ 5 <= p /\ (p == 5 \/ p <= c) /\
               (n_pe_ratios v <> 0%nat -> p < 150)).
Proof.
  intros Hv. apply analyze_stock_Valued in Hv.
  destruct Hv as (_ & _ & _ & _ & _ & _ & Hn & Ha & Hp & _).
  set (rs := pe_ratios (history s) (eps_points s)) in *.
  assert (Havg : n_pe_ratios v <> 0%nat -> exists a, avg_pe v = Fin a /\ 0 < a < 150).
  { intros Hne. rewrite Ha. apply average_pe_bounds; [apply pe_ratios_retained|].
    intros E. rewrite E in Hn. contradiction. }
  split; [|split; [exact Havg|]].
  - rewrite Hp. unfold project_pe.
    destruct (flt (py_min (current_pe v) (avg_pe v)) (Fin 5)) eqn:E; [reflexivity|exact E].
  - intros c Hc. rewrite Hp, Hc.
    destruct (n_pe_ratios v) as [|k] eqn:E.
    + assert (Hac : avg_pe v = Fin c).
      { rewrite Ha. destruct rs; [cbn; exact Hc|discriminate]. }
      rewrite Hac. destruct (project_pe_finite c c) as (p & -> & H5 & Hpc & _).
      exists p. repeat split; auto. intros Hne. contradiction.
    + destruct Havg as (a & -> & Ha0 & Ha1); [discriminate|].
      destruct (project_pe_finite c a) as (p & -> & H5 & Hpc & Hpa).
      exists p. repeat split; auto. intros _. destruct Hpa; lra.
Qed.

End Multiples.

Lemma projected_pe_bounds_witness :
  exists v, analyze_stock linear_eps = Valued v /\
    flt (projected_pe v) (Fin 5) = false /\
    (n_pe_ratios v <> 0%nat -> exists a, avg_pe v = Fin a /\ 0 < a < 150) /\
    (forall c, current_pe v = Fin c ->
       exists p, projected_pe v = Fin p /\ 5 <= p /\ (p == 5 \/ p <= c) /\
                 (n_pe_ratios v <> 0%nat -> p < 150)).
Proof.
  eexists. split; [vm_compute; reflexivity|].
  apply (projected_pe_bounds linear_eps). vm_compute; reflexivity.
Defined.

(** *** Nearest trading day *)

Lemma nearest_from_spec (date : Z) (rest pre : list Z) (best : nat) (bd : Z) :
  pre !! best = Some bd ->
  Forall (fun d' => (Zdist bd date <= Zdist d' date)%Z) pre ->
  (forall j d', pre !! j = Some d' -> Zdist d' date = Zdist bd date -> (j <= best)%nat) ->
  let i := nearest_from date best bd (length pre) rest in
  exists d, (pre ++ rest) !! i = Some d /\
            Forall (fun d' => (Zdist d date <= Zdist d' date)%Z) (pre ++ rest) /\
            (forall j d', (pre ++ rest) !! j = Some d' ->
                          Zdist d' date = Zdist d date -> (j <= i)%nat).
Proof.
  revert pre best bd. induction rest as [|x rest IH]; intros pre best bd Hb Hmin Htie; cbn.
  - rewrite app_nil_r. eauto.
  - assert (Hlen : length (pre ++ [x]) = S (length pre)).
    { rewrite length_app. cbn. lia. }
    replace (pre ++ x :: rest) with ((pre ++ [x]) ++ rest)
      by (rewrite <- app_assoc; reflexivity).
    destruct (Zdist x date <=? Zdist bd date)%Z eqn:E.
    + apply Z.leb_le in E. rewrite <- Hlen. apply IH.
      * apply list_lookup_middle. reflexivity.
      * apply Forall_app. split.
        -- eapply Forall_impl; [exact Hmin|]. cbn. intros; lia.
        -- constructor; [lia|constructor].
      * intros j d' Hj _. apply lookup_lt_Some in Hj. rewrite Hlen in *. lia.
    + apply Z.leb_gt in E. rewrite <- Hlen. apply IH.
      * apply lookup_app_l_Some. exact Hb.
      * apply Forall_app. split; [exact Hmin|]. constructor; [lia|constructor].
      * intros j d' Hj Hd. apply lookup_app_Some in Hj as [Hj | [Hge Hj]].
        -- eapply Htie; eauto.
        -- destruct (j - length pre)%nat; cbn in Hj; [|discriminate].
           injection Hj as <-. lia.
Qed.

(** [get_indexer_nearest] finds a date at least as near as every other,
    and among equally near dates the last one. *)
Lemma get_indexer_nearest_spec (idx : list Z) (date : Z) (i : nat) :
  get_indexer_nearest idx date = Some i ->
  exists d, idx !! i = Some d /\
            Forall (fun d' => (Zdist d date <= Zdist d' date)%Z) idx /\
            (forall j d', idx !! j = Some d' ->
                          Zdist d' date = Zdist d date -> (j <= i)%nat).
Proof.
  destruct idx as [|d0 rest]; [discriminate|]. cbn. intros [= <-].
  apply (nearest_from_spec date rest [d0] 0%nat d0).
  - reflexivity.
  - constructor; [lia|constructor].
  - intros [|j] d' Hj _; [lia|discriminate].
Qed.

Lemma get_indexer_nearest_None (idx : list Z) (date : Z) :
  get_indexer_nearest idx date = None <-> idx = [].
Proof. destruct idx; cbn; split; intros; congruence. Qed.

(** X5.  A historical multiple is retained only for earnings that are
    not at or below zero, lies strictly between 0 and 150, and is the
    close of the trading day nearest to the report date divided by the
    earnings; of two days equally near, the later one is taken. *)
Theorem historical_multiple_nearest_day (hist : list Dated) (e : Dated) (pe : fnum) :
  pe_at hist e = Some pe ->
  fle (snd e) (Fin 0) = false /\
  (exists q, pe = Fin q /\ 0 < q < 150) /\
  exists i d price,
    hist !! i = Some (d, price) /\
    pe = fdiv price (snd e) /\
    Forall (fun h => (Zdist d (fst e) <= Zdist (fst h) (fst e))%Z) hist /\
    (forall j h, hist !! j = Some h ->
                 Zdist (fst h) (fst e) = Zdist d (fst e) -> (j <= i)%nat).
Proof.
  intros Hpe. pose proof (pe_at_Some _ _ _ Hpe) as (Hle & H0 & H1 & _).
  split; [exact Hle|].
  split; [apply retained_multiple; assumption|].
  revert Hpe. unfold pe_at. rewrite Hle.
  destruct (get_indexer_nearest (map fst hist) (fst e)) as [i|] eqn:Hi; [|discriminate].
  apply get_indexer_nearest_spec in Hi as (d & Hd & Hmin & Htie).
  rewrite map_fmap, list_lookup_fmap in Hd.
  destruct (hist !! i) as [[d0 price]|] eqn:Hh; [|discriminate].
  cbn in Hd. injection Hd as ->.
  rewrite map_fmap, list_lookup_fmap, Hh. cbn -[flt fdiv].
  destruct (flt (Fin 0) (fdiv price (snd e)) && flt (fdiv price (snd e)) (Fin 150));
    [|discriminate].
  intros [= <-]. exists i, d, price. split; [exact Hh|]. split; [reflexivity|].
  split.
  - rewrite map_fmap, Forall_fmap in Hmin. exact Hmin.
  - intros j h Hj. apply (Htie j (fst h)).
    rewrite map_fmap, list_lookup_fmap, Hj. reflexivity.
Qed.

Lemma historical_multiple_nearest_day_witness :
  pe_at two_closes (300%Z, fz 4) = Some (fdiv (fz 100) (fz 4)) /\
  exists i d price,
    two_closes !! i = Some (d, price) /\
    fdiv (fz 100) (fz 4) = fdiv price (fz 4) /\
    Forall (fun h => (Zdist d 300 <= Zdist (fst h) 300)%Z) two_closes.
Proof.
  assert (Hpe : pe_at two_closes (300%Z, fz 4) = Some (fdiv (fz 100) (fz 4)))
    by (vm_compute; reflexivity).
  split; [exact Hpe|].
  destruct (historical_multiple_nearest_day two_closes (300%Z, fz 4) _ Hpe)
    as (_ & _ & i & d & price & Hi & Hp & Hd & _).
  exists i, d, price. auto.
Defined.

(** *** Finite results *)

Lemma fpow_nat_finite (x : fnum) (k : nat) : finite x -> finite (fpow_nat x k).
Proof.
  destruct x as [q| | |]; cbn; try tauto. intros _.
  induction k as [|k IH]; cbn; [exact I|].
  destruct (fpow_nat (Fin q) k); cbn in *; tauto.
Qed.

Section Finiteness.
Context `{FloatLib}.

Lemma growth_rate_finite (n : nat) (m c : Q) : finite (growth_rate n (Fin m) (Fin c)).
Proof.
  unfold growth_rate, nan_to_default.
  match goal with |- finite (if isnan ?x then _ else _) => destruct x eqn:E end;
    cbn; try exact I.
  - revert E.
    destruct (fgt (Fin c) (Fin 0) && fgt (fadd (fmul (Fin m) (of_nat (n - 1))) (Fin c)) (Fin 0))
      eqn:Hb; [|destruct (fgt (Fin m) (Fin 0)); discriminate].
    apply andb_true_iff in Hb as [Hc _]. cbn in Hc.
    apply negb_true_iff, Qle_bool_false in Hc.
    cbn. destruct (Qeq_bool c 0) eqn:Ec; [apply Qeq_bool_iff in Ec; lra|].
    cbn. destruct (Qsgn _); discriminate.
  - revert E.
    destruct (fgt (Fin c) (Fin 0) && fgt (fadd (fmul (Fin m) (of_nat (n - 1))) (Fin c)) (Fin 0))
      eqn:Hb; [|destruct (fgt (Fin m) (Fin 0)); discriminate].
    apply andb_true_iff in Hb as [Hc _]. cbn in Hc.
    apply negb_true_iff, Qle_bool_false in Hc.
    cbn. destruct (Qeq_bool c 0) eqn:Ec; [apply Qeq_bool_iff in Ec; lra|].
    cbn. destruct (Qsgn _); discriminate.
Qed.

(** The growth rate of a completed run is a finite number: a fit without
    coefficients leads to the 0% of the last branch. *)
Lemma cagr_finite (s : Stock) (v : Valuation) :
  analyze_stock s = Valued v -> finite (cagr v).
Proof.
  intros Hv. apply analyze_stock_Valued in Hv.
  destruct Hv as (_ & Hm & Hc & _ & Hg & _).
  rewrite Hg, Hm, Hc.
  destruct (polyfit1_cases (map snd (eps_points s))) as [(m & c & ->) | ->]; cbn [fst snd].
  - apply growth_rate_finite.
  - exact I.
Qed.

End Finiteness.

(** *** Dividends and verdict *)

Section Payout.
Context `{FloatLib}.

(** The last fields of a completed run. *)
Lemma analyze_stock_Valued_end (s : Stock) (v : Valuation) :
  analyze_stock s = Valued v ->
  total_dividends v
  = foldl fadd (Fin 0) (projected_dividends (annual_dividend s) (cagr v)) /\
  future_value v = fadd (projected_price v) (total_dividends v) /\
  intrinsic_value v
  = fdiv (future_value v) (fpow_nat (fadd (Fin 1) (Fin (15 # 100))) 10) /\
  outcome v = judge (current_price v) (intrinsic_value v).
Proof.
  unfold analyze_stock.
  destruct (frame_empty (income_stmt s)); [discriminate|].
  destruct (find_eps_row (income_stmt s)) as [eps_row|]; [|discriminate].
  destruct (length (clean_eps eps_row) <? 2)%nat; [discriminate|].
  destruct (iloc_last _) as [base|]; [|discriminate].
  destruct (last_close (history s)) as [price|e]; [|discriminate].
  intros [= <-]. cbn -[fpow_nat projected_dividends]. auto.
Qed.

End Payout.

(** Payments up to the cutoff do not count, whatever their amount. *)
Lemma trailing_dividends_old (old recent : list Dated) (today : Z) :
  Forall (fun d => (fst d <= today - 365)%Z) old ->
  trailing_dividends (old ++ recent) today = trailing_dividends recent today.
Proof.
  intros Hold. unfold trailing_dividends. f_equal. f_equal. f_equal.
  rewrite List.filter_app.
  replace (List.filter (fun d => (today - 365 <? fst d)%Z) old) with (@nil Dated);
    [reflexivity|].
  induction Hold as [|d old Hd Hold IH]; cbn; [reflexivity|].
  replace (today - 365 <? fst d)%Z with false; [exact IH|].
  symmetry. apply Z.ltb_ge. exact Hd.
Qed.

Lemma fsum_nil : fsum [] = Fin 0.
Proof. reflexivity. Qed.

(** X7.  The annual dividend is the reported dividend rate when there is
    one.  Without it, it is 0 when the dividend history is empty or holds
    no payment of the last 365 days, and otherwise the sum of the payments
    of the last 365 days. *)
Theorem dividend_window (s : Stock) :
  (forall r, dividendRate s = Some r -> annual_dividend s = r) /\
  (dividendRate s = None -> dividends s = [] -> annual_dividend s = Fin 0) /\
  (dividendRate s = None ->
   Forall (fun d => (fst d <= now s - 365)%Z) (dividends s) ->
   annual_dividend s = Fin 0) /\
  (forall old recent,
     dividendRate s = None -> dividends s = old ++ recent -> recent <> [] ->
     Forall (fun d => (fst d <= now s - 365)%Z) old ->
     Forall (fun d => (now s - 365 < fst d)%Z /\ isnan (snd d) = false) recent ->
     annual_dividend s = fsum (map snd recent)).
Proof.
  unfold annual_dividend. split; [intros r ->; reflexivity|].
  split; [intros -> ->; reflexivity|]. split.
  - intros -> Hold. destruct (dividends s) as [|d ds] eqn:E; [reflexivity|].
    rewrite <- E in *. rewrite <- (app_nil_r (dividends s)).
    rewrite trailing_dividends_old by exact Hold. reflexivity.
  - intros old recent -> -> Hne Hold Hrec.
    destruct (old ++ recent) as [|d ds] eqn:E.
    { apply app_eq_nil in E as [_ ->]. contradiction. }
    rewrite <- E. rewrite trailing_dividends_old by exact Hold.
    unfold trailing_dividends. f_equal.
    assert (Hin : List.filter (fun d => (now s - 365 <? fst d)%Z) recent = recent).
    { clear -Hrec. induction Hrec as [|x l [Hx _] Hl IH]; cbn; [reflexivity|].
      apply Z.ltb_lt in Hx. rewrite Hx, IH. reflexivity. }
    rewrite Hin. clear -Hrec. induction Hrec as [|x l [_ Hx] Hl IH]; cbn; [reflexivity|].
    unfold notna at 1. rewrite Hx. cbn. rewrite IH. reflexivity.
Qed.

(** *** Sums and verdict *)

Lemma qsum_snoc (l : list Q) (x : Q) : qsum (l ++ [x]) == qsum l + x.
Proof.
  unfold qsum. induction l as [|y l IH]; cbn; [ring|]. rewrite IH. ring.
Qed.

Section Outcome.
Context `{FloatLib}.

(** X10.  When the annual dividend is 0, the projected dividends add up
    to 0 and the future value is the projected price. *)
Theorem no_dividends_no_stream (s : Stock) (v : Valuation) :
  analyze_stock s = Valued v ->
  annual_dividend s = Fin 0 ->
  feq (total_dividends v) (Fin 0) /\
  feq (future_value v) (projected_price v).
Proof.
  intros Hv Hd.
  pose proof (cagr_finite s v Hv) as Hg.
  apply analyze_stock_Valued_end in Hv as (Ht & Hf & _).
  assert (Hsum : forall l a, a == 0 ->
            Forall (fun t => exists q, t = Fin q /\ q == 0) l ->
            exists t, foldl fadd (Fin a) l = Fin t /\ t == 0).
  { induction l as [|x l IH]; intros a Ha Hl; [cbn; eauto|].
    inversion Hl as [|? ? (q & -> & Hq) Hl']; subst. cbn.
    apply IH; [lra|assumption]. }
  assert (Hterms : Forall (fun t => exists q, t = Fin q /\ q == 0)
                     (projected_dividends (Fin 0) (cagr v))).
  { unfold projected_dividends. apply Forall_forall. intros t Hin.
    apply list_elem_of_In, in_map_iff in Hin as (i & <- & _).
    assert (Hp : finite (fpow_nat (fadd (Fin 1) (cagr v)) i)).
    { apply fpow_nat_finite. destruct (cagr v); cbn in *; tauto. }
    destruct (fpow_nat (fadd (Fin 1) (cagr v)) i) as [q| | |];
      cbn in Hp; try contradiction.
    exists (0 * q). split; [reflexivity|ring]. }
  destruct (Hsum _ 0 (Qeq_refl 0) Hterms) as (t & Hfold & Hz).
  rewrite Hd in Ht. rewrite Hfold in Ht.
  split; [rewrite Ht; exact Hz|].
  rewrite Hf, Ht. destruct (projected_price v); cbn; auto. lra.
Qed.

(** X11.  The verdict of a completed run is UNDERVALUED exactly when the
    price is at most the intrinsic value.  A price or an intrinsic value
    that is NaN passes neither test of lines 184 and 186, and the verdict
    is OVERVALUED. *)
Theorem verdict_of_run (s : Stock) (v : Valuation) :
  analyze_stock s = Valued v ->
  (outcome v = UNDERVALUED <->
   fle (current_price v) (intrinsic_value v) = true) /\
  (isnan (current_price v) = true \/ isnan (intrinsic_value v) = true ->
   outcome v = OVERVALUED).
Proof.
  intros Hv. apply analyze_stock_Valued_end in Hv as (_ & _ & _ & Ho).
  rewrite Ho. unfold judge. split.
  - destruct (fle (current_price v) (intrinsic_value v)).
    + split; reflexivity.
    + split; [|discriminate].
      destruct (fle (current_price v) (fmul (intrinsic_value v) (Fin (11 # 10))));
        discriminate.
  - intros [Hp | Hi].
    + destruct (current_price v); try discriminate. reflexivity.
    + destruct (intrinsic_value v); try discriminate.
      destruct (current_price v); reflexivity.
Qed.

End Outcome.

Lemma no_dividends_no_stream_witness :
  exists v, analyze_stock doubling_eps = Valued v /\
    annual_dividend doubling_eps = Fin 0 /\
    feq (total_dividends v) (Fin 0) /\
    feq (future_value v) (projected_price v).
Proof.
  eexists. split; [vm_compute; reflexivity|].
  split; [vm_compute; reflexivity|].
  apply (no_dividends_no_stream doubling_eps); vm_compute; reflexivity.
Defined.

Lemma verdict_of_run_witness :
  exists v, analyze_stock doubling_eps = Valued v /\
    (outcome v = UNDERVALUED <->
     fle (current_price v) (intrinsic_value v) = true) /\
    (isnan (current_price v) = true \/ isnan (intrinsic_value v) = true ->
     outcome v = OVERVALUED).
Proof.
  eexists. split; [vm_compute; reflexivity|].
  apply (verdict_of_run doubling_eps). vm_compute; reflexivity.
Defined.

End WBMore.

(** ** More of the screener *)

Module QuantMore.
Import Float Py Pandas Quant WB Shapes Symbols Samples FloatFacts PandasFacts QuantFacts ScreeningFacts Reference WBFacts WBMore.

(** *** The sample frames *)

Lemma bars_len (closes : list Z) : len (bars closes) = length closes.
Proof. unfold len, bars. cbn [index]. rewrite length_map, length_seq. reflexivity. Qed.

Lemma bars_aligned (closes : list Z) : aligned (bars closes).
Proof.
  unfold aligned. rewrite bars_len. unfold bars. cbn [columns].
  repeat (apply map_Forall_insert_2; [rewrite length_map; reflexivity|]).
  apply map_Forall_empty.
Qed.

Lemma bars_clean (closes : list Z) : clean (bars closes).
Proof.
  unfold clean, bars. cbn [columns].
  repeat (apply map_Forall_insert_2;
          [rewrite map_fmap; apply Forall_fmap, Forall_forall; intros; exact I|]).
  apply map_Forall_empty.
Qed.

Lemma rising_sorted (a n : nat) :
  StronglySorted Qlt (map inject_Z (map Z.of_nat (seq a n))).
Proof.
  revert a. induction n as [|n IH]; intros a; cbn [seq map]; constructor.
  - apply IH.
  - rewrite !map_fmap, !Forall_fmap. apply Forall_forall. intros i Hi.
    apply list_elem_of_In, in_seq in Hi. cbn.
    rewrite <- Zlt_Qlt. lia.
Qed.

Lemma ref_sqrt_nonneg (q : Q) : 0 <= q -> 0 <= fl_sqrt (FloatLib := ref_floatlib) q.
Proof.
  intros _. cbn. unfold ref_sqrt, Qle. cbn.
  rewrite Z.mul_1_r. apply Z.sqrt_nonneg.
Qed.

(** *** Regime filter on rational closes *)

Lemma filter_notna_Fin (qs : list Q) : List.filter notna (map Fin qs) = map Fin qs.
Proof. induction qs as [|q qs IH]; cbn; [reflexivity|]. rewrite IH. reflexivity. Qed.

Lemma foldl_fadd_Fin (qs : list Q) (a : Q) :
  exists t, foldl fadd (Fin a) (map Fin qs) = Fin t /\ t == a + qsum qs.
Proof.
  revert a. induction qs as [|q qs IH]; intros a; cbn.
  - exists a. split; [reflexivity|]. unfold qsum. cbn. ring.
  - destruct (IH (a + q)) as (t & Ht & Et). exists t. split; [exact Ht|].
    rewrite Et. unfold qsum. cbn. ring.
Qed.

(** The rolling mean of a full window of rationals is their mean. *)
Lemma roll_mean_Fin (qs : list Q) (w : nat) :
  length qs = w -> (0 < w)%nat ->
  exists m, roll_mean w (map Fin qs) = Fin m /\ m * qnat w == qsum qs.
Proof.
  intros Hlen Hw. unfold roll_mean. rewrite filter_notna_Fin, length_map, Hlen.
  rewrite Nat.leb_refl. unfold fsum.
  destruct (foldl_fadd_Fin qs 0) as (t & -> & Et).
  assert (Hq : 0 < qnat w) by (unfold qnat, Qlt; cbn; lia).
  unfold of_nat. fold (qnat w). cbn.
  destruct (Qeq_bool (qnat w) 0) eqn:E; [apply Qeq_bool_iff in E; lra|].
  exists (t / qnat w). split; [reflexivity|]. rewrite Et. field. lra.
Qed.

Lemma window_Fin (w i : nat) (qs : list Q) :
  window w i (map Fin qs) = map Fin (take w (drop (i + 1 - w) qs)).
Proof. unfold window. rewrite !map_fmap, fmap_take, fmap_drop. reflexivity. Qed.

Lemma last_map_Fin (qs : list Q) (x : Q) :
  last qs = Some x -> last (map Fin qs) = Some (Fin x).
Proof. intros Hx. rewrite map_fmap, fmap_last, Hx. reflexivity. Qed.

(** The last [w] entries of a list. *)
Lemma window_last (w : nat) (qs : list Q) :
  (0 < w <= length qs)%nat ->
  take w (drop (length qs - 1 + 1 - w) qs) = drop (length qs - w) qs /\
  length (drop (length qs - w) qs) = w.
Proof.
  intros Hw. replace (length qs - 1 + 1 - w)%nat with (length qs - w)%nat by lia.
  assert (Hl : length (drop (length qs - w) qs) = w) by (rewrite length_drop; lia).
  split; [|exact Hl]. apply take_ge. lia.
Qed.

Lemma is_bullish_Fin (df : DataFrame) (qs : list Q) (x : Q) :
  columns df !! "Close" = Some (map Fin qs) ->
  last qs = Some x -> (50 <= length qs)%nat ->
  exists b, is_bullish df = Ok b /\
            (b = true <-> qsum (drop (length qs - 50) qs) < 50 * x).
Proof.
  intros Hc Hx Hlen.
  rewrite (is_bullish_long df (map Fin qs) (Fin x) Hc (last_map_Fin _ _ Hx));
    [|rewrite length_map; exact Hlen].
  rewrite length_map, window_Fin.
  destruct (window_last 50 qs) as [-> Hw]; [lia|].
  destruct (roll_mean_Fin _ 50 Hw) as (m & -> & Em); [lia|].
  eexists. split; [reflexivity|]. cbn.
  change (qnat 50) with 50 in Em.
  rewrite negb_true_iff. split.
  - intros E. apply Qle_bool_false in E. lra.
  - intros Hlt. destruct (Qle_bool x m) eqn:E; [|reflexivity].
    apply Qle_bool_iff in E. lra.
Qed.

Lemma qsum_lt (l : list Q) (x : Q) :
  Forall (fun y => y < x) l -> l <> [] -> qsum l < qnat (length l) * x.
Proof.
  intros Hl. induction Hl as [|y l Hy Hl IH]; [contradiction|]. intros _.
  cbn [length]. rewrite qnat_S. unfold qsum in *. cbn [foldr].
  destruct l as [|z l'].
  - cbn. change (qnat 0) with 0. lra.
  - assert (foldr Qplus 0 (z :: l') < qnat (length (z :: l')) * x) by (apply IH; discriminate).
    lra.
Qed.

(** X13.  A strictly rising series of at least 50 finite closes is
    bullish. *)
Theorem rising_series_is_bullish (df : DataFrame) (qs : list Q) :
  columns df !! "Close" = Some (map Fin qs) ->
  StronglySorted Qlt qs -> (50 <= length qs)%nat ->
  is_bullish df = Ok true.
Proof.
  intros Hc Hs Hlen.
  destruct (last qs) as [x|] eqn:Hx.
  2: { apply last_None in Hx. subst qs. cbn in Hlen. lia. }
  destruct (is_bullish_Fin df qs x Hc Hx Hlen) as (b & Hb & Hiff).
  rewrite Hb. f_equal. apply Hiff.
  apply last_Some in Hx as [init ->].
  rewrite length_app in *. cbn [length] in *.
  assert (Hinit : Forall (fun y => y < x) init).
  { apply Forall_forall. intros y Hy.
    eapply (StronglySorted_app_1_elem_of _ init [x]); [exact Hs|exact Hy|left]. }
  rewrite drop_app_le by lia.
  set (w := drop (length init + 1 - 50) init).
  assert (Hwlen : length w = 49%nat) by (unfold w; rewrite length_drop; lia).
  assert (Hw : qsum w < qnat (length w) * x).
  { apply qsum_lt; [apply Forall_drop, Hinit|].
    intros E. rewrite E in Hwlen. discriminate. }
  rewrite Hwlen in Hw. change (qnat 49) with 49 in Hw.
  rewrite qsum_snoc. lra.
Qed.

Lemma rising_series_is_bullish_witness :
  is_bullish (bars rising60) = Ok true.
Proof.
  apply (rising_series_is_bullish (bars rising60) (map inject_Z rising60)).
  - vm_compute; reflexivity.
  - apply rising_sorted.
  - vm_compute. lia.
Defined.

(** *** Alignment of the columns *)

Lemma length_removelast {A : Type} (l : list A) :
  length (removelast l) = Nat.pred (length l).
Proof.
  induction l as [|x [|y l] IH]; try reflexivity.
  change (S (length (removelast (y :: l))) = S (length l)).
  rewrite IH. reflexivity.
Qed.

Lemma length_shift (s : Series) : length (shift s) = length s.
Proof.
  destruct s as [|x s]; [reflexivity|]. unfold shift. cbn [length].
  rewrite length_removelast. reflexivity.
Qed.

Lemma length_diff (s : Series) : length (diff s) = length s.
Proof. unfold diff. rewrite length_zip_with, length_shift. lia. Qed.

Lemma length_avg_gain (close : Series) : length (avg_gain close) = length close.
Proof. unfold avg_gain, where_. rewrite rolling_length, length_map. apply length_diff. Qed.

Lemma length_avg_loss (close : Series) : length (avg_loss close) = length close.
Proof.
  unfold avg_loss, where_. rewrite rolling_length, !length_map. apply length_diff.
Qed.

Lemma length_rsi_series (close : Series) : length (rsi_series close) = length close.
Proof.
  unfold rsi_series. rewrite length_zip_with, length_avg_gain, length_avg_loss. lia.
Qed.

Lemma length_true_range (hl hc lc : Series) (n : nat) :
  length hl = n -> length hc = n -> length lc = n ->
  length (true_range hl hc lc) = n.
Proof.
  intros H1 H2 H3. unfold true_range. rewrite length_zip_with, length_zip. lia.
Qed.

Lemma select_from_length {A B : Type} (keep : nat -> bool) (a : nat)
    (l1 : list A) (l2 : list B) :
  length l1 = length l2 ->
  length (select_from keep a l1) = length (select_from keep a l2).
Proof.
  revert a l2. induction l1 as [|x l1 IH]; intros a [|y l2] Hl; cbn in *;
    try discriminate; [reflexivity|].
  destruct (keep a); cbn; rewrite (IH (S a) l2) by lia; reflexivity.
Qed.

Lemma dropna_aligned (df : DataFrame) : aligned df -> aligned (dropna df).
Proof.
  unfold aligned, dropna, len. cbn [columns index]. intros Ha.
  apply map_Forall_fmap. intros c s Hs. cbn.
  unfold select. apply select_from_length. apply (Ha c s Hs).
Qed.

Section Alignment.
Context `{FloatLib}.

Lemma with_indicators_aligned (df : DataFrame) (close high low : Series) :
  aligned df ->
  length close = len df -> length high = len df -> length low = len df ->
  aligned (with_indicators df close high low).
Proof.
  intros Ha Hc Hh Hl. unfold aligned, with_indicators, setitem, len in *.
  cbn [columns index].
  repeat apply map_Forall_insert_2; try exact Ha; cbn.
  - rewrite rolling_length. apply length_true_range.
    + rewrite length_zip_with. lia.
    + rewrite length_map, length_zip_with, length_shift. lia.
    + rewrite length_map, length_zip_with, length_shift. lia.
  - rewrite length_zip_with, length_map, !rolling_length. lia.
  - rewrite length_zip_with, length_map, !rolling_length. lia.
  - rewrite rolling_length. exact Hc.
  - rewrite rolling_length. exact Hc.
  - rewrite length_rsi_series. exact Hc.
Qed.

(** X14.  If every column of the input is as long as its index, so is
    every column of the caller's frame after the call and of the returned
    frame. *)
Theorem add_indicators_keeps_alignment (df out : DataFrame) :
  aligned df -> snd (add_indicators df) = Ok out ->
  aligned (fst (add_indicators df)) /\ aligned out.
Proof.
  intros Ha Hok.
  destruct (add_indicators_Ok _ _ Hok)
    as [[Hg ->] | [Hg (close & high & low & Hc & Hh & Hl & -> & ->)]].
  - rewrite add_indicators_short by exact Hg. split; [exact Ha|].
    apply map_Forall_empty.
  - assert (Hw : aligned (with_indicators df close high low)).
    { apply with_indicators_aligned; [exact Ha|..]; eapply Ha; eassumption. }
    split; [exact Hw|]. apply dropna_aligned, Hw.
Qed.

End Alignment.

Lemma add_indicators_keeps_alignment_witness :
  exists out, snd (add_indicators (bars zigzag22)) = Ok out /\
    aligned (fst (add_indicators (bars zigzag22))) /\ aligned out.
Proof.
  assert (Hrun : exists df' out, add_indicators (bars zigzag22) = (df', Ok out)).
  { eexists _, _. run_indicators. }
  destruct Hrun as (df' & out & Hrun).
  assert (Hok : snd (add_indicators (bars zigzag22)) = Ok out)
    by (rewrite Hrun; reflexivity).
  exists out. split; [exact Hok|].
  exact (add_indicators_keeps_alignment (bars zigzag22) out (bars_aligned _) Hok).
Defined.

(** *** Windows over rational data *)

Lemma finite_list (l : list fnum) : Forall finite l -> exists qs, l = map Fin qs.
Proof.
  intros Hl. induction Hl as [|x l Hx Hl (qs & ->)]; [exists []; reflexivity|].
  destruct x as [q| | |]; cbn in Hx; try contradiction.
  exists (q :: qs). reflexivity.
Qed.

Lemma Qsq_nonneg (a : Q) : 0 <= a * a.
Proof.
  destruct (Qlt_le_dec a 0) as [Hn | Hp].
  - assert (E : a * a == (- a) * (- a)) by ring. rewrite E.
    apply Qmult_le_0_compat; lra.
  - apply Qmult_le_0_compat; lra.
Qed.

Lemma finite_notna (x : fnum) : finite x -> notna x = true.
Proof. destruct x; cbn; tauto. Qed.

Lemma window_length (w i : nat) (s : Series) :
  (w <= i + 1)%nat -> (i < length s)%nat -> length (window w i s) = w.
Proof. intros Hw Hi. unfold window. rewrite length_take, length_drop. lia. Qed.

Lemma window_map (f : fnum -> fnum) (w i : nat) (s : Series) :
  window w i (map f s) = map f (window w i s).
Proof. unfold window. rewrite !map_fmap, fmap_take, fmap_drop. reflexivity. Qed.

(** The entries of a window sit at positions from its start on. *)
Lemma window_elem (w i : nat) (s : Series) (x : fnum) :
  x ∈ window w i s ->
  exists j, (i + 1 - w <= j)%nat /\ s !! j = Some x.
Proof.
  unfold window. intros Hx. apply elem_of_take in Hx as (k & Hk & _).
  rewrite lookup_drop in Hk. exists (i + 1 - w + k)%nat. split; [lia|exact Hk].
Qed.

Lemma roll_mean_finite (w : nat) (win : Series) :
  Forall finite win -> length win = w -> (0 < w)%nat -> finite (roll_mean w win).
Proof.
  intros Hf Hl Hw. destruct (finite_list win Hf) as (qs & ->).
  rewrite length_map in Hl.
  destruct (roll_mean_Fin qs w Hl Hw) as (m & -> & _). exact I.
Qed.

Lemma nonneg_finite (x : fnum) : finite x -> nonneg x -> exists q, x = Fin q /\ 0 <= q.
Proof. destruct x as [q| | |]; cbn; try tauto. eauto. Qed.

Lemma fsum_finite (l : Series) : Forall finite l -> finite (fsum l).
Proof.
  intros Hl. destruct (finite_list l Hl) as (qs & ->). unfold fsum.
  destruct (foldl_fadd_Fin qs 0) as (t & -> & _). exact I.
Qed.

Section Std.
Context `{FloatLib}.

Lemma roll_std_finite (w : nat) (win : Series) :
  Forall finite win -> length win = w -> (2 <= w)%nat -> finite (roll_std w win).
Proof.
  intros Hf Hl Hw. unfold roll_std.
  assert (Hobs : List.filter notna win = win).
  { clear -Hf. induction Hf as [|x l Hx Hl IH]; cbn; [reflexivity|].
    rewrite (finite_notna x Hx), IH. reflexivity. }
  rewrite Hobs, Hl, Nat.leb_refl.
  set (m := fdiv (fsum win) (of_nat w)).
  set (sq := map (fun v => fmul (fsub v m) (fsub v m)) win).
  assert (Hm : finite m).
  { pose proof (roll_mean_finite w win Hf Hl ltac:(lia)) as Hr.
    unfold roll_mean in Hr. rewrite Hobs, Hl, Nat.leb_refl in Hr. exact Hr. }
  assert (Hsq : Forall (fun t => finite t /\ nonneg t) sq).
  { unfold sq. rewrite map_fmap, Forall_fmap. eapply Forall_impl; [exact Hf|].
    intros v Hv. destruct m as [a| | |]; cbn in Hm; try contradiction.
    destruct v as [b| | |]; cbn in Hv; try contradiction.
    cbn [fsub fadd fneg fmul nonneg finite compose]. split; [exact I|].
    apply Qsq_nonneg. }
  assert (Hss : exists t, fsum sq = Fin t /\ 0 <= t).
  { apply nonneg_finite.
    - apply fsum_finite. eapply Forall_impl; [exact Hsq|]. cbn; tauto.
    - apply fsum_nonneg. eapply Forall_impl; [exact Hsq|]. cbn; tauto. }
  destruct Hss as (t & -> & Ht).
  assert (Hq : 0 < qnat (w - 1)) by (unfold qnat, Qlt; cbn; lia).
  unfold of_nat. fold (qnat (w - 1)). cbn [fdiv].
  destruct (Qeq_bool (qnat (w - 1)) 0) eqn:E; [apply Qeq_bool_iff in E; lra|].
  cbn [fsqrt].
  assert (Hd : Qle_bool 0 (t / qnat (w - 1)) = true).
  { apply Qle_bool_iff. apply Qle_shift_div_l; lra. }
  rewrite Hd. exact I.
Qed.

End Std.

(** *** Columns computed from rational data *)

Lemma Forall_zip_with_2 {A B C : Type} (P : A -> Prop) (Q : B -> Prop) (R : C -> Prop)
    (f : A -> B -> C) (l1 : list A) (l2 : list B) :
  (forall a b, P a -> Q b -> R (f a b)) ->
  Forall P l1 -> Forall Q l2 -> Forall R (zip_with f l1 l2).
Proof.
  intros Hf H1. revert l2. induction H1 as [|a l1 Ha H1 IH]; intros l2 H2; cbn;
    [constructor|].
  destruct H2 as [|b l2 Hb H2]; constructor; auto.
Qed.

(** A value that is a rational or NaN. *)
Lemma fsub_finite (a b : fnum) : finite a -> finite b -> finite (fsub a b).
Proof. destruct a, b; cbn; tauto. Qed.

Lemma fadd_finite (a b : fnum) : finite a -> finite b -> finite (fadd a b).
Proof. destruct a, b; cbn; tauto. Qed.

Lemma fmul_finite (a b : fnum) : finite a -> finite b -> finite (fmul a b).
Proof. destruct a, b; cbn; tauto. Qed.

Lemma shift_finite_or_nan (s : Series) :
  Forall finite s -> Forall (fun x => finite x \/ x = NaN) (shift s).
Proof.
  intros Hs. destruct s as [|x s]; [constructor|]. unfold shift.
  constructor; [right; reflexivity|].
  apply Forall_forall. intros y Hy. left.
  rewrite Forall_forall in Hs. apply Hs.
  apply list_elem_of_In. apply list_elem_of_In in Hy.
  clear -Hy. revert x Hy. induction s as [|z s IH]; intros x Hy; [inversion Hy|].
  cbn in Hy. destruct s as [|z' s'].
  - destruct Hy as [<- | []]. left. reflexivity.
  - destruct Hy as [<- | Hy]; [left; reflexivity|]. right. apply IH, Hy.
Qed.

Lemma abs_diff_shift (a close : Series) :
  Forall finite a -> Forall finite close ->
  Forall (fun x => finite x \/ x = NaN) (map fabs (zip_with fsub a (shift close))).
Proof.
  intros Ha Hc. rewrite map_fmap, Forall_fmap.
  apply (Forall_zip_with_2 finite (fun x => finite x \/ x = NaN));
    [|exact Ha|apply shift_finite_or_nan, Hc].
  intros x y Hx [Hy | ->]; cbn.
  - left. destruct x, y; cbn in *; tauto.
  - right. destruct x; reflexivity.
Qed.

Lemma row_max3_finite (a b c : fnum) :
  finite a -> finite b \/ b = NaN -> finite c \/ c = NaN ->
  finite (row_max [a; b; c]).
Proof.
  intros Ha Hb Hc.
  destruct a as [qa| | |]; cbn in Ha; try contradiction.
  destruct Hb as [Hb | ->]; destruct Hc as [Hc | ->];
    try (destruct b as [qb| | |]; cbn in Hb; try contradiction);
    try (destruct c as [qc| | |]; cbn in Hc; try contradiction);
    unfold row_max, py_max; cbn;
    repeat match goal with
           | |- context [if ?x then _ else _] => destruct x
           end; exact I.
Qed.

Lemma true_range_finite (high low close : Series) :
  Forall finite high -> Forall finite low -> Forall finite close ->
  Forall finite
    (true_range (zip_with fsub high low)
                (map fabs (zip_with fsub high (shift close)))
                (map fabs (zip_with fsub low (shift close)))).
Proof.
  intros Hh Hl Hc. unfold true_range.
  apply (Forall_zip_with_2 finite
           (fun bc => (finite (fst bc) \/ fst bc = NaN) /\ (finite (snd bc) \/ snd bc = NaN))).
  - intros a [b c] Ha [Hb Hc']. apply row_max3_finite; assumption.
  - apply (Forall_zip_with_2 finite finite); auto. apply fsub_finite.
  - apply (Forall_zip_with_2 (fun x => finite x \/ x = NaN) (fun x => finite x \/ x = NaN));
      [auto|apply abs_diff_shift; assumption|apply abs_diff_shift; assumption].
Qed.

(** A rolling aggregate at a position past its warm-up. *)
Lemma rolling_nth (w : nat) (agg : nat -> Series -> fnum) (s : Series) (i : nat) :
  (w <= i + 1)%nat -> (i < length s)%nat ->
  nth i (rolling w agg s) NaN = agg w (window w i s).
Proof.
  intros Hw Hi. apply lookup_nth. rewrite rolling_lookup by exact Hi.
  replace (i + 1 <? w)%nat with false; [reflexivity|].
  symmetry. apply Nat.ltb_ge. exact Hw.
Qed.

Lemma rolling_mean_finite_at (w : nat) (s : Series) (i : nat) :
  Forall finite s -> (0 < w <= i + 1)%nat -> (i < length s)%nat ->
  finite (nth i (rolling w roll_mean s) NaN).
Proof.
  intros Hs Hw Hi. rewrite rolling_nth by lia.
  apply roll_mean_finite; [apply window_Forall, Hs|apply window_length; lia|lia].
Qed.

Lemma nth_zip_with (f : fnum -> fnum -> fnum) (a b : Series) (i : nat) :
  (i < length a)%nat -> (i < length b)%nat ->
  nth i (zip_with f a b) NaN = f (nth i a NaN) (nth i b NaN).
Proof.
  revert b i. induction a as [|x a IH]; intros [|y b] [|i]; cbn; try lia; auto.
  intros Ha Hb. apply IH; lia.
Qed.

Lemma nth_map (f : fnum -> fnum) (a : Series) (i : nat) :
  (i < length a)%nat -> nth i (map f a) NaN = f (nth i a NaN).
Proof.
  revert i. induction a as [|x a IH]; intros [|i]; cbn; try lia; auto.
  intros Ha. apply IH; lia.
Qed.

Lemma nth_finite (s : Series) (i : nat) :
  Forall finite s -> (i < length s)%nat -> finite (nth i s NaN).
Proof.
  intros Hs Hi. rewrite Forall_forall in Hs. apply Hs.
  apply list_elem_of_In, nth_In, Hi.
Qed.

(** *** Flat windows *)

Lemma qsum_zero_iff (qs : list Q) :
  Forall (fun q => 0 <= q) qs ->
  0 <= qsum qs /\ (qsum qs == 0 <-> Forall (fun q => q == 0) qs).
Proof.
  intros Hq. induction Hq as [|q qs Hq0 Hq [IH0 IH]]; unfold qsum in *; cbn.
  - split; [lra|]. split; [constructor|reflexivity].
  - split; [lra|]. split.
    + intros E. constructor; [lra|]. apply IH. lra.
    + intros Hall. inversion Hall as [|? ? E0 Hrest]; subst.
      apply IH in Hrest. lra.
Qed.

(** The mean of a full window of non-negative rationals is a non-negative
    rational, and it is zero exactly when every entry is. *)
Lemma roll_mean_zero_iff (w : nat) (win : Series) :
  Forall (fun x => exists q, x = Fin q /\ 0 <= q) win ->
  length win = w -> (0 < w)%nat ->
  exists m, roll_mean w win = Fin m /\ 0 <= m /\
            (m == 0 <-> Forall (fun x => feq x (Fin 0)) win).
Proof.
  intros Hwin Hl Hw.
  assert (Hqs : exists qs, win = map Fin qs /\ Forall (fun q => 0 <= q) qs).
  { clear -Hwin. induction Hwin as [|x l (q & -> & Hq) Hl (qs & -> & Hqs)].
    - exists []. split; [reflexivity|constructor].
    - exists (q :: qs). split; [reflexivity|constructor; assumption]. }
  destruct Hqs as (qs & -> & Hqs). rewrite length_map in Hl.
  destruct (roll_mean_Fin qs w Hl Hw) as (m & -> & Em).
  destruct (qsum_zero_iff qs Hqs) as [H0 Hz].
  assert (Hq : 0 < qnat w) by (unfold qnat, Qlt; cbn; lia).
  exists m. split; [reflexivity|].
  assert (Hm : 0 <= m).
  { destruct (Qlt_le_dec m 0) as [Hn|]; [|assumption]. exfalso. nra. }
  split; [exact Hm|].
  rewrite map_fmap, Forall_fmap. cbn. rewrite <- Hz. split.
  - intros E. rewrite <- Em, E. ring.
  - intros E. rewrite E in Em.
    destruct (Qlt_le_dec 0 m) as [Hp|]; [exfalso; nra|lra].
Qed.

Lemma rsi_formula_nan_iff (g l : Q) :
  0 <= g -> 0 <= l ->
  (rsi_formula (Fin g) (Fin l) = NaN <-> g == 0 /\ l == 0).
Proof.
  intros Hg Hl. unfold rsi_formula. cbn [fdiv].
  destruct (Qeq_bool l 0) eqn:El.
  - apply Qeq_bool_iff in El. unfold inf_times.
    destruct (Qsgn g) eqn:Sg.
    + apply (proj1 (Qsgn_Eq g)) in Sg. cbn [fadd fdiv fsub fneg]. tauto.
    + apply (proj1 (Qsgn_Lt g)) in Sg. cbn [fadd fdiv fsub fneg].
      split; [discriminate|]. intros [E _]. exfalso. lra.
    + apply (proj1 (Qsgn_Gt g)) in Sg. lra.
  - apply Qeq_bool_false in El. cbn [fadd fdiv].
    assert (Hr : 0 <= g / l) by (apply Qle_shift_div_l; lra).
    destruct (Qeq_bool (1 + g / l) 0) eqn:E1; [apply Qeq_bool_iff in E1; lra|].
    cbn [fadd fdiv fsub fneg]. split; [discriminate|]. intros [_ E]. contradiction.
Qed.

Lemma gain_loss_zero (d : fnum) :
  finite d ->
  (exists g, (if fgt d (Fin 0) then d else Fin 0) = Fin g /\ 0 <= g) /\
  (exists l, fneg (if flt d (Fin 0) then d else Fin 0) = Fin l /\ 0 <= l) /\
  (feq (if fgt d (Fin 0) then d else Fin 0) (Fin 0) /\
   feq (fneg (if flt d (Fin 0) then d else Fin 0)) (Fin 0) <-> feq d (Fin 0)).
Proof.
  destruct d as [q| | |]; cbn; try contradiction. intros _.
  destruct (Qle_bool q 0) eqn:E1; destruct (Qle_bool 0 q) eqn:E2; cbn;
    try apply Qle_bool_iff in E1; try apply Qle_bool_iff in E2;
    try apply Qle_bool_false in E1; try apply Qle_bool_false in E2;
    (split; [eexists; split; [reflexivity|lra]|]);
    (split; [eexists; split; [reflexivity|lra]|]);
    split; intros; try lra; try (split; lra).
Qed.

(** *** Which rows of a clean frame are kept *)

Lemma Forall_iff_on {A : Type} (P Q R : A -> Prop) (l : list A) :
  Forall P l -> (forall x, P x -> (Q x <-> R x)) ->
  (Forall Q l <-> Forall R l).
Proof.
  intros Hl Hx. induction Hl as [|x l Hp Hl IH]; [split; constructor|].
  split; intros Hall; inversion Hall; subst; constructor;
    try (apply Hx; assumption); apply IH; assumption.
Qed.

Lemma removelast_Forall {A : Type} (P : A -> Prop) (l : list A) :
  Forall P l -> Forall P (removelast l).
Proof.
  intros Hl. induction Hl as [|x l Hx Hl IH]; [constructor|].
  destruct l as [|y l]; [constructor|]. 
  change (Forall P (x :: removelast (y :: l))). constructor; assumption.
Qed.

(** Past the first position every daily change of rational closes is a
    rational. *)
Lemma diff_finite (close : Series) :
  Forall finite close -> Forall finite (drop 1 (diff close)).
Proof.
  intros Hc. destruct close as [|x rest]; [constructor|].
  unfold diff, shift. cbn [zip_with drop].
  inversion Hc as [|? ? Hx Hrest]; subst.
  apply (Forall_zip_with_2 finite finite); [apply fsub_finite|exact Hrest|].
  apply removelast_Forall. exact Hc.
Qed.

Lemma window_diff_finite (close : Series) (i : nat) :
  Forall finite close -> (14 <= i)%nat ->
  Forall finite (window 14 i (diff close)).
Proof.
  intros Hc Hi. unfold window.
  replace (i + 1 - 14)%nat with (1 + (i - 14))%nat by lia.
  rewrite <- drop_drop. apply Forall_take, Forall_drop, diff_finite, Hc.
Qed.

Lemma rsi_nth (close : Series) (i : nat) :
  (i < length close)%nat ->
  nth i (rsi_series close) NaN
  = rsi_formula (nth i (avg_gain close) NaN) (nth i (avg_loss close) NaN).
Proof.
  intros Hi. unfold rsi_series. apply nth_zip_with.
  - rewrite length_avg_gain. exact Hi.
  - rewrite length_avg_loss. exact Hi.
Qed.

(** On rational closes the RSI of a row past position 13 is NaN exactly
    when none of the 14 daily changes up to that row moved the close. *)
Lemma rsi_nan_iff_flat (close : Series) (i : nat) :
  Forall finite close -> (14 <= i < length close)%nat ->
  (nth i (rsi_series close) NaN = NaN <->
   Forall (fun d => feq d (Fin 0)) (window 14 i (diff close))).
Proof.
  intros Hc [Hi Hlen]. rewrite rsi_nth by exact Hlen.
  pose proof (window_diff_finite close i Hc Hi) as HD.
  set (D := window 14 i (diff close)) in *.
  assert (HDlen : length D = 14%nat).
  { unfold D. apply window_length; [lia|]. rewrite length_diff. exact Hlen. }
  unfold avg_gain, avg_loss, where_.
  rewrite !rolling_nth by (try lia; rewrite ?length_map, length_diff; exact Hlen).
  rewrite map_map, !window_map. fold D.
  destruct (roll_mean_zero_iff 14 (map (fun d => if fgt d (Fin 0) then d else Fin 0) D))
    as (g & -> & Hg & Hgz).
  { rewrite map_fmap, Forall_fmap. eapply Forall_impl; [exact HD|].
    intros d Hd. apply (gain_loss_zero d Hd). }
  { rewrite length_map. exact HDlen. }
  { lia. }
  destruct (roll_mean_zero_iff 14
              (map (fun d => fneg (if flt d (Fin 0) then d else Fin 0)) D))
    as (l & -> & Hl & Hlz).
  { rewrite map_fmap, Forall_fmap. eapply Forall_impl; [exact HD|].
    intros d Hd. apply (gain_loss_zero d Hd). }
  { rewrite length_map. exact HDlen. }
  { lia. }
  rewrite (rsi_formula_nan_iff g l Hg Hl), Hgz, Hlz.
  rewrite !map_fmap, !Forall_fmap. rewrite <- Forall_and.
  apply (Forall_iff_on finite); [exact HD|].
  intros d Hd. apply (gain_loss_zero d Hd).
Qed.

Lemma row_complete_iff (cols : gmap string Series) (i : nat) :
  row_complete cols i = true <->
  map_Forall (fun _ s => notna (nth i s NaN) = true) cols.
Proof.
  unfold row_complete. rewrite forallb_forall, map_Forall_to_list, Forall_forall.
  split.
  - intros Hall [c s] Hin. apply (Hall (c, s)), list_elem_of_In, Hin.
  - intros Hall [c s] Hin. apply (Hall (c, s)), list_elem_of_In, Hin.
Qed.

Lemma frame_not_empty (df : DataFrame) (c : string) (s : Series) :
  columns df !! c = Some s -> (20 <= len df)%nat ->
  is_empty df || (len df <? 20)%nat = false.
Proof.
  intros Hc Hlen. unfold is_empty.
  assert (Hsize : size (columns df) <> 0%nat).
  { intros E. apply map_size_empty_inv in E. rewrite E, lookup_empty in Hc. discriminate. }
  apply orb_false_iff. split; [apply orb_false_iff; split|].
  - apply Nat.eqb_neq. lia.
  - apply Nat.eqb_neq. exact Hsize.
  - apply Nat.ltb_ge. exact Hlen.
Qed.

Section CleanRows.
Context `{FloatLib}.

(** In a clean frame every column but the RSI has a value from row 19 on. *)
Lemma clean_row_complete (df : DataFrame) (close high low : Series) (i : nat) :
  aligned df -> clean df ->
  columns df !! "Close" = Some close ->
  columns df !! "High" = Some high ->
  columns df !! "Low" = Some low ->
  (19 <= i < len df)%nat ->
  (row_complete (columns (with_indicators df close high low)) i = true <->
   notna (nth i (rsi_series close) NaN) = true).
Proof.
  intros Ha Hcl Hc Hh Hl [Hi Hlen].
  assert (Lc : length close = len df) by (eapply Ha; eassumption).
  assert (Lh : length high = len df) by (eapply Ha; eassumption).
  assert (Ll : length low = len df) by (eapply Ha; eassumption).
  assert (Fc : Forall finite close) by (eapply Hcl; eassumption).
  assert (Fh : Forall finite high) by (eapply Hcl; eassumption).
  assert (Fl : Forall finite low) by (eapply Hcl; eassumption).
  split.
  - intros Hk. eapply row_complete_lookup; [exact Hk|apply with_indicators_RSI].
  - intros Hrsi. apply row_complete_iff.
    assert (Hsma : finite (nth i (rolling 20 roll_mean close) NaN)).
    { apply rolling_mean_finite_at; [exact Fc|lia|lia]. }
    assert (Hstd : finite (nth i (rolling 20 roll_std close) NaN)).
    { rewrite rolling_nth by lia.
      apply roll_std_finite; [apply window_Forall, Fc|apply window_length; lia|lia]. }
    unfold with_indicators, setitem. cbn [columns].
    repeat apply map_Forall_insert_2.
    + apply finite_notna, rolling_mean_finite_at; [|lia|].
      * apply true_range_finite; assumption.
      * erewrite length_true_range; [exact Hlen| | |].
        -- rewrite length_zip_with. lia.
        -- rewrite length_map, length_zip_with, length_shift. lia.
        -- rewrite length_map, length_zip_with, length_shift. lia.
    + rewrite nth_zip_with, nth_map
        by (rewrite ?length_map, ?rolling_length; lia).
      apply finite_notna, fadd_finite; [exact Hsma|].
      apply fmul_finite; [exact I|exact Hstd].
    + rewrite nth_zip_with, nth_map
        by (rewrite ?length_map, ?rolling_length; lia).
      apply finite_notna, fsub_finite; [exact Hsma|].
      apply fmul_finite; [exact I|exact Hstd].
    + apply finite_notna, Hstd.
    + apply finite_notna, Hsma.
    + exact Hrsi.
    + intros c s Hs. apply finite_notna, nth_finite; [eapply Hcl; eassumption|].
      rewrite (Ha c s Hs). exact Hlen.
Qed.

(** X15.  For a frame of at least 20 rows of finite values the call
    returns exactly the rows from position 19 on whose last 14 price
    changes are not all zero. *)
Theorem clean_frame_rows (df : DataFrame) (close high low : Series) :
  aligned df -> clean df ->
  columns df !! "Close" = Some close ->
  columns df !! "High" = Some high ->
  columns df !! "Low" = Some low ->
  (20 <= len df)%nat ->
  exists out,
    snd (add_indicators df) = Ok out /\
    forall d, d ∈ index out <->
      exists i, (19 <= i)%nat /\ index df !! i = Some d /\
                ~ Forall (fun x => feq x (Fin 0)) (window 14 i (diff close)).
Proof.
  intros Ha Hcl Hc Hh Hl Hlen.
  rewrite (add_indicators_long df close high low (frame_not_empty df _ _ Hc Hlen) Hc Hh Hl).
  eexists. split; [reflexivity|]. cbn [index dropna].
  assert (Lc : length close = len df) by (eapply Ha; eassumption).
  assert (Fc : Forall finite close) by (eapply Hcl; eassumption).
  assert (Hkeep : forall i, (19 <= i < len df)%nat ->
            (row_complete (columns (with_indicators df close high low)) i = true <->
             ~ Forall (fun x => feq x (Fin 0)) (window 14 i (diff close)))).
  { intros i Hi. rewrite (clean_row_complete df close high low i Ha Hcl Hc Hh Hl Hi).
    rewrite <- (rsi_nan_iff_flat close i Fc) by lia.
    destruct (nth i (rsi_series close) NaN); cbn; split; try discriminate; try tauto;
      intros; congruence. }
  intros d. split.
  - intros Hd. apply select_lookup in Hd as (i & Hk & Hi).
    pose proof (kept_row_past_warmup _ _ _ _ _ Hk) as H19.
    assert (Hlt : (i < len df)%nat) by (eapply lookup_lt_Some, Hi).
    exists i. split; [exact H19|]. split; [exact Hi|]. apply Hkeep; [lia|exact Hk].
  - intros (i & H19 & Hi & Hflat).
    assert (Hlt : (i < len df)%nat) by (eapply lookup_lt_Some, Hi).
    unfold select. eapply (select_from_kept _ _ 0 i); [|exact Hi].
    apply Hkeep; [lia|exact Hflat].
Qed.

End CleanRows.

Lemma clean_frame_rows_witness :
  exists out,
    snd (add_indicators (bars zigzag22)) = Ok out /\
    forall d, d ∈ index out <->
      exists i, (19 <= i)%nat /\ index (bars zigzag22) !! i = Some d /\
                ~ Forall (fun x => feq x (Fin 0))
                    (window 14 i (diff (map fz zigzag22))).
Proof.
  apply (clean_frame_rows (bars zigzag22) (map fz zigzag22)
           (map (fun c => fz (c + 1)) zigzag22) (map (fun c => fz (c - 1)) zigzag22)
           (bars_aligned _) (bars_clean _)); try reflexivity.
  rewrite bars_len. vm_compute. lia.
Defined.

Lemma select_from_threshold {A : Type} (keep : nat -> bool) (k a : nat) (l : list A) :
  (forall i, (i < length l)%nat -> (keep (a + i)%nat = true <-> (k <= a + i)%nat)) ->
  select_from keep a l = drop (k - a) l.
Proof.
  revert a. induction l as [|x l IH]; intros a Hk; [rewrite drop_nil; reflexivity|].
  cbn [select_from].
  assert (Hrest : select_from keep (S a) l = drop (k - S a) l).
  { apply IH. intros i Hi. rewrite Nat.add_succ_comm. apply Hk. cbn. lia. }
  destruct (keep a) eqn:Ka.
  - assert (k <= a)%nat.
    { specialize (Hk 0%nat). rewrite Nat.add_0_r in Hk. apply Hk; [cbn; lia|exact Ka]. }
    rewrite Hrest. replace (k - a)%nat with 0%nat by lia.
    replace (k - S a)%nat with 0%nat by lia. reflexivity.
  - assert (a < k)%nat.
    { destruct (Nat.le_gt_cases k a) as [Hle|]; [|assumption].
      specialize (Hk 0%nat). rewrite Nat.add_0_r in Hk.
      rewrite (proj2 (Hk ltac:(cbn; lia)) Hle) in Ka. discriminate. }
    rewrite Hrest. replace (k - a)%nat with (S (k - S a)) by lia. reflexivity.
Qed.

Section MovingRows.
Context `{FloatLib}.

(** X16.  For a frame of at least 20 rows of finite values in which no
    close repeats the one before, the call returns the input from row 19
    on: the index and every input column that is not an indicator are the
    input's without their first 19 entries. *)
Theorem moving_closes_keep_all_rows (df : DataFrame) (close high low : Series) :
  aligned df -> clean df ->
  columns df !! "Close" = Some close ->
  columns df !! "High" = Some high ->
  columns df !! "Low" = Some low ->
  (20 <= len df)%nat ->
  Forall (fun d => ~ feq d (Fin 0)) (drop 1 (diff close)) ->
  exists out,
    snd (add_indicators df) = Ok out /\
    index out = drop 19 (index df) /\
    len out = (len df - 19)%nat /\
    forall c s, c ∉ indicators -> columns df !! c = Some s ->
                columns out !! c = Some (drop 19 s).
Proof.
  intros Ha Hcl Hc Hh Hl Hlen Hmove.
  rewrite (add_indicators_long df close high low (frame_not_empty df _ _ Hc Hlen) Hc Hh Hl).
  eexists. split; [reflexivity|].
  assert (Lc : length close = len df) by (eapply Ha; eassumption).
  assert (Fc : Forall finite close) by (eapply Hcl; eassumption).
  set (keep := row_complete (columns (with_indicators df close high low))).
  assert (Hkeep : forall i, (i < len df)%nat -> (keep i = true <-> (19 <= i)%nat)).
  { intros i Hi. split; [apply kept_row_past_warmup|]. intros H19. unfold keep.
    apply (clean_row_complete df close high low i Ha Hcl Hc Hh Hl); [lia|].
    destruct (nth i (rsi_series close) NaN) eqn:E; try reflexivity.
    exfalso. apply (rsi_nan_iff_flat close i Fc) in E; [|lia].
    assert (HD : Forall (fun d => ~ feq d (Fin 0)) (window 14 i (diff close))).
    { unfold window. replace (i + 1 - 14)%nat with (1 + (i - 14))%nat by lia.
      rewrite <- drop_drop. apply Forall_take, Forall_drop, Hmove. }
    assert (HL : length (window 14 i (diff close)) = 14%nat).
    { apply window_length; [lia|]. rewrite length_diff. lia. }
    destruct (window 14 i (diff close)) as [|d D]; [discriminate|].
    inversion E; subst. inversion HD; subst. contradiction. }
  assert (Hsel : forall (A : Type) (l : list A), length l = len df ->
            select keep l = drop 19 l).
  { intros A l Hl'. unfold select. rewrite (select_from_threshold keep 19 0 l).
    - reflexivity.
    - intros i Hi. cbn. apply Hkeep. lia. }
  assert (Hidx : index (dropna (with_indicators df close high low)) = drop 19 (index df)).
  { cbn [index dropna]. apply Hsel. reflexivity. }
  split; [exact Hidx|]. split.
  - unfold len at 1. rewrite Hidx, length_drop. reflexivity.
  - intros c s Hout Hs. rewrite dropna_lookup. fold keep.
    pose proof (add_indicators_body_touches df) as [_ Ht].
    rewrite (add_indicators_body_ok df close high low Hc Hh Hl) in Ht.
    cbn [fst] in Ht. rewrite (Ht c Hout), Hs. cbn.
    rewrite Hsel by (apply (Ha c s Hs)). reflexivity.
Qed.

End MovingRows.

Lemma moving_closes_keep_all_rows_witness :
  exists out,
    snd (add_indicators (bars rising25)) = Ok out /\
    index out = drop 19 (index (bars rising25)) /\
    len out = (len (bars rising25) - 19)%nat /\
    forall c s, c ∉ indicators -> columns (bars rising25) !! c = Some s ->
                columns out !! c = Some (drop 19 s).
Proof.
  apply (moving_closes_keep_all_rows (bars rising25) (map fz rising25)
           (map (fun c => fz (c + 1)) rising25) (map (fun c => fz (c - 1)) rising25)
           (bars_aligned _) (bars_clean _)); try reflexivity.
  - rewrite bars_len. vm_compute. lia.
  - vm_compute. repeat constructor; discriminate.
Defined.

(** *** Order of the bands *)

Lemma select_from_zip {A B : Type} (keep : nat -> bool) (a : nat)
    (l1 : list A) (l2 : list B) :
  select_from keep a (zip l1 l2) = zip (select_from keep a l1) (select_from keep a l2).
Proof.
  revert a l2. induction l1 as [|x l1 IH]; intros a [|y l2]; cbn; try reflexivity.
  - destruct (keep a); destruct (select_from keep (S a) l1); reflexivity.
  - destruct (keep a); cbn; rewrite IH; reflexivity.
Qed.

Lemma band_order (m sd : fnum) :
  sd = NaN \/ nonneg sd ->
  notna (fsub m (fmul (Fin 2) sd)) = true ->
  notna (fadd m (fmul (Fin (3 # 2)) sd)) = true ->
  fle (fsub m (fmul (Fin 2) sd)) m = true /\
  fle m (fadd m (fmul (Fin (3 # 2)) sd)) = true.
Proof.
  intros [-> | Hsd].
  { destruct m; cbn; discriminate. }
  destruct sd as [b| | |]; cbn in Hsd; try contradiction.
  - destruct m as [a| | |]; cbn; try discriminate; auto.
    intros _ _. split; apply Qle_bool_iff; lra.
  - destruct m as [a| | |]; cbn; try discriminate; auto.
Qed.

Section Bands.
Context `{FloatLib}.
Hypothesis fl_sqrt_nonneg : forall q, 0 <= q -> 0 <= fl_sqrt q.

Lemma fsqrt_nonneg (x : fnum) : fsqrt x = NaN \/ nonneg (fsqrt x).
Proof.
  destruct x as [q| | |]; cbn; auto.
  destruct (Qle_bool 0 q) eqn:E; [|auto]. right. cbn.
  apply fl_sqrt_nonneg, Qle_bool_iff, E.
Qed.

Lemma roll_std_nonneg (w : nat) (win : Series) :
  roll_std w win = NaN \/ nonneg (roll_std w win).
Proof.
  unfold roll_std. destruct (w <=? _)%nat; [apply fsqrt_nonneg|left; reflexivity].
Qed.

Lemma with_indicators_Std (df : DataFrame) (close high low : Series) :
  columns (with_indicators df close high low) !! "Std"
  = Some (rolling 20 roll_std close).
Proof.
  unfold with_indicators, setitem. cbn [columns].
  rewrite !lookup_insert_ne by discriminate. apply lookup_insert_eq.
Qed.

Lemma with_indicators_Lower (df : DataFrame) (close high low : Series) :
  columns (with_indicators df close high low) !! "Lower"
  = Some (zip_with fsub (rolling 20 roll_mean close)
                   (map (fmul (Fin 2)) (rolling 20 roll_std close))).
Proof.
  unfold with_indicators, setitem. cbn [columns].
  rewrite !lookup_insert_ne by discriminate. apply lookup_insert_eq.
Qed.

Lemma with_indicators_Upper (df : DataFrame) (close high low : Series) :
  columns (with_indicators df close high low) !! "Upper"
  = Some (zip_with fadd (rolling 20 roll_mean close)
                   (map (fmul (Fin (3 # 2))) (rolling 20 roll_std close))).
Proof.
  unfold with_indicators, setitem. cbn [columns].
  rewrite !lookup_insert_ne by discriminate. apply lookup_insert_eq.
Qed.

(** X17.  In every returned row the lower band is at most the 20-day
    mean and the mean at most the upper band, for a square root that
    returns no negative number. *)
Theorem bands_ordered (df out : DataFrame) (lower sma upper : Series) :
  snd (add_indicators df) = Ok out ->
  columns out !! "Lower" = Some lower ->
  columns out !! "SMA20" = Some sma ->
  columns out !! "Upper" = Some upper ->
  Forall (fun t => fle (fst t) (fst (snd t)) = true /\
                   fle (fst (snd t)) (snd (snd t)) = true)
         (zip lower (zip sma upper)).
Proof.
  intros Hok Hlo Hsm Hup.
  destruct (add_indicators_Ok _ _ Hok)
    as [[Hg ->] | [Hg (close & high & low & Hc & Hh & Hl & _ & ->)]].
  { unfold empty_frame in Hlo. cbn [columns] in Hlo.
    rewrite lookup_empty in Hlo. discriminate. }
  set (W := with_indicators df close high low) in *.
  set (S := rolling 20 roll_mean close) in *.
  set (D := rolling 20 roll_std close) in *.
  rewrite dropna_lookup in Hlo, Hsm, Hup.
  pose proof (with_indicators_Lower df close high low) as HL.
  pose proof (with_indicators_SMA20 df close high low) as HS.
  pose proof (with_indicators_Upper df close high low) as HU.
  fold W S D in HL, HS, HU. rewrite HL in Hlo. rewrite HS in Hsm. rewrite HU in Hup.
  cbn in Hlo, Hsm, Hup. injection Hlo as <-. injection Hsm as <-. injection Hup as <-.
  unfold select. rewrite <- !select_from_zip.
  apply Forall_forall. intros [l [m u]] Hin.
  apply select_from_lookup in Hin as (i & Hk & Hi). cbn [Nat.add] in Hk.
  apply lookup_zip_with_Some in Hi as (l0 & mu & Heq & Hl0 & Hmu).
  apply lookup_zip_with_Some in Hmu as (m0 & u0 & Heq' & Hm0 & Hu0).
  subst mu. injection Heq as -> -> ->. cbn [fst snd].
  assert (Hnl : notna l0 = true).
  { rewrite <- (lookup_nth _ _ _ Hl0). eapply row_complete_lookup; [exact Hk|exact HL]. }
  assert (Hnu : notna u0 = true).
  { rewrite <- (lookup_nth _ _ _ Hu0). eapply row_complete_lookup; [exact Hk|exact HU]. }
  apply lookup_zip_with_Some in Hl0 as (m1 & x1 & -> & Hm1 & Hx1).
  apply lookup_zip_with_Some in Hu0 as (m2 & x2 & -> & Hm2 & Hx2).
  rewrite Hm0 in Hm1, Hm2. injection Hm1 as <-. injection Hm2 as <-.
  rewrite map_fmap, list_lookup_fmap in Hx1, Hx2.
  destruct (D !! i) as [sd|] eqn:Hsd; cbn in Hx1, Hx2; [|discriminate].
  injection Hx1 as <-. injection Hx2 as <-.
  apply band_order; [|exact Hnl|exact Hnu].
  unfold D in Hsd. apply rolling_lookup_Some in Hsd as ->.
  destruct (i + 1 <? 20)%nat; [left; reflexivity|apply roll_std_nonneg].
Qed.

End Bands.

Lemma bands_ordered_witness :
  exists out lower sma upper,
    snd (add_indicators (bars zigzag22)) = Ok out /\
    columns out !! "Lower" = Some lower /\
    columns out !! "SMA20" = Some sma /\
    columns out !! "Upper" = Some upper /\
    length lower = 3%nat /\
    Forall (fun t => fle (fst t) (fst (snd t)) = true /\
                     fle (fst (snd t)) (snd (snd t)) = true)
           (zip lower (zip sma upper)).
Proof.
  assert (Hrun : exists df' out lower sma upper,
             add_indicators (bars zigzag22) = (df', Ok out) /\
             columns out !! "Lower" = Some lower /\
             columns out !! "SMA20" = Some sma /\
             columns out !! "Upper" = Some upper /\
             length lower = 3%nat).
  { eexists _, _, _, _, _. split; [run_indicators|].
    repeat split; vm_compute; reflexivity. }
  destruct Hrun as (df' & out & lower & sma & upper & Hrun & Hl & Hs & Hu & Hlen).
  assert (Hok : snd (add_indicators (bars zigzag22)) = Ok out)
    by (rewrite Hrun; reflexivity).
  exists out, lower, sma, upper. repeat split; try assumption.
  exact (bands_ordered ref_sqrt_nonneg (bars zigzag22) out lower sma upper Hok Hl Hs Hu).
Defined.

(** *** Sector tags *)

Section Sectors.
Context `{FloatLib}.
Variable download : string -> string -> DataFrame.

Lemma prefetch_sector_Ok (m m' : gmap string bool) (entry : option string) :
  prefetch_sector download m entry = Ok m' ->
  (m' = m /\
   forall t, entry = Some t ->
             t = "nan" \/ is_empty (download t "100d") = true) \/
  (exists t b, entry = Some t /\ t <> "nan" /\
               is_empty (download t "100d") = false /\
               is_bullish (download t "100d") = Ok b /\
               m' = <[t := b]> m).
Proof.
  unfold prefetch_sector. destruct entry as [t|].
  2: { intros [= <-]. left. split; [reflexivity|]. intros t [=]. }
  destruct (String.eqb t "nan") eqn:En.
  { intros [= <-]. left. split; [reflexivity|]. intros t' [= <-].
    left. apply String.eqb_eq, En. }
  destruct (is_empty (download t "100d")) eqn:Ee.
  { intros [= <-]. left. split; [reflexivity|]. intros t' [= <-]. right. exact Ee. }
  destruct (is_bullish (download t "100d")) as [b|e] eqn:Eb; cbn; [|discriminate].
  intros [= <-]. right. exists t, b. repeat split; auto.
  apply String.eqb_neq, En.
Qed.

(** The prefetch stops only where the regime filter raises on a listed
    sector whose frame has rows. *)
Lemma prefetch_sectors_Raise (l : list (option string)) (m : gmap string bool)
    (e : exn) :
  prefetch_sectors download m l = Raise e ->
  exists t, Some t ∈ l /\ t <> "nan" /\ is_empty (download t "100d") = false /\
            is_bullish (download t "100d") = Raise e.
Proof.
  revert m. induction l as [|entry l IH]; intros m; cbn; [discriminate|].
  destruct (prefetch_sector download m entry) as [m1|e1] eqn:E1; cbn.
  - intros Hrest. destruct (IH m1 Hrest) as (t & Hin & Ht).
    exists t. split; [right; exact Hin|exact Ht].
  - intros [= <-]. unfold prefetch_sector in E1.
    destruct entry as [t|]; [|discriminate].
    destruct (String.eqb t "nan") eqn:En; [discriminate|].
    destruct (is_empty (download t "100d")) eqn:Ee; [discriminate|].
    destruct (is_bullish (download t "100d")) as [b|e2] eqn:Eb; cbn in E1;
      [discriminate|].
    injection E1 as ->. exists t. split; [left|].
    split; [apply String.eqb_neq, En|]. split; [exact Ee|exact Eb].
Qed.

(** A ticker is in the map exactly when it was listed, is not the text
    [nan], and its frame is not empty; the tag is then its regime. *)
Lemma prefetch_sectors_lookup (l : list (option string)) (m m' : gmap string bool)
    (t : string) (b : bool) :
  prefetch_sectors download m l = Ok m' ->
  (m' !! t = Some b <->
   (Some t ∈ l /\ t <> "nan" /\ is_empty (download t "100d") = false /\
    is_bullish (download t "100d") = Ok b) \/
   (m !! t = Some b /\
    ~ (Some t ∈ l /\ t <> "nan" /\ is_empty (download t "100d") = false))).
Proof.
  revert m. induction l as [|entry l IH]; intros m; cbn.
  - intros [= <-]. split.
    + intros Hm. right. split; [exact Hm|]. intros [Hin _]. inversion Hin.
    + intros [[Hin _] | [Hm _]]; [inversion Hin|exact Hm].
  - destruct (prefetch_sector download m entry) as [m1|e] eqn:E1; cbn; [|discriminate].
    intros Hrest. rewrite (IH m1 Hrest). clear IH Hrest.
    apply prefetch_sector_Ok in E1.
    destruct E1 as [[-> Hskip] | (t1 & b1 & -> & Hn1 & He1 & Hb1 & ->)].
    + split.
      * intros [(Hin & Hn & He & Hb) | [Hm Hnot]].
        -- left. repeat split; auto. right. exact Hin.
        -- right. split; [exact Hm|]. intros (Hin & Hn & He).
           apply elem_of_cons in Hin as [<- | Hin].
           ++ destruct (Hskip t eq_refl); congruence.
           ++ apply Hnot. auto.
      * intros [(Hin & Hn & He & Hb) | [Hm Hnot]].
        -- apply elem_of_cons in Hin as [<- | Hin].
           ++ destruct (Hskip t eq_refl); congruence.
           ++ left. auto.
        -- right. split; [exact Hm|]. intros (Hin & Hn & He).
           apply Hnot. repeat split; auto. right. exact Hin.
    + destruct (decide (t = t1)) as [-> | Hne].
      * rewrite lookup_insert_eq. split.
        -- intros [(Hin & Hn & He & Hb) | [[= <-] Hnot]].
           ++ left. repeat split; auto. right. exact Hin.
           ++ left. repeat split; auto. left.
        -- intros [(Hin & Hn & He & Hb) | [Hm Hnot]].
           ++ destruct (decide (Some t1 ∈ l)) as [Hin' | Hout].
              ** left. auto.
              ** right. split; [congruence|]. intros (Hin' & _). contradiction.
           ++ exfalso. apply Hnot. repeat split; auto. left.
      * rewrite lookup_insert_ne by congruence. split.
        -- intros [(Hin & Hn & He & Hb) | [Hm Hnot]].
           ++ left. repeat split; auto. right. exact Hin.
           ++ right. split; [exact Hm|]. intros (Hin & Hn & He).
              apply elem_of_cons in Hin as [[= ->] | Hin]; [congruence|].
              apply Hnot. auto.
        -- intros [(Hin & Hn & He & Hb) | [Hm Hnot]].
           ++ apply elem_of_cons in Hin as [[= ->] | Hin]; [congruence|].
              left. auto.
           ++ right. split; [exact Hm|]. intros (Hin & Hn & He).
              apply Hnot. repeat split; auto. right. exact Hin.
Qed.

(** X18.  After the prefetch a ticker is in the sector map exactly when
    it was listed, is not the text [nan] and its frame has rows; its tag
    is then the answer of the regime filter on that frame. *)
Theorem sector_map_entries (l : list (option string)) (m : gmap string bool)
    (t : string) (b : bool) :
  prefetch_sectors download ∅ l = Ok m ->
  (m !! t = Some b <->
   Some t ∈ l /\ t <> "nan" /\ is_empty (download t "100d") = false /\
   is_bullish (download t "100d") = Ok b).
Proof.
  intros Hm. rewrite (prefetch_sectors_lookup l ∅ m t b Hm).
  rewrite lookup_empty. split.
  - intros [Hl | [Hn _]]; [exact Hl|discriminate].
  - intros Hl. left. exact Hl.
Qed.

End Sectors.

Lemma sector_map_entries_witness :
  exists m,
    prefetch_sectors feed ∅ [Some "^CNXIT"; None; Some "nan"; Some "^CNXAUTO"; Some "^CNXFMCG"]
    = Ok m /\
    m !! "^CNXIT" = Some true /\ m !! "^CNXAUTO" = Some false /\
    m !! "^CNXFMCG" = None /\ m !! "nan" = None.
Proof.
  set (l := [Some "^CNXIT"; None; Some "nan"; Some "^CNXAUTO"; Some "^CNXFMCG"]).
  assert (Hit : is_bullish (feed "^CNXIT" "100d") = Ok true) by (vm_compute; reflexivity).
  assert (Hauto : is_bullish (feed "^CNXAUTO" "100d") = Ok false) by (vm_compute; reflexivity).
  assert (Hfmcg : is_empty (feed "^CNXFMCG" "100d") = true) by reflexivity.
  destruct (prefetch_sectors feed ∅ l) as [m|e] eqn:Hrun.
  2: { exfalso. apply prefetch_sectors_Raise in Hrun as (t & Hin & Hnan & He & Hb).
       unfold l in Hin.
       repeat (apply elem_of_cons in Hin as [Hin | Hin];
               [try discriminate; injection Hin as ->; congruence|]).
       inversion Hin. }
  exists m. split; [reflexivity|].
  pose proof (fun t b => sector_map_entries feed l m t b Hrun) as Hm.
  split; [|split; [|split]].
  - apply Hm. split; [left|]. split; [discriminate|]. split; [reflexivity|exact Hit].
  - apply Hm. split; [do 3 right; left|]. split; [discriminate|].
    split; [reflexivity|exact Hauto].
  - destruct (m !! "^CNXFMCG") as [b|] eqn:E; [|reflexivity].
    apply Hm in E as (_ & _ & E & _). congruence.
  - destruct (m !! "nan") as [b|] eqn:E; [|reflexivity].
    apply Hm in E as (_ & E & _). contradiction.
Defined.

(** *** Rows of the heat map *)

Section Rows.
Context `{FloatLib}.
Variable download : string -> string -> DataFrame.

(** Every RSI value of a result lies between 0 and 100. *)
Lemma add_indicators_rsi_range (df out : DataFrame) (rsi : Series) :
  snd (add_indicators df) = Ok out -> columns out !! "RSI" = Some rsi ->
  Forall in_0_100 rsi.
Proof.
  intros Hok Hrsi.
  pose proof (add_indicators_notna _ _ _ _ Hok Hrsi) as Hn.
  destruct (add_indicators_Ok _ _ Hok)
    as [[Hg ->] | [Hg (close & high & low & Hc & Hh & Hl & _ & ->)]].
  - unfold empty_frame in Hrsi. cbn [columns] in Hrsi.
    rewrite lookup_empty in Hrsi. discriminate.
  - rewrite dropna_lookup, with_indicators_RSI in Hrsi.
    injection Hrsi as <-. apply Forall_forall. intros x Hx.
    rewrite Forall_forall in Hn. specialize (Hn x Hx).
    apply select_lookup in Hx as (i & _ & Hi).
    destruct (rsi_series_range _ _ _ Hi) as [-> | Hr]; [discriminate|exact Hr].
Qed.

(** A scanned symbol: where the fields of its row come from. *)
Lemma scan_symbol_Some (m : gmap string bool) (ref_ret : fnum)
    (entry : string * option string) (r : ScanRow) :
  scan_symbol download m ref_ret entry = Some r ->
  exists out close lower rsi latest_lower,
    snd (add_indicators (download (get_clean_symbol (fst entry)) "60d")) = Ok out /\
    is_empty out = false /\
    columns out !! "Close" = Some close /\
    columns out !! "Lower" = Some lower /\
    columns out !! "RSI" = Some rsi /\
    Symbol r = fst entry /\
    last close = Some (Price r) /\
    last rsi = Some (RSI r) /\
    last lower = Some latest_lower /\
    Dist r = fmul (fsub (fdiv (Price r) latest_lower) (Fin 1)) (Fin 100) /\
    S_Bull r = sector_get m (snd entry).
Proof.
  unfold scan_symbol, scan_try, try_except.
  destruct (snd (add_indicators (download (get_clean_symbol (fst entry)) "60d")))
    as [df|e] eqn:Hok; cbn -[is_empty ret_3d]; [|discriminate].
  destruct (is_empty df) eqn:He; [discriminate|].
  unfold getitem, iloc_last.
  destruct (columns df !! "Close") as [close|] eqn:Hc; cbn -[ret_3d]; [|discriminate].
  destruct (last close) as [lc|] eqn:Hlc; cbn -[ret_3d]; [|discriminate].
  destruct (columns df !! "Lower") as [lower|] eqn:Hl; cbn -[ret_3d]; [|discriminate].
  destruct (last lower) as [ll|] eqn:Hll; cbn -[ret_3d]; [|discriminate].
  destruct (ret_3d df) as [r3|]; cbn; [|discriminate].
  destruct (columns df !! "RSI") as [rsi|] eqn:Hrsi; cbn; [|discriminate].
  destruct (last rsi) as [lr|] eqn:Hlr; cbn; [|discriminate].
  intros [= <-]. exists df, close, lower, rsi, ll. cbn. repeat split; auto.
Qed.

(** X19.  In a completed run the market tag is the regime filter's
    answer on the index, the heat map has at most one line per table
    entry, and every line carries the symbol of a table entry and an RSI
    between 0 and 100; a sector tick means the entry's sector ticker was
    fetched with rows and found bullish. *)
Theorem heat_map_rows (symbols_data : list (string * option string))
    (market_bullish : bool) (lines : list HeatLine) :
  run_pro_simulation download symbols_data = Ok (market_bullish, lines) ->
  is_bullish (download "^NSEI" "100d") = Ok market_bullish /\
  (length lines <= length symbols_data)%nat /\
  Forall (fun line =>
    exists entry, entry ∈ symbols_data /\
      Symbol (row line) = fst entry /\
      in_0_100 (RSI (row line)) /\
      (S_Bull (row line) = true ->
       exists t, snd entry = Some t /\ t <> "nan" /\
                 is_empty (download t "100d") = false /\
                 is_bullish (download t "100d") = Ok true)) lines.
Proof.
  unfold run_pro_simulation.
  destruct (is_bullish _) as [mb|]; cbn -[ret_3d shortlist]; [|discriminate].
  destruct (ret_3d _) as [r3|]; cbn -[shortlist]; [|discriminate].
  destruct (prefetch_sectors _ _ _) as [m|] eqn:Hm; cbn -[shortlist]; [|discriminate].
  set (rows := omap (scan_symbol download m r3) symbols_data).
  destruct (shortlist rows) as [out|] eqn:Hout; cbn; [|discriminate].
  intros [= <- <-]. split; [reflexivity|].
  apply shortlist_Ok in Hout as [_ ->].
  assert (Hlen : (length rows <= length symbols_data)%nat).
  { unfold rows. clear. induction symbols_data as [|e l IH]; cbn; [lia|].
    destruct (scan_symbol download m r3 e); cbn; lia. }
  split.
  { rewrite length_map, length_take, merge_sort_Permutation. lia. }
  apply Forall_forall. intros line Hline.
  apply list_elem_of_In, in_map_iff in Hline as (r & <- & Hr).
  apply list_elem_of_In, subseteq_take in Hr.
  rewrite merge_sort_Permutation in Hr.
  apply list_elem_of_omap in Hr as (entry & Hentry & Hscan).
  apply scan_symbol_Some in Hscan
    as (out & close & lower & rsi & ll & Hok & _ & _ & _ & Hrsi & Hsym & _ & Hlast & _ & _ & Hbull).
  exists entry. cbn [row heat_line]. split; [exact Hentry|]. split; [exact Hsym|]. split.
  - pose proof (add_indicators_rsi_range _ _ _ Hok Hrsi) as Hrange.
    rewrite Forall_forall in Hrange. apply Hrange, last_Some_elem_of, Hlast.
  - rewrite Hbull. unfold sector_get. destruct (snd entry) as [t|]; cbn; [|discriminate].
    destruct (m !! t) as [b|] eqn:Ht; cbn; [|discriminate]. intros ->.
    exists t. split; [reflexivity|].
    apply (prefetch_sectors_lookup download _ ∅ m t true Hm) in Ht.
    destruct Ht as [(_ & Hn & He & Hb) | [Hempty _]]; [auto|].
    rewrite lookup_empty in Hempty. discriminate.
Qed.

End Rows.

Lemma heat_map_rows_witness :
  exists market_bullish lines,
    run_pro_simulation feed [("TCS", Some "^CNXIT"); ("ZZZ", None)]
    = Ok (market_bullish, lines) /\
    market_bullish = true /\
    map (fun line => (Symbol (row line), S_Bull (row line))) lines = [("TCS", true)] /\
    Forall (fun line => in_0_100 (RSI (row line))) lines.
Proof.
  assert (Hrun : exists mb lines,
             run_pro_simulation feed [("TCS", Some "^CNXIT"); ("ZZZ", None)]
             = Ok (mb, lines) /\ mb = true /\
             map (fun line => (Symbol (row line), S_Bull (row line))) lines
             = [("TCS", true)]).
  { eexists _, _. split; [vm_compute; reflexivity|]. split; reflexivity. }
  destruct Hrun as (mb & lines & Hrun & Hmb & Hsym).
  exists mb, lines. repeat split; try assumption.
  destruct (heat_map_rows feed _ mb lines Hrun) as (_ & _ & Hrows).
  eapply Forall_impl; [exact Hrows|].
  intros line (entry & _ & _ & Hrsi & _). exact Hrsi.
Defined.

(** *** Symbol normalisation *)

Lemma all_chars_rev_app (p : Ascii.ascii -> bool) (s1 s2 : string) :
  all_chars p (String.rev_app s1 s2) = all_chars p s1 && all_chars p s2.
Proof.
  revert s2. induction s1 as [|c s1 IH]; intros s2; cbn [all_chars String.rev_app];
    [reflexivity|].
  rewrite IH. cbn [all_chars].
  destruct (p c), (all_chars p s1), (all_chars p s2); reflexivity.
Qed.

Lemma all_chars_rev (p : Ascii.ascii -> bool) (s : string) :
  all_chars p (String.rev s) = all_chars p s.
Proof.
  unfold String.rev. rewrite all_chars_rev_app. cbn [all_chars]. apply andb_true_r.
Qed.

Lemma rev_app_rev_app (s1 s2 : string) :
  String.rev_app (String.rev_app s1 s2) EmptyString = String.rev_app s2 s1.
Proof.
  revert s2. induction s1 as [|c s1 IH]; intros s2; cbn [String.rev_app];
    [reflexivity|].
  rewrite IH. reflexivity.
Qed.

Lemma string_rev_involutive (s : string) : String.rev (String.rev s) = s.
Proof. unfold String.rev. rewrite rev_app_rev_app. reflexivity. Qed.

Lemma lstrip_plain (s : string) :
  all_chars (fun c => negb (is_space c)) s = true -> lstrip s = s.
Proof.
  destruct s as [|c s]; cbn; [reflexivity|]. intros Hc.
  apply andb_true_iff in Hc as [Hc _]. apply negb_true_iff in Hc.
  rewrite Hc. reflexivity.
Qed.

Lemma strip_plain (s : string) :
  all_chars (fun c => negb (is_space c)) s = true -> strip s = s.
Proof.
  intros Hs. unfold strip. rewrite (lstrip_plain s Hs).
  rewrite lstrip_plain by (rewrite all_chars_rev; exact Hs).
  apply string_rev_involutive.
Qed.

(** A text whose second character is [x] is not found in a string
    without [x]. *)
Lemma prefix_second (a x : Ascii.ascii) (rest s : string) :
  all_chars (fun c => negb (Ascii.eqb c x)) s = true ->
  String.prefix (String a (String x rest)) s = false.
Proof.
  destruct s as [|c [|d s]]; cbn; try reflexivity.
  - destruct (Ascii.ascii_dec a c); reflexivity.
  - intros Hs. destruct (Ascii.ascii_dec a c); [|reflexivity].
    destruct (Ascii.ascii_dec x d) as [<- |]; [|reflexivity].
    rewrite Ascii.eqb_refl in Hs. cbn in Hs. rewrite andb_false_r in Hs. discriminate.
Qed.

Lemma replace_absent (a x : Ascii.ascii) (rest new s : string) :
  all_chars (fun c => negb (Ascii.eqb c x)) s = true ->
  replace (String a (String x rest)) new s = s.
Proof.
  unfold replace. generalize (String.length s) as fuel. intros fuel. revert s.
  induction fuel as [|fuel IH]; intros s Hs; [destruct s; reflexivity|].
  destruct s as [|c s]; [reflexivity|].
  cbn [replace_upto]. rewrite prefix_second by exact Hs.
  cbn in Hs. apply andb_true_iff in Hs as [_ Hs]. rewrite IH by exact Hs. reflexivity.
Qed.

Lemma all_chars_impl (p q : Ascii.ascii -> bool) (s : string) :
  (forall c, p c = true -> q c = true) -> all_chars p s = true -> all_chars q s = true.
Proof.
  intros Hpq. induction s as [|c s IH]; cbn; [reflexivity|].
  intros Hs. apply andb_true_iff in Hs as [Hc Hs].
  rewrite (Hpq c Hc), IH by exact Hs. reflexivity.
Qed.

(** X20.  A symbol of ASCII characters without blanks, ampersand and
    underscore is only given the suffix [.NS]. *)
Theorem get_clean_symbol_plain (symbol : string) :
  all_chars plain_char symbol = true ->
  get_clean_symbol symbol = symbol +:+ ".NS".
Proof.
  intros Hs. unfold get_clean_symbol.
  rewrite strip_plain.
  2: { eapply all_chars_impl; [|exact Hs]. unfold plain_char. intros c Hc.
       apply andb_true_iff in Hc as [Hc _]. apply andb_true_iff in Hc as [Hc _].
       apply andb_true_iff in Hc as [_ Hc]. exact Hc. }
  rewrite (replace_absent _ (Ascii.ascii_of_nat 38)).
  2: { eapply all_chars_impl; [|exact Hs]. unfold plain_char. intros c Hc.
       apply andb_true_iff in Hc as [Hc _]. apply andb_true_iff in Hc as [_ Hc]. exact Hc. }
  rewrite (replace_absent _ (Ascii.ascii_of_nat 95)).
  2: { eapply all_chars_impl; [|exact Hs]. unfold plain_char. intros c Hc.
       apply andb_true_iff in Hc as [_ Hc]. exact Hc. }
  reflexivity.
Qed.

Lemma get_clean_symbol_plain_witness :
  get_clean_symbol "RELIANCE" = "RELIANCE.NS".
Proof.
  apply (get_clean_symbol_plain "RELIANCE"). reflexivity.
Defined.

Example get_clean_symbol_mm :
  get_clean_symbol "  M&M " = "M%26M.NS" /\ get_clean_symbol "M_MFIN" = "M%26MFIN.NS".
Proof. split; reflexivity. Qed.

(** *** A scan that finds no row *)

Lemma length_shift_n (k : nat) (s : Series) : length (shift_n k s) = length s.
Proof.
  unfold shift_n. rewrite length_take, length_app, length_replicate. lia.
Qed.

Lemma length_pct_change (k : nat) (s : Series) : length (pct_change k s) = length s.
Proof.
  unfold pct_change. rewrite length_zip_with, length_shift_n. lia.
Qed.

(** Where the regime filter answers, the three-day return is defined. *)
Lemma is_bullish_ret_3d (df : DataFrame) (b : bool) :
  is_bullish df = Ok b -> exists r, ret_3d df = Ok r.
Proof.
  unfold is_bullish, ret_3d, getitem, iloc_last.
  destruct (columns df !! "Close") as [close|]; cbn; [|discriminate].
  destruct (last close) as [x|] eqn:Hl; cbn; [|discriminate]. intros _.
  destruct (last (pct_change 3 close)) as [r|] eqn:E; [eexists; reflexivity|].
  apply last_None in E. apply (f_equal length) in E.
  rewrite length_pct_change in E. destruct close; [discriminate Hl|discriminate E].
Qed.

Section EmptyScan.
Context `{FloatLib}.
Variable download : string -> string -> DataFrame.

Lemma scan_symbol_short (m : gmap string bool) (ref_ret : fnum)
    (entry : string * option string) :
  (len (download (get_clean_symbol (fst entry)) "60d") < 20)%nat ->
  scan_symbol download m ref_ret entry = None.
Proof.
  intros Hlen. unfold scan_symbol, scan_try.
  rewrite add_indicators_short; [reflexivity|].
  apply Nat.ltb_lt in Hlen. rewrite Hlen. apply orb_true_r.
Qed.

(** X21.  When the market and sector steps succeed and every stock
    frame has fewer than 20 rows, no symbol yields a row and the run ends
    in the KeyError of the sort on an empty table. *)
Theorem scan_without_rows_raises (symbols_data : list (string * option string))
    (market_bullish : bool) (m : gmap string bool) :
  is_bullish (download "^NSEI" "100d") = Ok market_bullish ->
  prefetch_sectors download ∅ (remove_dups (map snd symbols_data)) = Ok m ->
  Forall (fun entry =>
            (len (download (get_clean_symbol (fst entry)) "60d") < 20)%nat)
         symbols_data ->
  run_pro_simulation download symbols_data = Raise KeyError.
Proof.
  intros Hb Hm Hshort. unfold run_pro_simulation.
  destruct (is_bullish_ret_3d _ _ Hb) as [r Hr].
  rewrite Hb, Hr. cbn [mbind result_bind bind]. rewrite Hm. cbn [bind].
  assert (Hnone : omap (scan_symbol download m r) symbols_data = []).
  { clear Hm. induction Hshort as [|entry l Hlen _ IH]; [reflexivity|].
    cbn [omap list_omap]. rewrite scan_symbol_short by exact Hlen. exact IH. }
  change (shortlist (omap (scan_symbol download m r) symbols_data)
          ≫= (fun s_df => mret (market_bullish, map heat_line s_df))
          = Raise KeyError).
  rewrite Hnone. reflexivity.
Qed.

End EmptyScan.

Lemma scan_without_rows_raises_witness :
  run_pro_simulation feed [("ZZZ", None)] = Raise KeyError.
Proof.
  assert (Hb : is_bullish (feed "^NSEI" "100d") = Ok true) by (vm_compute; reflexivity).
  destruct (prefetch_sectors feed ∅ (remove_dups (map snd [("ZZZ", @None string)])))
    as [m|e] eqn:Hrun.
  2: { exfalso. apply prefetch_sectors_Raise in Hrun as (t & Hin & _).
       apply elem_of_remove_dups in Hin. cbn in Hin.
       apply elem_of_cons in Hin as [Hin | Hin]; [discriminate|inversion Hin]. }
  apply (scan_without_rows_raises feed [("ZZZ", None)] true m Hb Hrun).
  repeat constructor.
Defined.

(** *** The average true range *)

Lemma py_max_notna (a b : fnum) :
  notna a = true -> notna b = true -> notna (py_max a b) = true.
Proof. intros Ha Hb. unfold py_max. destruct (fgt b a); assumption. Qed.

Lemma py_max_nonneg_l (a b : fnum) :
  nonneg a -> notna b = true -> nonneg (py_max a b).
Proof.
  unfold py_max, fgt. destruct a as [x| | |], b as [y| | |]; cbn;
    try tauto; try discriminate.
  intros Hx _. destruct (Qle_bool y x) eqn:E; cbn; [exact Hx|].
  apply Qle_bool_false in E. lra.
Qed.

Lemma py_max_nonneg_r (a b : fnum) :
  notna a = true -> nonneg b -> nonneg (py_max a b).
Proof.
  unfold py_max, fgt. destruct a as [x| | |], b as [y| | |]; cbn;
    try tauto; try discriminate.
  intros _ Hy. destruct (Qle_bool y x) eqn:E; cbn; [|exact Hy].
  apply Qle_bool_iff in E. lra.
Qed.

Lemma foldl_py_max_nonneg (l : list fnum) (acc : fnum) :
  notna acc = true -> Forall (fun x => notna x = true) l ->
  nonneg acc \/ Exists nonneg l ->
  nonneg (foldl py_max acc l).
Proof.
  revert acc. induction l as [|y l IH]; intros acc Ha Hl Hn; cbn [foldl].
  - destruct Hn as [Hn | Hn]; [exact Hn|inversion Hn].
  - apply Forall_cons in Hl as [Hy Hl]. apply IH; [apply py_max_notna; assumption|exact Hl|].
    destruct Hn as [Hn | Hn].
    + left. apply py_max_nonneg_l; assumption.
    + apply Exists_cons in Hn as [Hn | Hn]; [left|right; exact Hn].
      apply py_max_nonneg_r; assumption.
Qed.

(** The largest of a row is not negative as soon as one entry is not. *)
Lemma row_max_nonneg (row : list fnum) : Exists nonneg row -> nonneg (row_max row).
Proof.
  intros Hn. unfold row_max.
  assert (Hf : Forall (fun x => notna x = true) (List.filter notna row)).
  { apply Forall_forall. intros x Hx. apply list_elem_of_In, filter_In in Hx. tauto. }
  assert (He : Exists nonneg (List.filter notna row)).
  { apply Exists_exists in Hn as (x & Hx & Hnn). apply Exists_exists. exists x.
    split; [|exact Hnn]. apply list_elem_of_In, filter_In.
    split; [apply list_elem_of_In, Hx|apply nonneg_notna, Hnn]. }
  destruct (List.filter notna row) as [|v vs]; [inversion He|].
  apply Forall_cons in Hf as [Hv Hvs].
  apply foldl_py_max_nonneg; [exact Hv|exact Hvs|].
  apply Exists_cons in He. exact He.
Qed.

Lemma fabs_nonneg (x : fnum) : fabs x = NaN \/ nonneg (fabs x).
Proof. destruct x as [q| | |]; cbn; auto. right. apply Qabs_nonneg. Qed.

Lemma fabs_nan (x : fnum) : fabs x = NaN -> x = NaN.
Proof. destruct x; cbn; congruence. Qed.

(** A high and a low that both have no distance to a previous close
    have no distance to each other either. *)
Lemma fsub_nan_both (h l c : fnum) :
  notna c = true -> fsub h c = NaN -> fsub l c = NaN -> fsub h l = NaN.
Proof. destruct h, l, c; cbn; congruence. Qed.

(** The true range of a day after a day with a close. *)
Lemma true_range_day (h l c : fnum) :
  notna c = true ->
  let tr := row_max [fsub h l; fabs (fsub h c); fabs (fsub l c)] in
  tr = NaN \/ nonneg tr.
Proof.
  intros Hc tr. unfold tr.
  destruct (fabs_nonneg (fsub h c)) as [Eh | Hh].
  2: { right. apply row_max_nonneg. right. left. exact Hh. }
  destruct (fabs_nonneg (fsub l c)) as [El | Hl].
  2: { right. apply row_max_nonneg. right. right. left. exact Hl. }
  left. rewrite Eh, El.
  rewrite (fsub_nan_both h l c Hc (fabs_nan _ Eh) (fabs_nan _ El)). reflexivity.
Qed.

Lemma filter_all (p : fnum -> bool) (l : list fnum) :
  (length l <= length (List.filter p l))%nat -> Forall (fun x => p x = true) l.
Proof.
  induction l as [|x l IH]; cbn [List.filter length]; [constructor|].
  pose proof (List.filter_length_le p l) as Hle.
  destruct (p x) eqn:E; cbn [length]; intros Hlen; [|lia].
  constructor; [exact E|apply IH; lia].
Qed.

(** A mean over a full window says that the window has no NaN. *)
Lemma roll_mean_notna_window (w : nat) (win : Series) :
  (length win <= w)%nat -> notna (roll_mean w win) = true ->
  Forall (fun x => notna x = true) win.
Proof.
  intros Hlen. unfold roll_mean.
  destruct (w <=? length (List.filter notna win))%nat eqn:E; [|discriminate].
  intros _. apply Nat.leb_le in E. apply filter_all. lia.
Qed.

Lemma roll_mean_nonneg_obs (minp : nat) (win : Series) :
  (0 < minp)%nat -> Forall (fun x => x = NaN \/ nonneg x) win ->
  roll_mean minp win = NaN \/ nonneg (roll_mean minp win).
Proof.
  intros Hm Hw. unfold roll_mean.
  destruct (minp <=? length (List.filter notna win))%nat eqn:E; [|left; reflexivity].
  apply Nat.leb_le in E. right. apply nonneg_fdiv_pos.
  - unfold Qlt. cbn. lia.
  - apply fsum_nonneg. apply Forall_forall. intros x Hx.
    apply list_elem_of_In, filter_In in Hx as [Hx Hn].
    rewrite Forall_forall in Hw.
    destruct (Hw x (proj2 (list_elem_of_In _ _) Hx)) as [-> | Hx']; [discriminate|exact Hx'].
Qed.

Lemma window_range (w i : nat) (s : Series) (x : fnum) :
  x ∈ window w i s ->
  exists j, (i + 1 - w <= j < i + 1 - w + w)%nat /\ s !! j = Some x.
Proof.
  unfold window. intros Hx. apply elem_of_take in Hx as (k & Hk & Hlt).
  rewrite lookup_drop in Hk. exists (i + 1 - w + k)%nat. split; [lia|exact Hk].
Qed.

Lemma window_member (w i j : nat) (s : Series) (x : fnum) :
  (i + 1 - w <= j < i + 1 - w + w)%nat -> s !! j = Some x -> x ∈ window w i s.
Proof.
  intros Hj Hx. unfold window. apply elem_of_take.
  exists (j - (i + 1 - w))%nat. split; [|lia].
  rewrite lookup_drop. replace (i + 1 - w + (j - (i + 1 - w)))%nat with j by lia.
  exact Hx.
Qed.

Lemma lookup_removelast (s : Series) (k : nat) (x : fnum) :
  removelast s !! k = Some x -> s !! k = Some x.
Proof.
  revert k. induction s as [|y s IH]; intros k; [intros H; inversion H|].
  cbn [removelast]. destruct s as [|z s]; [intros H; inversion H|].
  destruct k as [|k]; [exact (fun H => H)|]. cbn [lookup list_lookup]. apply IH.
Qed.

(** A shifted series holds at a later position the value before it. *)
Lemma lookup_shift_S (s : Series) (k : nat) (x : fnum) :
  shift s !! S k = Some x -> s !! k = Some x.
Proof.
  unfold shift. destruct s as [|y s]; [intros H; inversion H|].
  intros H. apply lookup_removelast. exact H.
Qed.

Section Atr.
Context `{FloatLib}.

Lemma with_indicators_ATR (df : DataFrame) (close high low : Series) :
  columns (with_indicators df close high low) !! "ATR"
  = Some (rolling 14 roll_mean
            (true_range (zip_with fsub high low)
                        (map fabs (zip_with fsub high (shift close)))
                        (map fabs (zip_with fsub low (shift close))))).
Proof. unfold with_indicators, setitem. cbn [columns]. apply lookup_insert_eq. Qed.

(** The true range of a day whose previous close is known. *)
Lemma true_range_lookup (high low close : Series) (j : nat) (y c : fnum) :
  true_range (zip_with fsub high low)
             (map fabs (zip_with fsub high (shift close)))
             (map fabs (zip_with fsub low (shift close))) !! S j = Some y ->
  close !! j = Some c -> notna c = true ->
  y = NaN \/ nonneg y.
Proof.
  unfold true_range. intros Hy Hc Hn.
  apply lookup_zip_with_Some in Hy as (a & [b c'] & -> & Ha & Hbc).
  apply lookup_zip_with_Some in Hbc as (b0 & c0 & [= <- <-] & Hb & Hc').
  apply lookup_zip_with_Some in Ha as (h & l & -> & Hh & Hl).
  rewrite map_fmap, list_lookup_fmap in Hb, Hc'.
  destruct (zip_with fsub high (shift close) !! S j) as [db|] eqn:Edb; [|discriminate].
  destruct (zip_with fsub low (shift close) !! S j) as [dc|] eqn:Edc; [|discriminate].
  cbn in Hb, Hc'. injection Hb as <-. injection Hc' as <-.
  apply lookup_zip_with_Some in Edb as (h' & c1 & -> & Hh' & Hc1).
  apply lookup_zip_with_Some in Edc as (l' & c2 & -> & Hl' & Hc2).
  apply lookup_shift_S in Hc1, Hc2.
  assert (h' = h) by congruence. assert (l' = l) by congruence.
  assert (c1 = c) by congruence. assert (c2 = c) by congruence. subst.
  cbn [fst snd]. apply (true_range_day h l c Hn).
Qed.

(** X22.  No row returned by the call has a negative ATR. *)
Theorem atr_not_negative (df out : DataFrame) (atr : Series) :
  snd (add_indicators df) = Ok out -> columns out !! "ATR" = Some atr ->
  Forall nonneg atr.
Proof.
  intros Hok Hatr.
  pose proof (add_indicators_notna _ _ _ _ Hok Hatr) as Hn.
  destruct (add_indicators_Ok _ _ Hok)
    as [[Hg ->] | [Hg (close & high & low & Hc & Hh & Hl & _ & ->)]].
  { unfold empty_frame in Hatr. cbn [columns] in Hatr.
    rewrite lookup_empty in Hatr. discriminate. }
  rewrite dropna_lookup, with_indicators_ATR in Hatr. injection Hatr as <-.
  apply Forall_forall. intros x Hx.
  rewrite Forall_forall in Hn. specialize (Hn x Hx).
  apply select_lookup in Hx as (i & Hkeep & Hi).
  pose proof (kept_row_past_warmup _ _ _ _ _ Hkeep) as Hwarm.
  pose proof (row_complete_lookup _ _ _ _ Hkeep (with_indicators_SMA20 df close high low))
    as Hsma.
  assert (Hilen : (i < length close)%nat).
  { destruct (Nat.lt_ge_cases i (length close)) as [Hlt | Hge]; [exact Hlt|].
    rewrite nth_overflow in Hsma by (rewrite rolling_length; exact Hge). discriminate. }
  rewrite rolling_nth in Hsma by lia.
  assert (Hwin : Forall (fun c => notna c = true) (window 20 i close)).
  { apply (roll_mean_notna_window 20); [|exact Hsma].
    unfold window. rewrite length_take. lia. }
  apply rolling_lookup_Some in Hi.
  replace (i + 1 <? 14)%nat with false in Hi by (symmetry; apply Nat.ltb_ge; lia).
  subst x.
  destruct (roll_mean_nonneg_obs 14
              (window 14 i
                 (true_range (zip_with fsub high low)
                    (map fabs (zip_with fsub high (shift close)))
                    (map fabs (zip_with fsub low (shift close))))))
    as [E | Hnn]; [lia| |rewrite E in Hn; discriminate|exact Hnn].
  apply Forall_forall. intros y Hy.
  apply window_range in Hy as (j & Hj & Hy).
  destruct j as [|j]; [lia|].
  destruct (close !! j) as [c|] eqn:Ec.
  2: { apply lookup_ge_None in Ec. lia. }
  eapply true_range_lookup; [exact Hy|exact Ec|].
  rewrite Forall_forall in Hwin. apply Hwin.
  apply (window_member 20 i j); [lia|exact Ec].
Qed.

End Atr.

Lemma atr_not_negative_witness :
  exists out atr,
    snd (add_indicators (bars zigzag22)) = Ok out /\
    columns out !! "ATR" = Some atr /\ length atr = 3%nat /\ Forall nonneg atr.
Proof.
  assert (Hrun : exists df' out atr,
             add_indicators (bars zigzag22) = (df', Ok out) /\
             columns out !! "ATR" = Some atr /\ length atr = 3%nat).
  { eexists _, _, _. split; [run_indicators|]. split; vm_compute; reflexivity. }
  destruct Hrun as (df' & out & atr & Hrun & Hatr & Hlen).
  assert (Hok : snd (add_indicators (bars zigzag22)) = Ok out)
    by (rewrite Hrun; reflexivity).
  exists out, atr. repeat split; try assumption.
  exact (atr_not_negative (bars zigzag22) out atr Hok Hatr).
Defined.

End QuantMore.
